(** * The layer and category state engine of the land-use and FRA map scripts

    A shallow embedding of the three browser scripts of the repository:

    - [LandUseMap]       (static/script.js),
    - [IndiaLandUseMap]  (the enhanced India script),
    - [FRAWebGIS]        (static/fra_webgis_script.js),

    as far as they group features into per-category layers, attach and detach
    those layers, collect filters and fetch data.

    Conventions of the embedding.

    - A script object ([this]) is a record; a method is a computation in the
      exception-and-state monad [Js.Eff]: a JavaScript [throw] leaves the
      mutations made so far in place, exactly as in the source.
    - An [await fetch(..)] splits a method in two: the part before it
      ([.._request], which records the request) and the part that runs once
      the response is there ([.._response]). The browser is single threaded,
      so each part runs to completion and an interleaving is a sequence of
      such parts.
    - The Leaflet map is the set of the stamps of the layers attached to it:
      [addLayer] and [removeLayer] are insertion and removal, [hasLayer] is
      membership. [L.geoJSON] hands out a fresh stamp.
    - The document is a finite map from element ids to the element
      properties the scripts use: [checked], [value] and [textContent].
    - [this.layers] and the filter object are finite maps [gmap string _],
      read by own property: the names that reach them are the category names
      of the page's controls and of the grouping object.
    - An object literal whose entries are visited (the local grouping
      object, a style table) is an association list in insertion order,
      which is the order of the visit for names that are not array indices.
      The truth test on the grouping object, applied to whatever category a
      payload carries, sees the names every JavaScript object inherits from
      [Object.prototype]. *)

From stdpp Require Import base option strings list gmap sets pretty.

Local Open Scope string_scope.
Local Open Scope list_scope.
Local Open Scope nat_scope.

(** ** JavaScript values, objects and exceptions *)

Module Js.

(** The scalar property values the scripts look at. [Undefined] is also
    what reading an absent property gives. *)
Inductive value : Type :=
| Undefined
| Null
| Str (s : string).

(** ToBoolean. *)
Definition truthy (v : value) : bool :=
  match v with
  | Undefined | Null => false
  | Str s => negb (String.eqb s "")
  end.

(** ToPropertyKey, used by [obj[v]]. *)
Definition to_key (v : value) : string :=
  match v with
  | Undefined => "undefined"
  | Null => "null"
  | Str s => s
  end.

(** The property names an object literal inherits from [Object.prototype];
    reading one of them on [{}] gives a function (or the prototype itself),
    which is truthy and has no [push]. *)
Definition prototype_names : list string :=
  [ "constructor"; "hasOwnProperty"; "isPrototypeOf"; "propertyIsEnumerable";
    "toLocaleString"; "toString"; "valueOf"; "__proto__";
    "__defineGetter__"; "__defineSetter__"; "__lookupGetter__";
    "__lookupSetter__" ].

Definition inherited (k : string) : bool :=
  existsb (String.eqb k) prototype_names.

(** An object literal used as a dictionary, own properties in insertion
    order. *)
Definition object (A : Type) : Type := list (string * A).

Fixpoint get {A} (k : string) (o : object A) : option A :=
  match o with
  | [] => None
  | (k', a) :: o' => if String.eqb k k' then Some a else get k o'
  end.

(** [o[k] = a]: overwrite in place, or append a new own property. *)
Fixpoint set {A} (k : string) (a : A) (o : object A) : object A :=
  match o with
  | [] => [(k, a)]
  | (k', a') :: o' =>
      if String.eqb k k' then (k', a) :: o' else (k', a') :: set k a o'
  end.

(** The truth value of [o[k]] when the own properties hold arrays or
    objects: an own property is truthy, and so is an inherited one. *)
Definition has_truthy {A} (k : string) (o : object A) : bool :=
  match get k o with
  | Some _ => true
  | None => inherited k
  end.

Inductive exn : Type :=
| TypeError (message : string)
| SyntaxError (message : string)
| Error (message : string).

Definition message (e : exn) : string :=
  match e with
  | TypeError m | SyntaxError m | Error m => m
  end.

Inductive result (A : Type) : Type :=
| Ok (a : A)
| Throw (e : exn).
Arguments Ok {A} a.
Arguments Throw {A} e.

(** Computations over the fields of a script object. *)
Definition Eff (S A : Type) : Type := S → result A * S.

Definition ret {S A} (a : A) : Eff S A := λ s, (Ok a, s).

Definition bind {S A B} (m : Eff S A) (f : A → Eff S B) : Eff S B :=
  λ s, match m s with
       | (Ok a, s') => f a s'
       | (Throw e, s') => (Throw e, s')
       end.

Definition throw {S A} (e : exn) : Eff S A := λ s, (Throw e, s).
Definition get_state {S} : Eff S S := λ s, (Ok s, s).
Definition modify {S} (f : S → S) : Eff S unit := λ s, (Ok tt, f s).

(** [try { m } catch (e) { h e }]. *)
Definition try_catch {S A} (m : Eff S A) (h : exn → Eff S A) : Eff S A :=
  λ s, match m s with
       | (Ok a, s') => (Ok a, s')
       | (Throw e, s') => h e s'
       end.

Definition lift {S A} (r : result A) : Eff S A := λ s, (r, s).

(** [xs.forEach(x => body x)]. *)
Fixpoint for_each {S A} (body : A → Eff S unit) (xs : list A) : Eff S unit :=
  match xs with
  | [] => ret tt
  | x :: xs' => bind (body x) (λ _, for_each body xs')
  end.

(** The fields once the computation has run. *)
Definition exec {S A} (m : Eff S A) (s : S) : S := (m s).2.

Definition succeeds {S A} (m : Eff S A) (s : S) : Prop :=
  ∃ a, (m s).1 = Ok a.

End Js.

Notation "x <- m ;; k" := (Js.bind m (λ x, k))
  (at level 100, m at next level, right associativity).
Notation "m ;;; k" := (Js.bind m (λ _, k))
  (at level 100, right associativity).

(** ** Features, styles, layers, the map widget, the document, the network *)

(** A GeoJSON feature: its geometry (opaque here) and the properties the
    scripts read. *)
Record Feature : Type := {
  geometry : string;
  class : Js.value;
  class_id : Js.value;
  fra_type : Js.value;
  claim_id : Js.value
}.

(** A path style; [fillOpacity] is in hundredths. *)
Record Style : Type := {
  color : string;
  fillColor : string;
  fillOpacity : nat;
  weight : nat
}.

(** What [L.geoJSON(features, {style})] builds. [style] is [None] when the
    option passed was [undefined]. *)
Record Layer : Type := {
  stamp : nat;
  members : list Feature;
  style : option Style
}.

Module Leaflet.

Definition hasLayer (m : gset nat) (l : Layer) : bool :=
  bool_decide (stamp l ∈ m).

Definition addLayer (m : gset nat) (l : Layer) : gset nat :=
  {[ stamp l ]} ∪ m.

Definition removeLayer (m : gset nat) (l : Layer) : gset nat :=
  m ∖ {[ stamp l ]}.

End Leaflet.

(** The text a script writes into an element. *)
Inductive Text : Type :=
| Plain (s : string)
| Number (n : nat)
| Counted (n : nat) (unit_name : string).

Record Element : Type := {
  checked : bool;
  value : string;
  textContent : Text
}.

Definition set_textContent (t : Text) (e : Element) : Element :=
  {| checked := checked e; value := value e; textContent := t |}.

(** The [features] property of a payload. *)
Inductive FeaturesField : Type :=
| Missing
| NotAnArray
| Features (fs : list Feature).

Record GeoJson : Type := {
  error : Js.value;
  features : FeaturesField
}.

(** What [response.json()] resolves to, or that it rejects. A JSON number,
    string or array behaves like an object without [error] and [features]. *)
Inductive Body (A : Type) : Type :=
| NotJson
| JsonNull
| JsonObject (o : A).
Arguments NotJson {A}.
Arguments JsonNull {A}.
Arguments JsonObject {A} o.

Inductive Response (A : Type) : Type :=
| Rejected
| Http (ok : bool) (status : nat) (body : Body A).
Arguments Rejected {A}.
Arguments Http {A} ok status body.

Record Request : Type := {
  path : string;
  query : gmap string string
}.

(** ** Grouping features by category *)

(** The grouping loop of [IndiaLandUseMap.processData] and of
    [FRAWebGIS.processClaimsData], which differ in the property read:
<<
    const className = feature.properties.class;
    if (!featuresByClass[className]) { featuresByClass[className] = []; }
    featuresByClass[className].push(feature);
>>
    On a name inherited from [Object.prototype] the test finds a truthy
    value, nothing is created, and [push] is not a function. *)
Definition group_step (category : Feature → Js.value)
    (featuresByClass : Js.object (list Feature)) (feature : Feature)
    : Js.result (Js.object (list Feature)) :=
  let className := Js.to_key (category feature) in
  let featuresByClass :=
    if negb (Js.has_truthy className featuresByClass)
    then Js.set className [] featuresByClass
    else featuresByClass in
  match Js.get className featuresByClass with
  | Some bucket => Js.Ok (Js.set className (bucket ++ [feature]) featuresByClass)
  | None => Js.Throw (Js.TypeError "featuresByClass[className].push is not a function")
  end.

(** The grouping loop of [LandUseMap.processData]: only the buckets that
    exist already receive features.
<<
    const className = feature.properties.class;
    if (featuresByClass[className]) { featuresByClass[className].push(feature); }
>> *)
Definition group_known_step
    (featuresByClass : Js.object (list Feature)) (feature : Feature)
    : Js.result (Js.object (list Feature)) :=
  let className := Js.to_key (class feature) in
  if Js.has_truthy className featuresByClass then
    match Js.get className featuresByClass with
    | Some bucket => Js.Ok (Js.set className (bucket ++ [feature]) featuresByClass)
    | None => Js.Throw (Js.TypeError "featuresByClass[className].push is not a function")
    end
  else Js.Ok featuresByClass.

(** [features.forEach(step)] on the grouping object; a throw ends the loop. *)
Fixpoint group_loop
    (step : Js.object (list Feature) → Feature → Js.result (Js.object (list Feature)))
    (featuresByClass : Js.object (list Feature)) (features : list Feature)
    : Js.result (Js.object (list Feature)) :=
  match features with
  | [] => Js.Ok featuresByClass
  | feature :: rest =>
      match step featuresByClass feature with
      | Js.Ok featuresByClass' => group_loop step featuresByClass' rest
      | Js.Throw e => Js.Throw e
      end
  end.

(** [geojsonData.features.forEach]: reading [forEach] off a missing
    [features] throws, and a value that is not an array has no [forEach]. *)
Definition features_forEach (field : FeaturesField) : Js.result (list Feature) :=
  match field with
  | Features fs => Js.Ok fs
  | Missing => Js.Throw (Js.TypeError "Cannot read properties of undefined (reading 'forEach')")
  | NotAnArray => Js.Throw (Js.TypeError "geojsonData.features.forEach is not a function")
  end.

(** [Object.values(this.layers).forEach(layer => { if (layer &&
    this.map.hasLayer(layer)) this.map.removeLayer(layer); })]. *)
Definition detach_all (ls : list Layer) (m : gset nat) : gset nat :=
  foldl (λ m l, if Leaflet.hasLayer m l then Leaflet.removeLayer m l else m) m ls.

(** ** IndiaLandUseMap *)

Module IndiaLandUseMap.

Record State : Type := {
  map : gset nat;
  layers : gmap string Layer;
  currentFilters : gmap string string;
  document : gmap string Element;
  requests : list Request;
  shown_errors : list string;
  next_stamp : nat
}.

Definition set_map (f : gset nat → gset nat) (s : State) : State :=
  {| map := f (map s); layers := layers s; currentFilters := currentFilters s;
     document := document s; requests := requests s;
     shown_errors := shown_errors s; next_stamp := next_stamp s |}.

Definition set_layers (f : gmap string Layer → gmap string Layer) (s : State) : State :=
  {| map := map s; layers := f (layers s); currentFilters := currentFilters s;
     document := document s; requests := requests s;
     shown_errors := shown_errors s; next_stamp := next_stamp s |}.

Definition set_currentFilters (c : gmap string string) (s : State) : State :=
  {| map := map s; layers := layers s; currentFilters := c;
     document := document s; requests := requests s;
     shown_errors := shown_errors s; next_stamp := next_stamp s |}.

Definition set_document (f : gmap string Element → gmap string Element) (s : State) : State :=
  {| map := map s; layers := layers s; currentFilters := currentFilters s;
     document := f (document s); requests := requests s;
     shown_errors := shown_errors s; next_stamp := next_stamp s |}.

Definition set_requests (f : list Request → list Request) (s : State) : State :=
  {| map := map s; layers := layers s; currentFilters := currentFilters s;
     document := document s; requests := f (requests s);
     shown_errors := shown_errors s; next_stamp := next_stamp s |}.

Definition set_shown_errors (f : list string → list string) (s : State) : State :=
  {| map := map s; layers := layers s; currentFilters := currentFilters s;
     document := document s; requests := requests s;
     shown_errors := f (shown_errors s); next_stamp := next_stamp s |}.

Definition set_next_stamp (n : nat) (s : State) : State :=
  {| map := map s; layers := layers s; currentFilters := currentFilters s;
     document := document s; requests := requests s;
     shown_errors := shown_errors s; next_stamp := n |}.

Definition classStyles : Js.object Style :=
  [ ("water", {| color := "#0066cc"; fillColor := "#0066cc"; fillOpacity := 70; weight := 2 |});
    ("forest_dense", {| color := "#00aa00"; fillColor := "#00aa00"; fillOpacity := 70; weight := 2 |});
    ("forest_open", {| color := "#66cc00"; fillColor := "#66cc00"; fillOpacity := 70; weight := 2 |});
    ("agriculture_irrigated", {| color := "#ffaa00"; fillColor := "#ffaa00"; fillOpacity := 70; weight := 2 |});
    ("agriculture_rainfed", {| color := "#ffcc66"; fillColor := "#ffcc66"; fillOpacity := 70; weight := 2 |});
    ("urban", {| color := "#cc0000"; fillColor := "#cc0000"; fillOpacity := 70; weight := 2 |});
    ("grassland", {| color := "#99cc00"; fillColor := "#99cc00"; fillOpacity := 70; weight := 2 |});
    ("wasteland", {| color := "#cc9900"; fillColor := "#cc9900"; fillOpacity := 70; weight := 2 |});
    ("wetland", {| color := "#006699"; fillColor := "#006699"; fillOpacity := 70; weight := 2 |});
    ("mangrove", {| color := "#009966"; fillColor := "#009966"; fillOpacity := 70; weight := 2 |});
    ("fra_area", {| color := "#9900cc"; fillColor := "#9900cc"; fillOpacity := 80; weight := 3 |}) ].

(** [this.classStyles[className] || this.classStyles.fra_area]. The names
    that reach it are own names of the grouping object. *)
Definition style_of (className : string) : option Style :=
  match Js.get className classStyles with
  | Some st => Some st
  | None => Js.get "fra_area" classStyles
  end.

Definition showError (message : string) : Js.Eff State unit :=
  Js.modify (set_shown_errors (λ l, l ++ [message])).

(** [updateFeatureCount(count)]. *)
Definition updateFeatureCount (count : nat) : Js.Eff State unit :=
  Js.modify (set_document (λ d,
    match d !! "feature-count" with
    | Some el => <["feature-count" := set_textContent (Counted count "features") el]> d
    | None => d
    end)).

(** The body of the second [forEach] of [processData], for one entry of
    [Object.entries(featuresByClass)]. *)
Definition create_layer (entry : string * list Feature) : Js.Eff State unit :=
  let '(className, features) := entry in
  if 0 <? length features then
    s <- Js.get_state ;;
    let layer := {| stamp := next_stamp s; members := features;
                    style := style_of className |} in
    Js.modify (λ s, set_next_stamp (S (next_stamp s))
                      (set_layers (<[className := layer]>) s)) ;;;
    (match document s !! ("layer-" +:+ className) with
     | Some layerCheckbox =>
         if checked layerCheckbox
         then Js.modify (set_map (λ m, Leaflet.addLayer m layer))
         else Js.ret tt
     | None => Js.ret tt
     end) ;;;
    Js.modify (set_document (λ d,
      match d !! ("count-" +:+ className) with
      | Some countElement =>
          <["count-" +:+ className := set_textContent (Number (length features)) countElement]> d
      | None => d
      end))
  else Js.ret tt.

Definition processData (geojsonData : GeoJson) : Js.Eff State unit :=
  Js.modify (λ s, set_layers (λ _, ∅)
                    (set_map (detach_all (map_to_list (layers s)).*2) s)) ;;;
  fs <- Js.lift (features_forEach (features geojsonData)) ;;
  featuresByClass <- Js.lift (group_loop (group_step class) [] fs) ;;
  Js.for_each create_layer featuresByClass.

(** [loadData] up to [await fetch(`/api/data?${params}`)]. *)
Definition loadData_request : Js.Eff State unit :=
  Js.modify (λ s, set_requests
    (λ l, l ++ [{| path := "/api/data"; query := currentFilters s |}]) s).

(** [response.json()] and the reads of [data.error]. *)
Definition read_json {A} (response : Response A) : Js.Eff State A :=
  match response with
  | Rejected => Js.throw (Js.TypeError "Failed to fetch")
  | Http _ _ NotJson => Js.throw (Js.SyntaxError "Unexpected token in JSON")
  | Http _ _ JsonNull => Js.throw (Js.TypeError "Cannot read properties of null (reading 'error')")
  | Http _ _ (JsonObject data) => Js.ret data
  end.

Definition features_length (field : FeaturesField) : Js.Eff State nat :=
  match field with
  | Features fs => Js.ret (length fs)
  | _ => Js.throw (Js.TypeError "Cannot read properties of undefined (reading 'toLocaleString')")
  end.

(** [loadData] from the moment the response is there. *)
Definition loadData_response (response : Response GeoJson) : Js.Eff State unit :=
  Js.try_catch
    (data <- read_json response ;;
     if Js.truthy (error data) then Js.throw (Js.Error (Js.to_key (error data)))
     else
       processData data ;;;
       n <- features_length (features data) ;;
       updateFeatureCount n)
    (λ _, showError "Failed to load data").

Definition loadData (response : Response GeoJson) : Js.Eff State unit :=
  loadData_request ;;; loadData_response response.

Definition toggleLayer (layerName : string) (visible : bool) : Js.Eff State unit :=
  s <- Js.get_state ;;
  match layers s !! layerName with
  | Some layer =>
      if visible
      then Js.modify (set_map (λ m, Leaflet.addLayer m layer))
      else Js.modify (set_map (λ m, Leaflet.removeLayer m layer))
  | None => Js.ret tt
  end.

End IndiaLandUseMap.

(** ** FRAWebGIS *)

Module FRAWebGIS.

(** The detail record of [/api/claim/<id>]: its [error] property and the
    fields [displayClaimDetails] renders. *)
Record ClaimDetails : Type := {
  details_error : Js.value;
  details_fields : list (string * Js.value)
}.

Record State : Type := {
  map : gset nat;
  layers : gmap string Layer;
  currentFilters : gmap string string;
  document : gmap string Element;
  claim_details : option ClaimDetails;   (* what #claim-details renders *)
  claim_modal_shown : bool;              (* #claim-modal has display: block *)
  requests : list Request;
  shown_errors : list string;
  next_stamp : nat
}.

Definition set_map (f : gset nat → gset nat) (s : State) : State :=
  {| map := f (map s); layers := layers s; currentFilters := currentFilters s;
     document := document s; claim_details := claim_details s;
     claim_modal_shown := claim_modal_shown s; requests := requests s;
     shown_errors := shown_errors s; next_stamp := next_stamp s |}.

Definition set_layers (f : gmap string Layer → gmap string Layer) (s : State) : State :=
  {| map := map s; layers := f (layers s); currentFilters := currentFilters s;
     document := document s; claim_details := claim_details s;
     claim_modal_shown := claim_modal_shown s; requests := requests s;
     shown_errors := shown_errors s; next_stamp := next_stamp s |}.

Definition set_currentFilters (c : gmap string string) (s : State) : State :=
  {| map := map s; layers := layers s; currentFilters := c;
     document := document s; claim_details := claim_details s;
     claim_modal_shown := claim_modal_shown s; requests := requests s;
     shown_errors := shown_errors s; next_stamp := next_stamp s |}.

Definition set_document (f : gmap string Element → gmap string Element) (s : State) : State :=
  {| map := map s; layers := layers s; currentFilters := currentFilters s;
     document := f (document s); claim_details := claim_details s;
     claim_modal_shown := claim_modal_shown s; requests := requests s;
     shown_errors := shown_errors s; next_stamp := next_stamp s |}.

Definition set_claim_details (c : ClaimDetails) (s : State) : State :=
  {| map := map s; layers := layers s; currentFilters := currentFilters s;
     document := document s; claim_details := Some c;
     claim_modal_shown := claim_modal_shown s; requests := requests s;
     shown_errors := shown_errors s; next_stamp := next_stamp s |}.

Definition set_claim_modal_shown (b : bool) (s : State) : State :=
  {| map := map s; layers := layers s; currentFilters := currentFilters s;
     document := document s; claim_details := claim_details s;
     claim_modal_shown := b; requests := requests s;
     shown_errors := shown_errors s; next_stamp := next_stamp s |}.

Definition set_requests (f : list Request → list Request) (s : State) : State :=
  {| map := map s; layers := layers s; currentFilters := currentFilters s;
     document := document s; claim_details := claim_details s;
     claim_modal_shown := claim_modal_shown s; requests := f (requests s);
     shown_errors := shown_errors s; next_stamp := next_stamp s |}.

Definition set_shown_errors (f : list string → list string) (s : State) : State :=
  {| map := map s; layers := layers s; currentFilters := currentFilters s;
     document := document s; claim_details := claim_details s;
     claim_modal_shown := claim_modal_shown s; requests := requests s;
     shown_errors := f (shown_errors s); next_stamp := next_stamp s |}.

Definition set_next_stamp (n : nat) (s : State) : State :=
  {| map := map s; layers := layers s; currentFilters := currentFilters s;
     document := document s; claim_details := claim_details s;
     claim_modal_shown := claim_modal_shown s; requests := requests s;
     shown_errors := shown_errors s; next_stamp := n |}.

Definition fraTypeStyles : Js.object Style :=
  [ ("IFR", {| color := "#007bff"; fillColor := "#007bff"; fillOpacity := 70; weight := 2 |});
    ("CFR", {| color := "#28a745"; fillColor := "#28a745"; fillOpacity := 70; weight := 2 |});
    ("CR", {| color := "#ffc107"; fillColor := "#ffc107"; fillOpacity := 70; weight := 2 |}) ].

(** [this.fraTypeStyles[fraType] || this.fraTypeStyles.IFR]. *)
Definition style_of (fraType : string) : option Style :=
  match Js.get fraType fraTypeStyles with
  | Some st => Some st
  | None => Js.get "IFR" fraTypeStyles
  end.

(** [toLowerCase] on the letters A to Z. *)
Definition lower_ascii (c : Ascii.ascii) : Ascii.ascii :=
  let n := Ascii.nat_of_ascii c in
  if (65 <=? n) && (n <=? 90) then Ascii.ascii_of_nat (n + 32) else c.

Fixpoint toLowerCase (s : string) : string :=
  match s with
  | EmptyString => EmptyString
  | String c s' => String (lower_ascii c) (toLowerCase s')
  end.

(** [console.error(message); alert(message)]. *)
Definition showError (message : string) : Js.Eff State unit :=
  Js.modify (set_shown_errors (λ l, l ++ [message])).

Definition updateFeatureCount (count : nat) : Js.Eff State unit :=
  Js.modify (set_document (λ d,
    match d !! "feature-count" with
    | Some el => <["feature-count" := set_textContent (Counted count "claims") el]> d
    | None => d
    end)).

(** The body of the second [forEach] of [processClaimsData]. *)
Definition create_layer (entry : string * list Feature) : Js.Eff State unit :=
  let '(fraType, features) := entry in
  if 0 <? length features then
    s <- Js.get_state ;;
    let layer := {| stamp := next_stamp s; members := features;
                    style := style_of fraType |} in
    Js.modify (λ s, set_next_stamp (S (next_stamp s))
                      (set_layers (<[fraType := layer]>) s)) ;;;
    match document s !! ("layer-" +:+ toLowerCase fraType) with
    | Some layerCheckbox =>
        if checked layerCheckbox
        then Js.modify (set_map (λ m, Leaflet.addLayer m layer))
        else Js.ret tt
    | None => Js.ret tt
    end
  else Js.ret tt.

Definition processClaimsData (geojsonData : GeoJson) : Js.Eff State unit :=
  Js.modify (λ s, set_layers (λ _, ∅)
                    (set_map (detach_all (map_to_list (layers s)).*2) s)) ;;;
  fs <- Js.lift (features_forEach (features geojsonData)) ;;
  featuresByType <- Js.lift (group_loop (group_step fra_type) [] fs) ;;
  Js.for_each create_layer featuresByType.

(** [loadClaims] up to [await fetch(`/api/claims?${params}`)]. *)
Definition loadClaims_request : Js.Eff State unit :=
  Js.modify (λ s, set_requests
    (λ l, l ++ [{| path := "/api/claims"; query := currentFilters s |}]) s).

(** [loadClaims] from the moment the response is there. *)
Definition loadClaims_response (response : Response GeoJson) : Js.Eff State unit :=
  Js.try_catch
    (match response with
     | Rejected => Js.throw (Js.TypeError "Failed to fetch")
     | Http false status _ =>
         Js.throw (Js.Error ("HTTP error! status: " +:+ pretty status))
     | Http true _ NotJson => Js.throw (Js.SyntaxError "Unexpected token in JSON")
     | Http true _ JsonNull =>
         Js.throw (Js.TypeError "Cannot read properties of null (reading 'error')")
     | Http true _ (JsonObject data) =>
         if Js.truthy (error data) then Js.throw (Js.Error (Js.to_key (error data)))
         else
           match features data with
           | Features fs =>
               processClaimsData data ;;;
               updateFeatureCount (length fs)
           | Missing | NotAnArray =>
               Js.throw (Js.Error "Invalid data format: missing features array")
           end
     end)
    (λ e, showError ("Failed to load claims data: " +:+ Js.message e)).

Definition loadClaims (response : Response GeoJson) : Js.Eff State unit :=
  loadClaims_request ;;; loadClaims_response response.

Definition toggleLayer (fraType : string) (visible : bool) : Js.Eff State unit :=
  s <- Js.get_state ;;
  match layers s !! fraType with
  | Some layer =>
      if visible then
        if negb (Leaflet.hasLayer (map s) layer)
        then Js.modify (set_map (λ m, Leaflet.addLayer m layer))
        else Js.ret tt
      else
        if Leaflet.hasLayer (map s) layer
        then Js.modify (set_map (λ m, Leaflet.removeLayer m layer))
        else Js.ret tt
  | None => Js.ret tt
  end.

(** [Object.fromEntries(Object.entries(filters).filter(([_, value]) => value))]. *)
Definition remove_empty_filters (filters : gmap string string) : gmap string string :=
  filter (λ entry : string * string, Js.truthy (Js.Str entry.2)) filters.

(** [document.getElementById(id).value]. *)
Definition input_value (id : string) : Js.Eff State string :=
  s <- Js.get_state ;;
  match document s !! id with
  | Some el => Js.ret (value el)
  | None => Js.throw (Js.TypeError "Cannot read properties of null (reading 'value')")
  end.

(** [applyFilters], up to the fetch of the [loadClaims] it starts. *)
Definition applyFilters : Js.Eff State unit :=
  state <- input_value "state-filter" ;;
  district <- input_value "district-filter" ;;
  village <- input_value "village-filter" ;;
  fra_type <- input_value "fra-type-filter" ;;
  status <- input_value "status-filter" ;;
  tribal_community <- input_value "tribal-filter" ;;
  claim_area_min <- input_value "area-min" ;;
  claim_area_max <- input_value "area-max" ;;
  Js.modify (set_currentFilters
    (<["state" := state]> (<["district" := district]> (<["village" := village]>
     (<["fra_type" := fra_type]> (<["status" := status]>
      (<["tribal_community" := tribal_community]>
       (<["claim_area_min" := claim_area_min]>
        (<["claim_area_max" := claim_area_max]> ∅))))))))) ;;;
  Js.modify (λ s, set_currentFilters (remove_empty_filters (currentFilters s)) s) ;;;
  loadClaims_request.

(** [showClaimDetails] up to [await fetch(`/api/claim/${claimId}`)]. *)
Definition showClaimDetails_request (claimId : string) : Js.Eff State unit :=
  Js.modify (set_requests
    (λ l, l ++ [{| path := "/api/claim/" +:+ claimId; query := ∅ |}])).

(** [displayClaimDetails(claim)] renders the record into [#claim-details]. *)
Definition displayClaimDetails (claim : ClaimDetails) : Js.Eff State unit :=
  Js.modify (set_claim_details claim).

(** [showClaimDetails] from the moment the response is there. *)
Definition showClaimDetails_response (response : Response ClaimDetails)
    : Js.Eff State unit :=
  Js.try_catch
    (match response with
     | Rejected => Js.throw (Js.TypeError "Failed to fetch")
     | Http _ _ NotJson => Js.throw (Js.SyntaxError "Unexpected token in JSON")
     | Http _ _ JsonNull =>
         Js.throw (Js.TypeError "Cannot read properties of null (reading 'error')")
     | Http _ _ (JsonObject claimDetails) =>
         if Js.truthy (details_error claimDetails)
         then Js.throw (Js.Error (Js.to_key (details_error claimDetails)))
         else
           displayClaimDetails claimDetails ;;;
           Js.modify (set_claim_modal_shown true)
     end)
    (λ _, showError "Failed to load claim details").

Definition showClaimDetails (claimId : string) (response : Response ClaimDetails)
    : Js.Eff State unit :=
  showClaimDetails_request claimId ;;; showClaimDetails_response response.

End FRAWebGIS.

(** ** LandUseMap *)

Module LandUseMap.

(** [this.layers] starts as [{water: null, forest: null, agriculture: null}];
    [None] is [null]. *)
Record State : Type := {
  map : gset nat;
  layers : gmap string (option Layer);
  next_stamp : nat
}.

Definition set_map (f : gset nat → gset nat) (s : State) : State :=
  {| map := f (map s); layers := layers s; next_stamp := next_stamp s |}.

Definition set_layers (f : gmap string (option Layer) → gmap string (option Layer))
    (s : State) : State :=
  {| map := map s; layers := f (layers s); next_stamp := next_stamp s |}.

Definition set_next_stamp (n : nat) (s : State) : State :=
  {| map := map s; layers := layers s; next_stamp := n |}.

Definition initial_layers : gmap string (option Layer) :=
  <["water" := None]> (<["forest" := None]> (<["agriculture" := None]> ∅)).

Definition classStyles : Js.object Style :=
  [ ("water", {| color := "#0066cc"; fillColor := "#0066cc"; fillOpacity := 70; weight := 2 |});
    ("forest", {| color := "#00aa00"; fillColor := "#00aa00"; fillOpacity := 70; weight := 2 |});
    ("agriculture", {| color := "#ffaa00"; fillColor := "#ffaa00"; fillOpacity := 70; weight := 2 |}) ].

(** The grouping object [processData] starts from. *)
Definition empty_buckets : Js.object (list Feature) :=
  [ ("water", []); ("forest", []); ("agriculture", []) ].

(** The body of the second [forEach] of [processData]; the style is
    [this.classStyles[className]], without a fallback. *)
Definition create_layer (entry : string * list Feature) : Js.Eff State unit :=
  let '(className, features) := entry in
  if 0 <? length features then
    s <- Js.get_state ;;
    let layer := {| stamp := next_stamp s; members := features;
                    style := Js.get className classStyles |} in
    Js.modify (λ s, set_next_stamp (S (next_stamp s))
                      (set_layers (<[className := Some layer]>) s))
  else Js.ret tt.

(** [Object.values(this.layers).forEach(layer => { if (layer)
    this.map.addLayer(layer); })]. *)
Definition showAllLayers : Js.Eff State unit :=
  Js.modify (λ s, set_map (λ m,
    foldl (λ m layer, match layer with
                      | Some l => Leaflet.addLayer m l
                      | None => m
                      end) m (map_to_list (layers s)).*2) s).

Definition hideAllLayers : Js.Eff State unit :=
  Js.modify (λ s, set_map (λ m,
    foldl (λ m layer, match layer with
                      | Some l => Leaflet.removeLayer m l
                      | None => m
                      end) m (map_to_list (layers s)).*2) s).

Definition processData (geojsonData : GeoJson) : Js.Eff State unit :=
  fs <- Js.lift (features_forEach (features geojsonData)) ;;
  featuresByClass <- Js.lift (group_loop group_known_step empty_buckets fs) ;;
  Js.for_each create_layer featuresByClass ;;;
  showAllLayers.

Definition showLayer (className : string) : Js.Eff State unit :=
  s <- Js.get_state ;;
  match layers s !! className with
  | Some (Some layer) =>
      if negb (Leaflet.hasLayer (map s) layer)
      then Js.modify (set_map (λ m, Leaflet.addLayer m layer))
      else Js.ret tt
  | _ => Js.ret tt
  end.

Definition hideLayer (className : string) : Js.Eff State unit :=
  s <- Js.get_state ;;
  match layers s !! className with
  | Some (Some layer) =>
      if Leaflet.hasLayer (map s) layer
      then Js.modify (set_map (λ m, Leaflet.removeLayer m layer))
      else Js.ret tt
  | _ => Js.ret tt
  end.

End LandUseMap.

(** ** Vocabulary of the properties *)

(** The features of [fs] whose category property has the key [k], in the
    order of [fs]. *)
Definition features_of_category (category : Feature → Js.value) (k : string)
    (fs : list Feature) : list Feature :=
  filter (λ f, Js.to_key (category f) = k) fs.

(** The bucket a classification of [fs] holds under [k]: none when no feature
    has that category. *)
Definition classify (category : Feature → Js.value) (fs : list Feature)
    (k : string) : option (list Feature) :=
  match features_of_category category k fs with
  | [] => None
  | b => Some b
  end.

(** No feature of [fs] has a category that names a member of
    [Object.prototype]. *)
Definition plain_categories (category : Feature → Js.value) (fs : list Feature) : Prop :=
  Forall (λ f, Js.inherited (Js.to_key (category f)) = false) fs.

(** The feature membership of the registered layers, by category. *)
Definition category_members (ls : gmap string Layer) : gmap string (list Feature) :=
  members <$> ls.

(** A response with status 200 whose payload has no [error] and carries the
    features [fs]. *)
Definition success (fs : list Feature) : Response GeoJson :=
  Http true 200 (JsonObject {| error := Js.Undefined; features := Features fs |}).

(** A string of white space only (space, tab, line feed, carriage return);
    the empty string is one. *)
Fixpoint blank (s : string) : bool :=
  match s with
  | EmptyString => true
  | String c s' =>
      existsb (Nat.eqb (Ascii.nat_of_ascii c)) [32; 9; 10; 13] && blank s'
  end.

(** The order in which the responses to two requests arrive. *)
Inductive Arrival : Type := InRequestOrder | Reversed.

(** Two reloads issued back to back with the filter snapshots [snapshot1]
    and [snapshot2] (each as [applyFilters] issues it: store the snapshot,
    start the fetch), whose responses then arrive in the given order. *)
Definition india_two_reloads (snapshot1 snapshot2 : gmap string string)
    (response1 response2 : Response GeoJson) (arrival : Arrival)
    : Js.Eff IndiaLandUseMap.State unit :=
  Js.modify (IndiaLandUseMap.set_currentFilters snapshot1) ;;;
  IndiaLandUseMap.loadData_request ;;;
  Js.modify (IndiaLandUseMap.set_currentFilters snapshot2) ;;;
  IndiaLandUseMap.loadData_request ;;;
  match arrival with
  | InRequestOrder =>
      IndiaLandUseMap.loadData_response response1 ;;;
      IndiaLandUseMap.loadData_response response2
  | Reversed =>
      IndiaLandUseMap.loadData_response response2 ;;;
      IndiaLandUseMap.loadData_response response1
  end.

Definition fra_two_reloads (snapshot1 snapshot2 : gmap string string)
    (response1 response2 : Response GeoJson) (arrival : Arrival)
    : Js.Eff FRAWebGIS.State unit :=
  Js.modify (FRAWebGIS.set_currentFilters snapshot1) ;;;
  FRAWebGIS.loadClaims_request ;;;
  Js.modify (FRAWebGIS.set_currentFilters snapshot2) ;;;
  FRAWebGIS.loadClaims_request ;;;
  match arrival with
  | InRequestOrder =>
      FRAWebGIS.loadClaims_response response1 ;;;
      FRAWebGIS.loadClaims_response response2
  | Reversed =>
      FRAWebGIS.loadClaims_response response2 ;;;
      FRAWebGIS.loadClaims_response response1
  end.

(** ** Sample data *)

(** A land-use feature of the class [c]. *)
Definition feature_of_class (c : string) : Feature :=
  {| geometry := "Polygon"; class := Js.Str c; class_id := Js.Str "1";
     fra_type := Js.Undefined; claim_id := Js.Undefined |}.

(** An FRA claim of the type [t] with the identifier [id]. *)
Definition claim_of_type (t id : string) : Feature :=
  {| geometry := "Polygon"; class := Js.Undefined; class_id := Js.Undefined;
     fra_type := Js.Str t; claim_id := Js.Str id |}.

(** A feature without any category property. *)
Definition feature_without_category : Feature :=
  {| geometry := "Polygon"; class := Js.Undefined; class_id := Js.Undefined;
     fra_type := Js.Undefined; claim_id := Js.Undefined |}.

Definition checkbox (is_checked : bool) : Element :=
  {| checked := is_checked; value := "on"; textContent := Plain "" |}.

Definition counter (n : nat) : Element :=
  {| checked := false; value := ""; textContent := Number n |}.

Definition input (v : string) : Element :=
  {| checked := false; value := v; textContent := Plain "" |}.

(** The fields as the constructors leave them, on a given page. *)
Definition india_constructed (page : gmap string Element) : IndiaLandUseMap.State :=
  {| IndiaLandUseMap.map := ∅; IndiaLandUseMap.layers := ∅;
     IndiaLandUseMap.currentFilters := ∅; IndiaLandUseMap.document := page;
     IndiaLandUseMap.requests := []; IndiaLandUseMap.shown_errors := [];
     IndiaLandUseMap.next_stamp := 0 |}.

Definition fra_constructed (page : gmap string Element) : FRAWebGIS.State :=
  {| FRAWebGIS.map := ∅; FRAWebGIS.layers := ∅;
     FRAWebGIS.currentFilters := ∅; FRAWebGIS.document := page;
     FRAWebGIS.claim_details := None; FRAWebGIS.claim_modal_shown := false;
     FRAWebGIS.requests := []; FRAWebGIS.shown_errors := [];
     FRAWebGIS.next_stamp := 0 |}.

Definition landuse_constructed : LandUseMap.State :=
  {| LandUseMap.map := ∅; LandUseMap.layers := LandUseMap.initial_layers;
     LandUseMap.next_stamp := 0 |}.

(** A page of the India script with layer controls for three classes. *)
Definition india_page : gmap string Element :=
  <["feature-count" := counter 0]>
  (<["layer-water" := checkbox true]> (<["count-water" := counter 0]>
  (<["layer-forest_dense" := checkbox true]> (<["count-forest_dense" := counter 0]>
  (<["layer-urban" := checkbox false]> (<["count-urban" := counter 0]> ∅)))))).

(** The page of the FRA script: the three layer check boxes, the filter
    inputs with the given values, the feature count. *)
Definition fra_page (state district status : string) : gmap string Element :=
  <["feature-count" := counter 0]>
  (<["layer-ifr" := checkbox true]> (<["layer-cfr" := checkbox true]>
  (<["layer-cr" := checkbox false]>
  (<["state-filter" := input state]> (<["district-filter" := input district]>
  (<["village-filter" := input ""]> (<["fra-type-filter" := input ""]>
  (<["status-filter" := input status]> (<["tribal-filter" := input ""]>
  (<["area-min" := input ""]> (<["area-max" := input ""]> ∅))))))))))).

(** The layers registered under different categories are different layer
    objects. *)
Definition distinct_stamps (ls : gmap string Layer) : Prop :=
  ∀ k k' l l', ls !! k = Some l → ls !! k' = Some l' → stamp l = stamp l' → k = k'.

(** Every registered layer was built before the stamp [n] is handed out. *)
Definition stamps_below (n : nat) (ls : gmap string Layer) : Prop :=
  ∀ k l, ls !! k = Some l → stamp l < n.

(** ** Further vocabulary *)

From stdpp Require Import sorting.

(** No own property of the grouping object has a name inherited from
    [Object.prototype]. *)
Definition no_inherited_own (featuresByClass : Js.object (list Feature)) : Prop :=
  ∀ k, Js.inherited k = true → Js.get k featuresByClass = None.

(** The three fields a reload works on: the stamps attached to the map, the
    registered layers, the next stamp. *)
Record Registry : Type := {
  attached : gset nat;
  registered : gmap string Layer;
  next : nat
}.

Definition india_registry (s : IndiaLandUseMap.State) : Registry :=
  {| attached := IndiaLandUseMap.map s; registered := IndiaLandUseMap.layers s;
     next := IndiaLandUseMap.next_stamp s |}.

Definition fra_registry (s : FRAWebGIS.State) : Registry :=
  {| attached := FRAWebGIS.map s; registered := FRAWebGIS.layers s;
     next := FRAWebGIS.next_stamp s |}.

(** Every stamp in use (of a registered layer, or attached to the map) has
    been handed out already. *)
Definition well_stamped (r : Registry) : Prop :=
  stamps_below (next r) (registered r) ∧ ∀ n, n ∈ attached r → n < next r.

(** [document.getElementById(id)] exists and is checked. *)
Definition box_checked (d : gmap string Element) (id : string) : bool :=
  match d !! id with
  | Some el => checked el
  | None => false
  end.

(** One pass of the layer loop of [processData] / [processClaimsData], as
    far as the three fields go: the bucket, the style resolved for it, and
    whether its check box is checked. *)
Record Entry : Type := {
  entry_key : string;
  entry_members : list Feature;
  entry_style : option Style;
  entry_attach : bool
}.

Definition register (r : Registry) (e : Entry) : Registry :=
  if 0 <? length (entry_members e) then
    let layer := {| stamp := next r; members := entry_members e;
                    style := entry_style e |} in
    {| attached := if entry_attach e then Leaflet.addLayer (attached r) layer
                   else attached r;
       registered := <[entry_key e := layer]> (registered r);
       next := S (next r) |}
  else r.

Definition india_entry (d : gmap string Element) (bucket : string * list Feature) : Entry :=
  {| entry_key := bucket.1; entry_members := bucket.2;
     entry_style := IndiaLandUseMap.style_of bucket.1;
     entry_attach := box_checked d ("layer-" +:+ bucket.1) |}.

Definition fra_entry (d : gmap string Element) (bucket : string * list Feature) : Entry :=
  {| entry_key := bucket.1; entry_members := bucket.2;
     entry_style := FRAWebGIS.style_of bucket.1;
     entry_attach := box_checked d ("layer-" +:+ FRAWebGIS.toLowerCase bucket.1) |}.

(** Every stamp on the map is the stamp of a registered layer. *)
Definition attached_are_registered (r : Registry) : Prop :=
  ∀ n, n ∈ attached r → ∃ k l, registered r !! k = Some l ∧ stamp l = n.

Definition set_checked (b : bool) (e : Element) : Element :=
  {| checked := b; value := value e; textContent := textContent e |}.

(** What can happen to a script once it is constructed: a filter snapshot is
    stored and a reload started, a response to a reload arrives, the user
    sets the check box of a layer. *)
Inductive Event : Type :=
| StartReload (snapshot : gmap string string)
| ReloadResponse (response : Response GeoJson)
| ToggleLayer (category : string) (visible : bool).

(** The change listener [loadLayers] puts on the layer item of [key]:
<<
    layerItem.addEventListener('change', (e) => {
        this.toggleLayer(key, e.target.checked);
    });
>>
    The browser has set [checked] on the box [layer-<key>] when the listener
    runs; without that box there is nothing to click. *)
Definition india_on_change (key : string) (visible : bool)
    : Js.Eff IndiaLandUseMap.State unit :=
  s <- Js.get_state ;;
  match IndiaLandUseMap.document s !! ("layer-" +:+ key) with
  | Some box =>
      Js.modify (IndiaLandUseMap.set_document
                   (<["layer-" +:+ key := set_checked visible box]>)) ;;;
      IndiaLandUseMap.toggleLayer key visible
  | None => Js.ret tt
  end.

(** The change listeners of [setupEventListeners] on [layer-ifr],
    [layer-cfr] and [layer-cr], which toggle IFR, CFR and CR. *)
Definition fra_on_change (fraType : string) (visible : bool)
    : Js.Eff FRAWebGIS.State unit :=
  s <- Js.get_state ;;
  if bool_decide (fraType ∈ ["IFR"; "CFR"; "CR"]) then
    match FRAWebGIS.document s !! ("layer-" +:+ FRAWebGIS.toLowerCase fraType) with
    | Some box =>
        Js.modify (FRAWebGIS.set_document
                     (<["layer-" +:+ FRAWebGIS.toLowerCase fraType
                        := set_checked visible box]>)) ;;;
        FRAWebGIS.toggleLayer fraType visible
    | None => Js.ret tt
    end
  else Js.ret tt.

Definition india_handle (ev : Event) : Js.Eff IndiaLandUseMap.State unit :=
  match ev with
  | StartReload snapshot =>
      Js.modify (IndiaLandUseMap.set_currentFilters snapshot) ;;;
      IndiaLandUseMap.loadData_request
  | ReloadResponse response => IndiaLandUseMap.loadData_response response
  | ToggleLayer category visible => india_on_change category visible
  end.

Definition fra_handle (ev : Event) : Js.Eff FRAWebGIS.State unit :=
  match ev with
  | StartReload snapshot =>
      Js.modify (FRAWebGIS.set_currentFilters snapshot) ;;;
      FRAWebGIS.loadClaims_request
  | ReloadResponse response => FRAWebGIS.loadClaims_response response
  | ToggleLayer category visible => fra_on_change category visible
  end.

(** The state after a history of events, each handler run to completion. *)
Definition india_run (history : list Event) (s : IndiaLandUseMap.State)
    : IndiaLandUseMap.State :=
  foldl (λ s ev, Js.exec (india_handle ev) s) s history.

Definition fra_run (history : list Event) (s : FRAWebGIS.State) : FRAWebGIS.State :=
  foldl (λ s ev, Js.exec (fra_handle ev) s) s history.

(** What the histories keep true: the stamps in use are handed out, the map
    holds registered layers only, different categories have different
    layers, and a registered layer is on the map exactly when the check box
    of its category is checked. *)
Definition india_consistent (s : IndiaLandUseMap.State) : Prop :=
  well_stamped (india_registry s)
  ∧ attached_are_registered (india_registry s)
  ∧ distinct_stamps (IndiaLandUseMap.layers s)
  ∧ ∀ k l, IndiaLandUseMap.layers s !! k = Some l →
           (stamp l ∈ IndiaLandUseMap.map s
            ↔ box_checked (IndiaLandUseMap.document s) ("layer-" +:+ k) = true).

Definition fra_consistent (s : FRAWebGIS.State) : Prop :=
  well_stamped (fra_registry s)
  ∧ attached_are_registered (fra_registry s)
  ∧ distinct_stamps (FRAWebGIS.layers s)
  ∧ ∀ k l, k ∈ ["IFR"; "CFR"; "CR"] → FRAWebGIS.layers s !! k = Some l →
           (stamp l ∈ FRAWebGIS.map s
            ↔ box_checked (FRAWebGIS.document s)
                ("layer-" +:+ FRAWebGIS.toLowerCase k) = true).


(** ** The filter forms and the export *)

Definition set_value (v : string) (e : Element) : Element :=
  {| checked := checked e; value := v; textContent := textContent e |}.

Module FRAWebGISForm.
Import FRAWebGIS.

(** [document.getElementById(id).value = v]. *)
Definition set_input_value (id v : string) : Js.Eff State unit :=
  s <- Js.get_state ;;
  match document s !! id with
  | Some el => Js.modify (set_document (<[id := set_value v el]>))
  | None => Js.throw (Js.TypeError "Cannot set properties of null (setting 'value')")
  end.

(** [clearFilters], up to the fetch of the [loadClaims] it starts. *)
Definition clearFilters : Js.Eff State unit :=
  set_input_value "state-filter" "" ;;;
  set_input_value "district-filter" "" ;;;
  set_input_value "village-filter" "" ;;;
  set_input_value "fra-type-filter" "" ;;;
  set_input_value "status-filter" "" ;;;
  set_input_value "tribal-filter" "" ;;;
  set_input_value "area-min" "" ;;;
  set_input_value "area-max" "" ;;;
  Js.modify (set_currentFilters ∅) ;;;
  loadClaims_request.

(** [exportData] up to [await fetch(`/api/export?${params}`)]. *)
Definition exportData_request : Js.Eff State unit :=
  Js.modify (λ s, set_requests
    (λ l, l ++ [{| path := "/api/export"; query := currentFilters s |}]) s).

(** The query names of [applyFilters] and the inputs they are read from. *)
Definition filter_fields : list (string * string) :=
  [ ("state", "state-filter"); ("district", "district-filter");
    ("village", "village-filter"); ("fra_type", "fra-type-filter");
    ("status", "status-filter"); ("tribal_community", "tribal-filter");
    ("claim_area_min", "area-min"); ("claim_area_max", "area-max") ].

End FRAWebGISForm.

Module IndiaLandUseMapForm.
Import IndiaLandUseMap.

Definition input_value (id : string) : Js.Eff State string :=
  s <- Js.get_state ;;
  match document s !! id with
  | Some el => Js.ret (value el)
  | None => Js.throw (Js.TypeError "Cannot read properties of null (reading 'value')")
  end.

Definition set_input_value (id v : string) : Js.Eff State unit :=
  s <- Js.get_state ;;
  match document s !! id with
  | Some el => Js.modify (set_document (<[id := set_value v el]>))
  | None => Js.throw (Js.TypeError "Cannot set properties of null (setting 'value')")
  end.

(** [applyFilters], up to the fetch of the [loadData] it starts. *)
Definition applyFilters : Js.Eff State unit :=
  state <- input_value "state-filter" ;;
  district <- input_value "district-filter" ;;
  village <- input_value "village-filter" ;;
  tribal_group <- input_value "tribal-filter" ;;
  class <- input_value "class-filter" ;;
  fra_type <- input_value "fra-type-filter" ;;
  claim_status <- input_value "status-filter" ;;
  Js.modify (set_currentFilters
    (<["state" := state]> (<["district" := district]> (<["village" := village]>
     (<["tribal_group" := tribal_group]> (<["class" := class]>
      (<["fra_type" := fra_type]> (<["claim_status" := claim_status]> ∅)))))))) ;;;
  Js.modify (λ s, set_currentFilters
                    (FRAWebGIS.remove_empty_filters (currentFilters s)) s) ;;;
  loadData_request.

(** [clearFilters], up to the fetch of the [loadData] it starts. *)
Definition clearFilters : Js.Eff State unit :=
  set_input_value "state-filter" "" ;;;
  set_input_value "district-filter" "" ;;;
  set_input_value "village-filter" "" ;;;
  set_input_value "tribal-filter" "" ;;;
  set_input_value "class-filter" "" ;;;
  set_input_value "fra-type-filter" "" ;;;
  set_input_value "status-filter" "" ;;;
  Js.modify (set_currentFilters ∅) ;;;
  loadData_request.

(** [exportData] up to [await fetch(`/api/export?${params}`)]. *)
Definition exportData_request : Js.Eff State unit :=
  Js.modify (λ s, set_requests
    (λ l, l ++ [{| path := "/api/export"; query := currentFilters s |}]) s).

Definition filter_fields : list (string * string) :=
  [ ("state", "state-filter"); ("district", "district-filter");
    ("village", "village-filter"); ("tribal_group", "tribal-filter");
    ("class", "class-filter"); ("fra_type", "fra-type-filter");
    ("claim_status", "status-filter") ].

End IndiaLandUseMapForm.

(** The inputs of a form are all on the page. *)
Definition inputs_present (fields : list (string * string))
    (d : gmap string Element) : Prop :=
  Forall (λ id, is_Some (d !! id)) fields.*2.

(** The entry of the snapshot for a query name: the value of the input the
    name is read from, unless that is the empty string. *)
Definition snapshot_entry (fields : list (string * string))
    (d : gmap string Element) (name : string) : option string :=
  match Js.get name fields with
  | Some id =>
      match d !! id with
      | Some el => if Js.truthy (Js.Str (value el)) then Some (value el) else None
      | None => None
      end
  | None => None
  end.

(** The page of the India script with its seven filter inputs. *)
Definition india_form_page (state tribal status : string) : gmap string Element :=
  <["state-filter" := input state]> (<["district-filter" := input ""]>
  (<["village-filter" := input ""]> (<["tribal-filter" := input tribal]>
  (<["class-filter" := input ""]> (<["fra-type-filter" := input ""]>
  (<["status-filter" := input status]> india_page)))))).

(** ** LandUseMap: the status line and loading the data *)

Module LandUseMapPage.

(** What [loadData] writes into the status element. *)
Inductive StatusText : Type :=
| Literal (s : string)
| Loaded (count : nat)
| Failure (message : string).

(** The status element: its [textContent] and its [className]. *)
Record StatusLine : Type := {
  text : StatusText;
  className : string
}.

(** The answer of [/status], as far as it is read: the truth value of
    [data_available]. *)
Record StatusJson : Type := {
  data_available : bool
}.

(** The map and the layers of the script, the status element ([None] when
    the page has none), the addresses fetched, and what went to
    [console.error]. *)
Record State : Type := {
  widget : LandUseMap.State;
  status : option StatusLine;
  requests : list string;
  console : list Js.exn
}.

Definition set_widget (w : LandUseMap.State) (s : State) : State :=
  {| widget := w; status := status s; requests := requests s; console := console s |}.

Definition set_status (l : StatusLine) (s : State) : State :=
  {| widget := widget s; status := Some l; requests := requests s;
     console := console s |}.

Definition set_requests (f : list string → list string) (s : State) : State :=
  {| widget := widget s; status := status s; requests := f (requests s);
     console := console s |}.

Definition set_console (f : list Js.exn → list Js.exn) (s : State) : State :=
  {| widget := widget s; status := status s; requests := requests s;
     console := f (console s) |}.

(** A method of the script run on the fields it works on. *)
Definition on_widget {A} (m : Js.Eff LandUseMap.State A) : Js.Eff State A :=
  λ s, let '(r, w) := m (widget s) in (r, set_widget w s).

(** [await fetch(url)] followed by [await response.json()]. *)
Definition fetch_json {A} (url : string) (response : Response A)
    : Js.Eff State (option A) :=
  Js.modify (set_requests (λ l, l ++ [url])) ;;;
  match response with
  | Rejected => Js.throw (Js.TypeError "Failed to fetch")
  | Http _ _ NotJson => Js.throw (Js.SyntaxError "Unexpected token in JSON")
  | Http _ _ JsonNull => Js.ret None
  | Http _ _ (JsonObject o) => Js.ret (Some o)
  end.

(** [data.features.length], read once [processData] has returned. *)
Definition features_length (field : FeaturesField) : Js.Eff State nat :=
  match field with
  | Features fs => Js.ret (length fs)
  | _ => Js.throw (Js.TypeError "Cannot read properties of undefined (reading 'length')")
  end.

Definition write_status (t : StatusText) (c : string) : Js.Eff State unit :=
  Js.modify (set_status {| text := t; className := c |}).

(** [loadData], given what the two fetches answer. The status element is
    looked up and written to before the [try]. *)
Definition loadData (statusResponse : Response StatusJson)
    (response : Response GeoJson) : Js.Eff State unit :=
  s <- Js.get_state ;;
  match status s with
  | None => Js.throw (Js.TypeError "Cannot set properties of null (setting 'textContent')")
  | Some _ =>
      write_status (Literal "Loading data...") "status loading" ;;;
      Js.try_catch
        (status <- fetch_json "/status" statusResponse ;;
         match status with
         | None =>
             Js.throw (Js.TypeError
               "Cannot read properties of null (reading 'data_available')")
         | Some status =>
             if negb (data_available status) then
               Js.throw (Js.Error
                 "No classified data available. Please run the classification script first.")
             else
               data <- fetch_json "/data" response ;;
               match data with
               | None =>
                   Js.throw (Js.TypeError
                     "Cannot read properties of null (reading 'error')")
               | Some data =>
                   if Js.truthy (error data)
                   then Js.throw (Js.Error (Js.to_key (error data)))
                   else
                     on_widget (LandUseMap.processData data) ;;;
                     n <- features_length (features data) ;;
                     write_status (Loaded n) "status success"
               end
         end)
        (λ error,
           Js.modify (set_console (λ l, l ++ [error])) ;;;
           write_status (Failure (Js.message error)) "status error")
  end.

(** The [change] listener of the main toggle. *)
Definition on_layer_toggle (checked : bool) : Js.Eff State unit :=
  on_widget (if checked then LandUseMap.showAllLayers else LandUseMap.hideAllLayers).

(** The [change] listener of the toggle of one class. *)
Definition on_class_toggle (className : string) (checked : bool) : Js.Eff State unit :=
  on_widget (if checked then LandUseMap.showLayer className
             else LandUseMap.hideLayer className).

End LandUseMapPage.

(** The page of the first script as the constructor leaves it, with its
    status element. *)
Definition landuse_page_constructed : LandUseMapPage.State :=
  {| LandUseMapPage.widget := landuse_constructed;
     LandUseMapPage.status :=
       Some {| LandUseMapPage.text := LandUseMapPage.Literal "";
               LandUseMapPage.className := "status" |};
     LandUseMapPage.requests := []; LandUseMapPage.console := [] |}.

(** A [change] event of the main toggle or of the toggle of one class. *)
Inductive Toggle : Type :=
| AllLayers (checked : bool)
| ClassLayer (className : string) (checked : bool).

Definition landuse_on_toggle (t : Toggle) : Js.Eff LandUseMapPage.State unit :=
  match t with
  | AllLayers checked => LandUseMapPage.on_layer_toggle checked
  | ClassLayer className checked => LandUseMapPage.on_class_toggle className checked
  end.

Definition landuse_toggles (ts : list Toggle) (s : LandUseMapPage.State)
    : LandUseMapPage.State :=
  foldl (λ s t, Js.exec (landuse_on_toggle t) s) s ts.

(** A session of the first script: the constructor starts the one
    [loadData] there is; toggles may be used while its fetches are pending
    ([before]), they work on the map and the layers only, which [loadData]
    does not touch until [processData]; then the answers arrive, and more
    toggles follow. *)
Definition landuse_session (before : list Toggle)
    (statusResponse : Response LandUseMapPage.StatusJson)
    (response : Response GeoJson) (after : list Toggle) : LandUseMapPage.State :=
  landuse_toggles after
    (Js.exec (LandUseMapPage.loadData statusResponse response)
       (landuse_toggles before landuse_page_constructed)).

(** No class has a layer yet. *)
Definition no_layer_yet (s : LandUseMap.State) : Prop :=
  ∀ k l, LandUseMap.layers s !! k ≠ Some (Some l).

(** Every layer on the map is a registered one. *)
Definition shows_registered_only (s : LandUseMap.State) : Prop :=
  ∀ n, n ∈ LandUseMap.map s →
    ∃ k l, LandUseMap.layers s !! k = Some (Some l) ∧ stamp l = n.

(** ** The filter drop-downs *)

(** [populateSelect] and [loadFilterOptions] are the same in the India
    script and in the FRA script, up to the selects filled in. *)
Module FilterOptions.

(** A child node of a select: text between the tags, or an option with its
    [value] and [textContent]. *)
Inductive Node : Type :=
| TextNode (data : string)
| OptionNode (option_value option_text : string).

Definition is_element (n : Node) : bool :=
  match n with
  | OptionNode _ _ => true
  | TextNode _ => false
  end.

(** [select.children]: the element children among the child nodes. *)
Definition children (nodes : list Node) : list Node :=
  filter (λ n, is_element n) nodes.

(** [while (select.children.length > 1) select.removeChild(select.lastChild)],
    on the child nodes last to first. *)
Fixpoint remove_last_children (reversed : list Node) : list Node :=
  match reversed with
  | [] => []
  | lastChild :: rest =>
      if 1 <? length (children reversed)
      then remove_last_children rest
      else reversed
  end.

Definition clear_options (nodes : list Node) : list Node :=
  rev (remove_last_children (rev nodes)).

(** [options.forEach(option => { ...; select.appendChild(optionElement) })]. *)
Definition append_options (nodes : list Node) (options : list string) : list Node :=
  foldl (λ nodes option, nodes ++ [OptionNode option option]) nodes options.

(** A property of the answer of [/api/filter-options]: missing (or any
    other falsy value), a truthy value that is not an array, or an array of
    strings. *)
Inductive OptionList : Type :=
| Absent
| NotAnArray
| Items (options : list string).

Record FilterOptionsJson : Type := {
  states : OptionList;
  districts : OptionList;
  villages : OptionList;
  tribal_communities : OptionList;
  classes : OptionList;
  fra_types : OptionList;
  claim_statuses : OptionList
}.

(** The child nodes of the selects of the page, by id, and what went to
    [console.error]. *)
Record State : Type := {
  selects : gmap string (list Node);
  console : list Js.exn
}.

Definition set_selects (f : gmap string (list Node) → gmap string (list Node))
    (s : State) : State :=
  {| selects := f (selects s); console := console s |}.

Definition set_console (f : list Js.exn → list Js.exn) (s : State) : State :=
  {| selects := selects s; console := f (console s) |}.

Definition populateSelect (selectId : string) (options : OptionList)
    : Js.Eff State unit :=
  s <- Js.get_state ;;
  match selects s !! selectId, options with
  | None, _ => Js.ret tt
  | Some _, Absent => Js.ret tt
  | Some nodes, NotAnArray =>
      Js.modify (set_selects (<[selectId := clear_options nodes]>)) ;;;
      Js.throw (Js.TypeError "options.forEach is not a function")
  | Some nodes, Items options =>
      Js.modify (set_selects
        (<[selectId := append_options (clear_options nodes) options]>))
  end.

(** [await fetch('/api/filter-options')] and [await response.json()]. *)
Definition read_options (response : Response FilterOptionsJson)
    : Js.Eff State FilterOptionsJson :=
  match response with
  | Rejected => Js.throw (Js.TypeError "Failed to fetch")
  | Http _ _ NotJson => Js.throw (Js.SyntaxError "Unexpected token in JSON")
  | Http _ _ JsonNull =>
      Js.throw (Js.TypeError "Cannot read properties of null (reading 'states')")
  | Http _ _ (JsonObject options) => Js.ret options
  end.

Definition console_error (error : Js.exn) : Js.Eff State unit :=
  Js.modify (set_console (λ l, l ++ [error])).

(** [loadFilterOptions] of the India script. *)
Definition india_loadFilterOptions (response : Response FilterOptionsJson)
    : Js.Eff State unit :=
  Js.try_catch
    (options <- read_options response ;;
     populateSelect "state-filter" (states options) ;;;
     populateSelect "district-filter" (districts options) ;;;
     populateSelect "village-filter" (villages options) ;;;
     populateSelect "tribal-filter" (tribal_communities options) ;;;
     populateSelect "class-filter" (classes options) ;;;
     populateSelect "fra-type-filter" (fra_types options) ;;;
     populateSelect "status-filter" (claim_statuses options))
    console_error.

(** [loadFilterOptions] of the FRA script. *)
Definition fra_loadFilterOptions (response : Response FilterOptionsJson)
    : Js.Eff State unit :=
  Js.try_catch
    (options <- read_options response ;;
     populateSelect "state-filter" (states options) ;;;
     populateSelect "district-filter" (districts options) ;;;
     populateSelect "village-filter" (villages options) ;;;
     populateSelect "tribal-filter" (tribal_communities options))
    console_error.

(** The options a list of strings turns into. *)
Definition option_nodes (options : list string) : list Node :=
  (λ option, OptionNode option option) <$> options.

End FilterOptions.

(** A select as the pages write it: a placeholder option between line
    breaks. *)
Definition select_with_placeholder (label : string) : list FilterOptions.Node :=
  [FilterOptions.TextNode " "; FilterOptions.OptionNode "" label;
   FilterOptions.TextNode " "].

Definition fra_selects : FilterOptions.State :=
  {| FilterOptions.selects :=
       <["state-filter" := select_with_placeholder "All States"]>
       (<["district-filter" := select_with_placeholder "All Districts"]>
       (<["village-filter" := select_with_placeholder "All Villages"]>
       (<["tribal-filter" := select_with_placeholder "All Communities"]> ∅)));
     FilterOptions.console := [] |}.

(** The selects [loadFilterOptions] fills, each with the property of the
    answer it is filled from, in the order of the calls. *)
Definition fra_option_fields
    : list (string * (FilterOptions.FilterOptionsJson → FilterOptions.OptionList)) :=
  [ ("state-filter", FilterOptions.states);
    ("district-filter", FilterOptions.districts);
    ("village-filter", FilterOptions.villages);
    ("tribal-filter", FilterOptions.tribal_communities) ].

Definition india_option_fields
    : list (string * (FilterOptions.FilterOptionsJson → FilterOptions.OptionList)) :=
  [ ("state-filter", FilterOptions.states);
    ("district-filter", FilterOptions.districts);
    ("village-filter", FilterOptions.villages);
    ("tribal-filter", FilterOptions.tribal_communities);
    ("class-filter", FilterOptions.classes);
    ("fra-type-filter", FilterOptions.fra_types);
    ("status-filter", FilterOptions.claim_statuses) ].

(** None of the properties read is a truthy value without [forEach]. *)
Definition lists_usable
    (fields : list (string * (FilterOptions.FilterOptionsJson → FilterOptions.OptionList)))
    (options : FilterOptions.FilterOptionsJson) : Prop :=
  Forall (λ entry, entry.2 options ≠ FilterOptions.NotAnArray) fields.

(** What a select holds once it was filled from a property. *)
Definition filled_from (before : list FilterOptions.Node)
    (options : FilterOptions.OptionList) (after : list FilterOptions.Node) : Prop :=
  match options with
  | FilterOptions.Items l =>
      FilterOptions.children after
      = take 1 (FilterOptions.children before) ++ FilterOptions.option_nodes l
  | _ => after = before
  end.

(** ** FRAWebGIS: the chart of claims by state *)

Module FRAWebGISCharts.

(** What [new Chart(ctx, ...)] is given: the chart type, the labels and the
    numbers of the one dataset. *)
Record Chart : Type := {
  chart_type : string;
  labels : list string;
  dataset : list nat
}.

(** [Array.prototype.sort] with the comparator [([,a], [,b]) => b - a]. The
    sort is stable and the comparator is an order on the counts, so the
    result is the one that insertion from the right gives: larger counts
    first, entries of the same count in the order they had. *)
Fixpoint insert_by_count (entry : string * nat) (sorted : list (string * nat))
    : list (string * nat) :=
  match sorted with
  | [] => [entry]
  | next :: rest =>
      if next.2 <=? entry.2 then entry :: sorted
      else next :: insert_by_count entry rest
  end.

Definition sort_by_count (entries : list (string * nat)) : list (string * nat) :=
  foldr insert_by_count [] entries.

(** [createStateChart(data)]; [canvas] tells whether the page has the
    element [state-chart]. *)
Definition createStateChart (canvas : bool) (data : Js.object nat) : Js.result Chart :=
  if canvas then
    let sortedData := take 10 (sort_by_count data) in
    Js.Ok {| chart_type := "bar"; labels := sortedData.*1;
             dataset := sortedData.*2 |}
  else Js.Throw (Js.TypeError "Cannot read properties of null (reading 'getContext')").

End FRAWebGISCharts.

(** * Properties *)

(** ** Objects and the monad *)

Section object_facts.
Context {A : Type}.
Implicit Types (o : Js.object A) (k : string) (a : A).

Lemma get_cons k k' a o :
  Js.get k ((k', a) :: o) = if decide (k = k') then Some a else Js.get k o.
Proof.
  simpl. destruct (String.eqb_spec k k'); case_decide; congruence.
Qed.

Lemma get_set k k' a o :
  Js.get k (Js.set k' a o) = if decide (k = k') then Some a else Js.get k o.
Proof.
  induction o as [|[k0 a0] o IH]; simpl.
  - destruct (String.eqb_spec k k'); case_decide; congruence.
  - destruct (String.eqb_spec k' k0) as [->|Hne]; simpl.
    + destruct (String.eqb_spec k k0); case_decide; congruence.
    + destruct (String.eqb_spec k k0) as [->|Hne'].
      * case_decide; congruence.
      * apply IH.
Qed.

Lemma get_None_keys k o : Js.get k o = None ↔ k ∉ o.*1.
Proof.
  induction o as [|[k0 a0] o IH]; simpl.
  - split; [intros _; apply not_elem_of_nil | done].
  - rewrite not_elem_of_cons. destruct (String.eqb_spec k k0) as [->|Hne].
    + split; [done | intros [? _]; done].
    + rewrite IH. tauto.
Qed.

Lemma set_keys k a o :
  (Js.set k a o).*1 = if Js.get k o is Some _ then o.*1 else o.*1 ++ [k].
Proof.
  induction o as [|[k0 a0] o IH]; csimpl; [done|].
  destruct (String.eqb_spec k k0) as [->|Hne]; csimpl; [done|].
  rewrite IH. by destruct (Js.get k o).
Qed.

Lemma set_NoDup k a o : NoDup o.*1 → NoDup (Js.set k a o).*1.
Proof.
  intros Hnd. rewrite set_keys. destruct (Js.get k o) eqn:Hget; [done|].
  apply NoDup_app. split_and!; [done| |apply NoDup_singleton].
  intros x Hx ->%list_elem_of_singleton. by apply get_None_keys in Hget.
Qed.

Lemma get_Some_elem_of k a o :
  NoDup o.*1 → Js.get k o = Some a ↔ (k, a) ∈ o.
Proof.
  induction o as [|[k0 a0] o IH]; simpl; intros Hnd.
  - split; [done | by intros ?%elem_of_nil].
  - apply NoDup_cons in Hnd as [Hk0 Hnd]. rewrite elem_of_cons.
    destruct (String.eqb_spec k k0) as [->|Hne].
    + split; [intros [= ->]; by left|].
      intros [[= ->]|Hin]; [done|].
      exfalso. apply Hk0. apply list_elem_of_fmap. by exists (k0, a).
    + rewrite IH by done. split; [by right|]. intros [[= ? ?]|?]; done.
Qed.

End object_facts.

Section eff_facts.
Context {S A : Type}.
Implicit Types (body : A → Js.Eff S unit) (s : S).

Lemma for_each_ok body xs s :
  (∀ x s, (body x s).1 = Js.Ok tt) → (Js.for_each body xs s).1 = Js.Ok tt.
Proof.
  intros Hbody. revert s. induction xs as [|x xs IH]; intros s; [done|].
  simpl. unfold Js.bind. specialize (Hbody x s).
  destruct (body x s) as [[[]|e] s']; simpl in *; [apply IH | congruence].
Qed.

Lemma for_each_exec_cons body x xs s :
  (body x s).1 = Js.Ok tt →
  Js.exec (Js.for_each body (x :: xs)) s
  = Js.exec (Js.for_each body xs) (Js.exec (body x) s).
Proof.
  unfold Js.exec. simpl. unfold Js.bind.
  destruct (body x s) as [[[]|e] s']; simpl; [done | congruence].
Qed.

Lemma exec_bind {B} (m : Js.Eff S A) (f : A → Js.Eff S B) a s :
  (m s).1 = Js.Ok a → Js.exec (Js.bind m f) s = Js.exec (f a) (Js.exec m s).
Proof.
  unfold Js.exec, Js.bind. destruct (m s) as [[a'|e] s']; simpl; congruence.
Qed.

Lemma bind_ok {B} (m : Js.Eff S A) (f : A → Js.Eff S B) a b s :
  (m s).1 = Js.Ok a → (f a (Js.exec m s)).1 = Js.Ok b →
  (Js.bind m f s).1 = Js.Ok b.
Proof.
  unfold Js.exec, Js.bind. destruct (m s) as [[a'|e] s']; simpl; congruence.
Qed.

Lemma try_catch_ok (m : Js.Eff S unit) (h : Js.exn → Js.Eff S unit) s :
  (∀ e s, (h e s).1 = Js.Ok tt) → (Js.try_catch m h s).1 = Js.Ok tt.
Proof.
  intros Hh. unfold Js.try_catch. destruct (m s) as [[[]|e] s']; [done|apply Hh].
Qed.

End eff_facts.

(** ** Grouping *)

Section grouping_facts.
Implicit Types (category : Feature → Js.value) (fs : list Feature)
  (acc : Js.object (list Feature)) (f : Feature) (k : string).

Lemma features_of_category_cons category k f fs :
  features_of_category category k (f :: fs)
  = if decide (Js.to_key (category f) = k)
    then f :: features_of_category category k fs
    else features_of_category category k fs.
Proof. unfold features_of_category. by rewrite filter_cons. Qed.

Lemma group_step_spec category acc f :
  Js.inherited (Js.to_key (category f)) = false →
  ∃ acc', group_step category acc f = Js.Ok acc'
    ∧ (NoDup acc.*1 → NoDup acc'.*1)
    ∧ ∀ k, Js.get k acc'
           = if decide (k = Js.to_key (category f))
             then Some (default [] (Js.get k acc) ++ [f])
             else Js.get k acc.
Proof.
  intros Hplain. unfold group_step, Js.has_truthy.
  destruct (Js.get (Js.to_key (category f)) acc) as [b|] eqn:Hget; simpl.
  - rewrite Hget. eexists. split_and!; [done|apply set_NoDup|].
    intros k. rewrite get_set. case_decide; by subst; rewrite ?Hget.
  - rewrite Hplain. simpl. rewrite get_set, decide_True by done.
    eexists. split_and!; [done|intros; by do 2 apply set_NoDup|].
    intros k. rewrite !get_set. case_decide; by subst; rewrite ?Hget.
Qed.

Lemma group_loop_spec category fs : ∀ acc,
  plain_categories category fs →
  ∃ acc', group_loop (group_step category) acc fs = Js.Ok acc'
    ∧ (NoDup acc.*1 → NoDup acc'.*1)
    ∧ ∀ k, Js.get k acc'
           = match Js.get k acc with
             | Some b => Some (b ++ features_of_category category k fs)
             | None => classify category fs k
             end.
Proof.
  unfold plain_categories, classify.
  induction fs as [|f fs IH]; intros acc Hplain; simpl.
  - exists acc. split_and!; [done..|]. intros k.
    destruct (Js.get k acc); by rewrite ?app_nil_r.
  - apply Forall_cons in Hplain as [Hf Hfs].
    destruct (group_step_spec category acc f Hf) as (acc1 & -> & Hnd1 & Hget1).
    destruct (IH acc1 Hfs) as (acc' & -> & Hnd' & Hget').
    exists acc'. split_and!; [done|by auto|].
    intros k. rewrite Hget', Hget1, features_of_category_cons.
    destruct (decide (k = Js.to_key (category f))) as [->|Hne].
    + rewrite decide_True by done.
      destruct (Js.get (Js.to_key (category f)) acc); simpl;
        by rewrite <-?app_assoc.
    + rewrite decide_False by done. done.
Qed.

Lemma group_known_loop_spec fs : ∀ w fo ag : list Feature,
  plain_categories class fs →
  group_loop group_known_step
    [("water", w); ("forest", fo); ("agriculture", ag)] fs
  = Js.Ok [("water", w ++ features_of_category class "water" fs);
           ("forest", fo ++ features_of_category class "forest" fs);
           ("agriculture", ag ++ features_of_category class "agriculture" fs)].
Proof.
  unfold plain_categories.
  induction fs as [|x fs IH]; intros w fo ag Hplain; simpl.
  - by rewrite !app_nil_r.
  - apply Forall_cons in Hplain as [Hx Hfs].
    rewrite !features_of_category_cons.
    unfold group_known_step, Js.has_truthy. simpl.
    destruct (String.eqb_spec (Js.to_key (class x)) "water") as [->|Hw]; simpl.
    { rewrite IH by done. by rewrite <-!app_assoc. }
    destruct (String.eqb_spec (Js.to_key (class x)) "forest") as [->|Hf]; simpl.
    { rewrite IH by done. by rewrite <-!app_assoc. }
    destruct (String.eqb_spec (Js.to_key (class x)) "agriculture") as [->|Ha]; simpl.
    { rewrite IH by done. by rewrite <-!app_assoc. }
    rewrite Hx. rewrite !decide_False by done. by apply IH.
Qed.

End grouping_facts.

Lemma group_loop_partition category fs :
  plain_categories category fs →
  ∃ buckets, group_loop (group_step category) [] fs = Js.Ok buckets
    ∧ NoDup buckets.*1
    ∧ (∀ k, Js.get k buckets = classify category fs k)
    ∧ (∀ k b, (k, b) ∈ buckets ↔ b ≠ [] ∧ b = features_of_category category k fs)
    ∧ (∀ f, f ∈ fs → ∃ b, (Js.to_key (category f), b) ∈ buckets ∧ f ∈ b).
Proof.
  intros Hplain.
  destruct (group_loop_spec category fs [] Hplain) as (buckets & Hrun & Hnd & Hget).
  specialize (Hnd (NoDup_nil_2)). simpl in Hget.
  assert (Hin : ∀ k b, (k, b) ∈ buckets
                       ↔ b ≠ [] ∧ b = features_of_category category k fs).
  { intros k b. rewrite <-get_Some_elem_of, Hget by done. unfold classify.
    destruct (features_of_category category k fs) eqn:Hb; naive_solver. }
  exists buckets. split_and!; [done..|].
  intros f Hf. exists (features_of_category category (Js.to_key (category f)) fs).
  assert (f ∈ features_of_category category (Js.to_key (category f)) fs) as Hmem.
  { unfold features_of_category. by apply list_elem_of_filter. }
  split; [|done]. apply Hin. split; [|done]. intros Hnil.
  rewrite Hnil in Hmem. by apply elem_of_nil in Hmem.
Qed.

(** C1 (as amended). The grouping loops of [IndiaLandUseMap.processData] and
    [FRAWebGIS.processClaimsData] put every feature in exactly one bucket: the
    buckets have distinct keys, the bucket under a key holds exactly the
    features whose category (read as a property key, so [undefined] for a
    missing one) is that key, in input order, and every feature is in the
    bucket of its own category. The loop of [LandUseMap.processData] fills
    the three buckets water, forest and agriculture only: a feature of any
    other class is in no bucket. All this for collections in which no
    category names a member of [Object.prototype]. *)
Theorem grouping_partitions_by_category (fs : list Feature)
    (Hclass : plain_categories class fs)
    (Hfra_type : plain_categories fra_type fs) :
  (∃ featuresByClass,
      group_loop (group_step class) [] fs = Js.Ok featuresByClass
      ∧ NoDup featuresByClass.*1
      ∧ (∀ k b, (k, b) ∈ featuresByClass
                ↔ b ≠ [] ∧ b = features_of_category class k fs)
      ∧ (∀ f, f ∈ fs → ∃ b, (Js.to_key (class f), b) ∈ featuresByClass ∧ f ∈ b))
  ∧ (∃ featuresByType,
      group_loop (group_step fra_type) [] fs = Js.Ok featuresByType
      ∧ NoDup featuresByType.*1
      ∧ (∀ k b, (k, b) ∈ featuresByType
                ↔ b ≠ [] ∧ b = features_of_category fra_type k fs)
      ∧ (∀ f, f ∈ fs → ∃ b, (Js.to_key (fra_type f), b) ∈ featuresByType ∧ f ∈ b))
  ∧ group_loop group_known_step LandUseMap.empty_buckets fs
    = Js.Ok [("water", features_of_category class "water" fs);
             ("forest", features_of_category class "forest" fs);
             ("agriculture", features_of_category class "agriculture" fs)].
Proof.
  split_and!.
  - destruct (group_loop_partition class fs Hclass) as (b & ? & ? & _ & ? & ?).
    by exists b.
  - destruct (group_loop_partition fra_type fs Hfra_type) as (b & ? & ? & _ & ? & ?).
    by exists b.
  - by apply (group_known_loop_spec fs [] [] []).
Qed.

Lemma grouping_partitions_by_category_witness :
  let fs := [feature_of_class "forest_dense"; feature_of_class "urban";
             feature_without_category; feature_of_class "forest_dense"] in
  group_loop (group_step class) [] fs
  = Js.Ok [("forest_dense", [feature_of_class "forest_dense"; feature_of_class "forest_dense"]);
           ("urban", [feature_of_class "urban"]);
           ("undefined", [feature_without_category])]
  ∧ group_loop group_known_step LandUseMap.empty_buckets fs
    = Js.Ok [("water", features_of_category class "water" fs);
             ("forest", features_of_category class "forest" fs);
             ("agriculture", features_of_category class "agriculture" fs)].
Proof.
  intros fs. split; [reflexivity|].
  apply (grouping_partitions_by_category fs).
  - repeat constructor.
  - repeat constructor.
Defined.

(** C1 (as stated) fails on [LandUseMap.processData]: a feature of the class
    urban is put in no bucket, and no layer is registered for it. *)
Lemma unrecognized_class_is_dropped :
  let data := {| error := Js.Undefined;
                 features := Features [feature_of_class "urban"] |} in
  group_loop group_known_step LandUseMap.empty_buckets [feature_of_class "urban"]
  = Js.Ok [("water", []); ("forest", []); ("agriculture", [])]
  ∧ LandUseMap.layers (Js.exec (LandUseMap.processData data) landuse_constructed)
    = LandUseMap.initial_layers
  ∧ ¬ (∀ fs featuresByClass f,
         group_loop group_known_step LandUseMap.empty_buckets fs = Js.Ok featuresByClass →
         f ∈ fs →
         ∃ b, Js.get (Js.to_key (class f)) featuresByClass = Some b ∧ f ∈ b).
Proof.
  intros data. split_and!; [by vm_compute..|]. intros Hclaim.
  destruct (Hclaim [feature_of_class "urban"] _ (feature_of_class "urban") eq_refl)
    as (b & Hget & _); [by left|].
  discriminate Hget.
Qed.

(** ** IndiaLandUseMap: building the layers *)

Ltac eff :=
  unfold Js.exec, Js.bind, Js.modify, Js.ret, Js.get_state, Js.lift, Js.throw,
    Js.try_catch; simpl.

Lemma prefixed_inj (p k k' : string) : p +:+ k = p +:+ k' → k = k'.
Proof. induction p as [|c p IH]; simpl; [done|]. intros [= ?]. by apply IH. Qed.

Section india_facts.
Import IndiaLandUseMap.
Implicit Types (s : State) (k : string) (b : list Feature)
  (bs : Js.object (list Feature)).

Lemma india_create_layer_ok entry s : (create_layer entry s).1 = Js.Ok tt.
Proof.
  destruct entry as [k b]. unfold create_layer. destruct (0 <? length b); [|done].
  eff. destruct (document s !! ("layer-" +:+ k)) as [[[] ? ?]|]; done.
Qed.

Lemma india_create_layer_layers k b s :
  layers (Js.exec (create_layer (k, b)) s)
  = if 0 <? length b
    then <[k := {| stamp := next_stamp s; members := b; style := style_of k |}]> (layers s)
    else layers s.
Proof.
  unfold create_layer. destruct (0 <? length b); [|done].
  eff. destruct (document s !! ("layer-" +:+ k)) as [[[] ? ?]|]; done.
Qed.

Lemma india_create_layer_document k b s :
  document (Js.exec (create_layer (k, b)) s)
  = if 0 <? length b
    then match document s !! ("count-" +:+ k) with
         | Some countElement =>
             <["count-" +:+ k := set_textContent (Number (length b)) countElement]>
               (document s)
         | None => document s
         end
    else document s.
Proof.
  unfold create_layer. destruct (0 <? length b); [|done].
  eff. destruct (document s !! ("layer-" +:+ k)) as [[[] ? ?]|]; done.
Qed.

Lemma india_for_each_ok bs s :
  Js.for_each create_layer bs s
  = (Js.Ok tt, Js.exec (Js.for_each create_layer bs) s).
Proof.
  pose proof (for_each_ok create_layer bs s india_create_layer_ok) as Hok.
  unfold Js.exec. destruct (Js.for_each create_layer bs s) as [r s'].
  simpl in *. by subst.
Qed.

(** After the loop a category holds the features of its entry, or what it
    held before when it has no entry or an empty one. *)
Lemma india_for_each_members bs : ∀ s k,
  NoDup bs.*1 →
  category_members (layers (Js.exec (Js.for_each create_layer bs) s)) !! k
  = match Js.get k bs with
    | Some b => if 0 <? length b then Some b else category_members (layers s) !! k
    | None => category_members (layers s) !! k
    end.
Proof.
  unfold category_members.
  induction bs as [|[k0 b0] bs IH]; intros s k Hnd; [done|].
  apply NoDup_cons in Hnd as [Hk0 Hnd]. simpl in Hk0.
  rewrite for_each_exec_cons by apply india_create_layer_ok.
  rewrite IH by done. rewrite get_cons.
  rewrite !lookup_fmap, india_create_layer_layers.
  destruct (decide (k = k0)) as [->|Hne].
  - apply get_None_keys in Hk0 as ->.
    destruct (0 <? length b0); [by rewrite lookup_insert_eq | done].
  - destruct (0 <? length b0); [by rewrite lookup_insert_ne | done].
Qed.


(** The count element of a category shows the size of its entry, or what it
    showed before when the category has no entry or an empty one. *)
Lemma india_for_each_count bs : ∀ s k,
  NoDup bs.*1 →
  document (Js.exec (Js.for_each create_layer bs) s) !! ("count-" +:+ k)
  = match Js.get k bs with
    | Some b =>
        if 0 <? length b
        then set_textContent (Number (length b)) <$> document s !! ("count-" +:+ k)
        else document s !! ("count-" +:+ k)
    | None => document s !! ("count-" +:+ k)
    end.
Proof.
  induction bs as [|[k0 b0] bs IH]; intros s k Hnd; [done|].
  apply NoDup_cons in Hnd as [Hk0 Hnd]. simpl in Hk0.
  rewrite for_each_exec_cons by apply india_create_layer_ok.
  rewrite IH by done. rewrite get_cons, india_create_layer_document.
  destruct (decide (k = k0)) as [->|Hne].
  - apply get_None_keys in Hk0 as ->.
    destruct (0 <? length b0); [|done].
    destruct (document s !! ("count-" +:+ k0)) as [el|] eqn:Hel;
      [by rewrite lookup_insert_eq | by rewrite Hel].
  - assert ("count-" +:+ k0 ≠ "count-" +:+ k) as Hid
      by (intros ?%prefixed_inj; congruence).
    assert (match document s !! ("count-" +:+ k0) with
            | Some countElement =>
                <["count-" +:+ k0 := set_textContent (Number (length b0)) countElement]>
                  (document s)
            | None => document s
            end !! ("count-" +:+ k) = document s !! ("count-" +:+ k)) as Hsame.
    { destruct (document s !! ("count-" +:+ k0)); [by rewrite lookup_insert_ne | done]. }
    destruct (0 <? length b0); by rewrite ?Hsame.
Qed.

End india_facts.

Section india_reload_facts.
Import IndiaLandUseMap.
Implicit Types (s : State) (k : string) (fs : list Feature).

(** The state [processData] builds the new layers in: every registered
    layer detached, [this.layers] empty. *)
Lemma india_processData_run data fs s :
  features data = Features fs →
  plain_categories class fs →
  ∃ bs, group_loop (group_step class) [] fs = Js.Ok bs
    ∧ NoDup bs.*1
    ∧ (∀ k, Js.get k bs = classify class fs k)
    ∧ processData data s
      = (Js.Ok tt,
         Js.exec (Js.for_each create_layer bs)
           (set_layers (λ _, ∅)
              (set_map (detach_all (map_to_list (layers s)).*2) s))).
Proof.
  intros Hfs Hplain.
  destruct (group_loop_partition class fs Hplain) as (bs & Hrun & Hnd & Hget & _).
  exists bs. split_and!; [done..|].
  unfold processData. rewrite Hfs. eff. rewrite Hrun.
  by rewrite india_for_each_ok.
Qed.

Lemma classify_nonempty category fs k b :
  classify category fs k = Some b → (0 <? length b) = true.
Proof.
  unfold classify. destruct (features_of_category category k fs); [done|].
  by intros [= <-].
Qed.

Lemma india_processData_members data fs s k :
  features data = Features fs →
  plain_categories class fs →
  category_members (layers (Js.exec (processData data) s)) !! k
  = classify class fs k.
Proof.
  intros Hfs Hplain.
  destruct (india_processData_run data fs s Hfs Hplain) as (bs & _ & Hnd & Hget & Hrun).
  unfold Js.exec at 1. rewrite Hrun. simpl.
  rewrite india_for_each_members, Hget by done.
  destruct (classify class fs k) as [b|] eqn:Hb.
  - by rewrite (classify_nonempty _ _ _ _ Hb).
  - unfold category_members. by rewrite lookup_fmap.
Qed.

Lemma india_processData_count data fs s k :
  features data = Features fs →
  plain_categories class fs →
  document (Js.exec (processData data) s) !! ("count-" +:+ k)
  = match classify class fs k with
    | Some b => set_textContent (Number (length b)) <$> document s !! ("count-" +:+ k)
    | None => document s !! ("count-" +:+ k)
    end.
Proof.
  intros Hfs Hplain.
  destruct (india_processData_run data fs s Hfs Hplain) as (bs & _ & Hnd & Hget & Hrun).
  unfold Js.exec at 1. rewrite Hrun. simpl.
  rewrite india_for_each_count, Hget by done.
  destruct (classify class fs k) as [b|] eqn:Hb; [|done].
  by rewrite (classify_nonempty _ _ _ _ Hb).
Qed.

Lemma india_loadData_response_ok response s :
  (loadData_response response s).1 = Js.Ok tt.
Proof.
  unfold loadData_response. by apply try_catch_ok.
Qed.

Lemma india_loadData_response_success fs s :
  plain_categories class fs →
  Js.exec (loadData_response (success fs)) s
  = Js.exec (updateFeatureCount (length fs))
      (Js.exec (processData {| error := Js.Undefined; features := Features fs |}) s).
Proof.
  intros Hplain.
  destruct (india_processData_run {| error := Js.Undefined; features := Features fs |}
              fs s eq_refl Hplain) as (bs & _ & _ & _ & Hrun).
  unfold loadData_response, success. eff. unfold Js.exec. by rewrite Hrun.
Qed.

Lemma india_reload_members fs s k :
  plain_categories class fs →
  category_members (layers (Js.exec (loadData_response (success fs)) s)) !! k
  = classify class fs k.
Proof.
  intros Hplain. rewrite india_loadData_response_success by done.
  by apply india_processData_members.
Qed.

Lemma india_updateFeatureCount_document n s :
  document (Js.exec (updateFeatureCount n) s)
  = match document s !! "feature-count" with
    | Some el => <["feature-count" := set_textContent (Counted n "features") el]> (document s)
    | None => document s
    end.
Proof. reflexivity. Qed.

Lemma india_for_each_document_other bs : ∀ s id,
  (∀ k, id ≠ "count-" +:+ k) →
  document (Js.exec (Js.for_each create_layer bs) s) !! id = document s !! id.
Proof.
  induction bs as [|[k0 b0] bs IH]; intros s id Hid; [done|].
  rewrite for_each_exec_cons by apply india_create_layer_ok.
  rewrite IH by done. rewrite india_create_layer_document.
  destruct (0 <? length b0); [|done].
  destruct (document s !! ("count-" +:+ k0)); [|done].
  by rewrite lookup_insert_ne.
Qed.

Lemma india_reload_count fs s k :
  plain_categories class fs →
  document (Js.exec (loadData_response (success fs)) s) !! ("count-" +:+ k)
  = match classify class fs k with
    | Some b => set_textContent (Number (length b)) <$> document s !! ("count-" +:+ k)
    | None => document s !! ("count-" +:+ k)
    end.
Proof.
  intros Hplain. rewrite india_loadData_response_success by done.
  rewrite <-(india_processData_count {| error := Js.Undefined; features := Features fs |})
    by done.
  rewrite india_updateFeatureCount_document.
  destruct (document _ !! "feature-count"); [|done].
  by rewrite lookup_insert_ne.
Qed.

Lemma india_reload_total fs s :
  plain_categories class fs →
  textContent <$> document (Js.exec (loadData_response (success fs)) s) !! "feature-count"
  = (λ _, Counted (length fs) "features") <$> document s !! "feature-count".
Proof.
  intros Hplain. rewrite india_loadData_response_success by done.
  set (data := {| error := Js.Undefined; features := Features fs |}).
  assert (document (Js.exec (processData data) s) !! "feature-count"
          = document s !! "feature-count") as Hsame.
  { destruct (india_processData_run data fs s eq_refl Hplain) as (bs & _ & _ & _ & Hrun).
    unfold Js.exec at 1. rewrite Hrun. simpl.
    by rewrite india_for_each_document_other. }
  rewrite india_updateFeatureCount_document.
  destruct (document (Js.exec (processData data) s) !! "feature-count") as [el|] eqn:Hel.
  - rewrite lookup_insert_eq. by rewrite <-Hsame.
  - by rewrite Hel, <-Hsame.
Qed.

End india_reload_facts.

(** ** FRAWebGIS: building the layers *)

Section fra_facts.
Import FRAWebGIS.
Implicit Types (s : State) (k : string) (b : list Feature)
  (bs : Js.object (list Feature)) (fs : list Feature).

Lemma fra_create_layer_ok entry s : (create_layer entry s).1 = Js.Ok tt.
Proof.
  destruct entry as [k b]. unfold create_layer. destruct (0 <? length b); [|done].
  eff. destruct (document s !! ("layer-" +:+ toLowerCase k)) as [[[] ? ?]|]; done.
Qed.

Lemma fra_create_layer_layers k b s :
  layers (Js.exec (create_layer (k, b)) s)
  = if 0 <? length b
    then <[k := {| stamp := next_stamp s; members := b; style := style_of k |}]> (layers s)
    else layers s.
Proof.
  unfold create_layer. destruct (0 <? length b); [|done].
  eff. destruct (document s !! ("layer-" +:+ toLowerCase k)) as [[[] ? ?]|]; done.
Qed.

Lemma fra_create_layer_document k b s :
  document (Js.exec (create_layer (k, b)) s) = document s.
Proof.
  unfold create_layer. destruct (0 <? length b); [|done].
  eff. destruct (document s !! ("layer-" +:+ toLowerCase k)) as [[[] ? ?]|]; done.
Qed.

Lemma fra_for_each_ok bs s :
  Js.for_each create_layer bs s
  = (Js.Ok tt, Js.exec (Js.for_each create_layer bs) s).
Proof.
  pose proof (for_each_ok create_layer bs s fra_create_layer_ok) as Hok.
  unfold Js.exec. destruct (Js.for_each create_layer bs s) as [r s'].
  simpl in *. by subst.
Qed.

Lemma fra_for_each_members bs : ∀ s k,
  NoDup bs.*1 →
  category_members (layers (Js.exec (Js.for_each create_layer bs) s)) !! k
  = match Js.get k bs with
    | Some b => if 0 <? length b then Some b else category_members (layers s) !! k
    | None => category_members (layers s) !! k
    end.
Proof.
  unfold category_members.
  induction bs as [|[k0 b0] bs IH]; intros s k Hnd; [done|].
  apply NoDup_cons in Hnd as [Hk0 Hnd]. simpl in Hk0.
  rewrite for_each_exec_cons by apply fra_create_layer_ok.
  rewrite IH by done. rewrite get_cons.
  rewrite !lookup_fmap, fra_create_layer_layers.
  destruct (decide (k = k0)) as [->|Hne].
  - apply get_None_keys in Hk0 as ->.
    destruct (0 <? length b0); [by rewrite lookup_insert_eq | done].
  - destruct (0 <? length b0); [by rewrite lookup_insert_ne | done].
Qed.


Lemma fra_for_each_document bs : ∀ s,
  document (Js.exec (Js.for_each create_layer bs) s) = document s.
Proof.
  induction bs as [|[k0 b0] bs IH]; intros s; [done|].
  rewrite for_each_exec_cons by apply fra_create_layer_ok.
  by rewrite IH, fra_create_layer_document.
Qed.

Lemma fra_processClaimsData_run data fs s :
  features data = Features fs →
  plain_categories fra_type fs →
  ∃ bs, group_loop (group_step fra_type) [] fs = Js.Ok bs
    ∧ NoDup bs.*1
    ∧ (∀ k, Js.get k bs = classify fra_type fs k)
    ∧ processClaimsData data s
      = (Js.Ok tt,
         Js.exec (Js.for_each create_layer bs)
           (set_layers (λ _, ∅)
              (set_map (detach_all (map_to_list (layers s)).*2) s))).
Proof.
  intros Hfs Hplain.
  destruct (group_loop_partition fra_type fs Hplain) as (bs & Hrun & Hnd & Hget & _).
  exists bs. split_and!; [done..|].
  unfold processClaimsData. rewrite Hfs. eff. rewrite Hrun.
  by rewrite fra_for_each_ok.
Qed.

Lemma fra_processClaimsData_members data fs s k :
  features data = Features fs →
  plain_categories fra_type fs →
  category_members (layers (Js.exec (processClaimsData data) s)) !! k
  = classify fra_type fs k.
Proof.
  intros Hfs Hplain.
  destruct (fra_processClaimsData_run data fs s Hfs Hplain)
    as (bs & _ & Hnd & Hget & Hrun).
  unfold Js.exec at 1. rewrite Hrun. simpl.
  rewrite fra_for_each_members, Hget by done.
  destruct (classify fra_type fs k) as [b|] eqn:Hb.
  - by rewrite (classify_nonempty _ _ _ _ Hb).
  - unfold category_members. by rewrite lookup_fmap.
Qed.

Lemma fra_loadClaims_response_ok response s :
  (loadClaims_response response s).1 = Js.Ok tt.
Proof.
  unfold loadClaims_response. by apply try_catch_ok.
Qed.

Lemma fra_loadClaims_response_success fs s :
  plain_categories fra_type fs →
  Js.exec (loadClaims_response (success fs)) s
  = Js.exec (updateFeatureCount (length fs))
      (Js.exec (processClaimsData {| error := Js.Undefined; features := Features fs |}) s).
Proof.
  intros Hplain.
  destruct (fra_processClaimsData_run {| error := Js.Undefined; features := Features fs |}
              fs s eq_refl Hplain) as (bs & _ & _ & _ & Hrun).
  unfold loadClaims_response, success. eff. unfold Js.exec. by rewrite Hrun.
Qed.

Lemma fra_updateFeatureCount_document n s :
  document (Js.exec (updateFeatureCount n) s)
  = match document s !! "feature-count" with
    | Some el => <["feature-count" := set_textContent (Counted n "claims") el]> (document s)
    | None => document s
    end.
Proof. reflexivity. Qed.

Lemma fra_reload_members fs s k :
  plain_categories fra_type fs →
  category_members (layers (Js.exec (loadClaims_response (success fs)) s)) !! k
  = classify fra_type fs k.
Proof.
  intros Hplain. rewrite fra_loadClaims_response_success by done.
  by apply fra_processClaimsData_members.
Qed.

Lemma fra_reload_total fs s :
  plain_categories fra_type fs →
  textContent <$> document (Js.exec (loadClaims_response (success fs)) s) !! "feature-count"
  = (λ _, Counted (length fs) "claims") <$> document s !! "feature-count".
Proof.
  intros Hplain. rewrite fra_loadClaims_response_success by done.
  set (data := {| error := Js.Undefined; features := Features fs |}).
  assert (document (Js.exec (processClaimsData data) s) = document s) as Hsame.
  { destruct (fra_processClaimsData_run data fs s eq_refl Hplain)
      as (bs & _ & _ & _ & Hrun).
    unfold Js.exec at 1. rewrite Hrun. simpl.
    by rewrite fra_for_each_document. }
  rewrite fra_updateFeatureCount_document, Hsame.
  destruct (document s !! "feature-count") as [el|] eqn:Hel.
  - by rewrite lookup_insert_eq.
  - by rewrite Hel.
Qed.

End fra_facts.

(** ** Reloads *)

(** C3 (as amended). When two reloads are issued back to back and both
    responses are successful, the registered layers and the feature count
    reflect the data of the response that arrived last: the second request's
    when the responses arrive in request order, the first request's when
    they arrive reversed. Nothing in [loadData] or [loadClaims] ties a
    response to the latest request. *)
Theorem last_response_wins
    (s_india : IndiaLandUseMap.State) (s_fra : FRAWebGIS.State)
    (snapshot1 snapshot2 : gmap string string) (fs1 fs2 : list Feature)
    (arrival : Arrival)
    (Hclass1 : plain_categories class fs1) (Hclass2 : plain_categories class fs2)
    (Hfra1 : plain_categories fra_type fs1) (Hfra2 : plain_categories fra_type fs2) :
  let last := match arrival with InRequestOrder => fs2 | Reversed => fs1 end in
  (let s' := Js.exec (india_two_reloads snapshot1 snapshot2
                        (success fs1) (success fs2) arrival) s_india in
   (∀ k, category_members (IndiaLandUseMap.layers s') !! k = classify class last k)
   ∧ textContent <$> IndiaLandUseMap.document s' !! "feature-count"
     = (λ _, Counted (length last) "features")
         <$> IndiaLandUseMap.document s_india !! "feature-count")
  ∧ (let s' := Js.exec (fra_two_reloads snapshot1 snapshot2
                          (success fs1) (success fs2) arrival) s_fra in
     (∀ k, category_members (FRAWebGIS.layers s') !! k = classify fra_type last k)
     ∧ textContent <$> FRAWebGIS.document s' !! "feature-count"
       = (λ _, Counted (length last) "claims")
           <$> FRAWebGIS.document s_fra !! "feature-count").
Proof.
  split.
  - unfold india_two_reloads.
    do 4 (rewrite (exec_bind _ _ tt) by reflexivity).
    destruct arrival;
      rewrite (exec_bind _ _ tt) by apply india_loadData_response_ok;
      (split; [intros k; by apply india_reload_members|]);
      rewrite india_reload_total by done;
      match goal with
      | |- context [Js.exec (IndiaLandUseMap.loadData_response (success ?fs)) ?s] =>
          pose proof (india_reload_total fs s ltac:(done)) as Hfirst
      end;
      change (IndiaLandUseMap.document (Js.exec IndiaLandUseMap.loadData_request _))
        with (IndiaLandUseMap.document s_india) in *;
      destruct (IndiaLandUseMap.document s_india !! "feature-count");
      destruct (IndiaLandUseMap.document _ !! "feature-count"); done.
  - unfold fra_two_reloads.
    do 4 (rewrite (exec_bind _ _ tt) by reflexivity).
    destruct arrival;
      rewrite (exec_bind _ _ tt) by apply fra_loadClaims_response_ok;
      (split; [intros k; by apply fra_reload_members|]);
      rewrite fra_reload_total by done;
      match goal with
      | |- context [Js.exec (FRAWebGIS.loadClaims_response (success ?fs)) ?s] =>
          pose proof (fra_reload_total fs s ltac:(done)) as Hfirst
      end;
      change (FRAWebGIS.document (Js.exec FRAWebGIS.loadClaims_request _))
        with (FRAWebGIS.document s_fra) in *;
      destruct (FRAWebGIS.document s_fra !! "feature-count");
      destruct (FRAWebGIS.document _ !! "feature-count"); done.
Qed.

Lemma last_response_wins_witness :
  let fs1 := [feature_of_class "water"] in
  let fs2 := [feature_of_class "urban"; feature_of_class "urban"] in
  let s' := Js.exec (india_two_reloads ∅ {["state" := "Telangana"]}
                       (success fs1) (success fs2) InRequestOrder)
              (india_constructed india_page) in
  plain_categories class fs1 ∧ plain_categories class fs2
  ∧ ∀ k, category_members (IndiaLandUseMap.layers s') !! k = classify class fs2 k.
Proof.
  intros fs1 fs2 s'.
  assert (plain_categories class fs1) as H1 by (repeat constructor).
  assert (plain_categories class fs2) as H2 by (repeat constructor).
  assert (plain_categories fra_type fs1) as H3 by (repeat constructor).
  assert (plain_categories fra_type fs2) as H4 by (repeat constructor).
  split_and!; [exact H1 | exact H2 |].
  exact (proj1 (proj1 (last_response_wins (india_constructed india_page)
           (fra_constructed (fra_page "" "" "")) ∅ {["state" := "Telangana"]}
           fs1 fs2 InRequestOrder H1 H2 H3 H4))).
Defined.

(** C3 (as stated) fails: the first reload is issued without filters, the
    second for the state Telangana; the response to the second arrives first.
    Once both have resolved the layers and the feature count are those of the
    first request's data. *)
Lemma late_response_overwrites_newer_data :
  let fs1 := [feature_of_class "water"] in
  let fs2 := [feature_of_class "urban"; feature_of_class "urban"] in
  let s' := Js.exec (india_two_reloads ∅ {["state" := "Telangana"]}
                       (success fs1) (success fs2) Reversed)
              (india_constructed india_page) in
  category_members (IndiaLandUseMap.layers s') !! "water" = Some fs1
  ∧ category_members (IndiaLandUseMap.layers s') !! "urban" = None
  ∧ textContent <$> IndiaLandUseMap.document s' !! "feature-count"
    = Some (Counted 1 "features")
  ∧ ¬ (∀ arrival k,
         category_members
           (IndiaLandUseMap.layers
              (Js.exec (india_two_reloads ∅ {["state" := "Telangana"]}
                          (success fs1) (success fs2) arrival)
                 (india_constructed india_page))) !! k
         = classify class fs2 k).
Proof.
  intros fs1 fs2 s'. split_and!; [reflexivity..|].
  intros Hclaim. specialize (Hclaim Reversed "urban"). discriminate Hclaim.
Qed.

(** C10. A successful reload rewrites the count element of exactly the
    categories present in the fetched data, with the size of their bucket;
    the count element of a category absent from the data keeps what it
    showed, so a category that had features before and has none now still
    shows the old count. *)
Theorem count_kept_for_absent_category
    (s : IndiaLandUseMap.State) (fs : list Feature) (k : string)
    (Hplain : plain_categories class fs) :
  let s' := Js.exec (IndiaLandUseMap.loadData (success fs)) s in
  (∀ b, classify class fs k = Some b →
        IndiaLandUseMap.document s' !! ("count-" +:+ k)
        = set_textContent (Number (length b))
            <$> IndiaLandUseMap.document s !! ("count-" +:+ k))
  ∧ (classify class fs k = None →
     IndiaLandUseMap.document s' !! ("count-" +:+ k)
     = IndiaLandUseMap.document s !! ("count-" +:+ k)).
Proof.
  intros s'. subst s'. unfold IndiaLandUseMap.loadData.
  rewrite (exec_bind _ _ tt) by reflexivity.
  rewrite india_reload_count by done.
  split; [intros b ->|intros ->]; reflexivity.
Qed.

Lemma count_kept_for_absent_category_witness :
  let before := [feature_of_class "forest_dense"; feature_of_class "forest_dense";
                 feature_of_class "urban"] in
  let after := [feature_of_class "urban"] in
  let s1 := Js.exec (IndiaLandUseMap.loadData (success before))
              (india_constructed india_page) in
  let s2 := Js.exec (IndiaLandUseMap.loadData (success after)) s1 in
  textContent <$> IndiaLandUseMap.document s1 !! "count-forest_dense" = Some (Number 2)
  ∧ IndiaLandUseMap.document s2 !! "count-forest_dense"
    = IndiaLandUseMap.document s1 !! "count-forest_dense".
Proof.
  intros before after s1 s2. split; [reflexivity|].
  apply (count_kept_for_absent_category s1 after "forest_dense").
  - repeat constructor.
  - reflexivity.
Defined.

(** ** Styles *)



Section landuse_facts.
Import LandUseMap.
Implicit Types (s : State) (k : string) (bs : Js.object (list Feature)).

Lemma landuse_create_layer_ok entry s : (create_layer entry s).1 = Js.Ok tt.
Proof.
  destruct entry as [k b]. unfold create_layer. by destruct (0 <? length b).
Qed.

Lemma landuse_create_layer_layers k b s :
  layers (Js.exec (create_layer (k, b)) s)
  = if 0 <? length b
    then <[k := Some {| stamp := next_stamp s; members := b;
                        style := Js.get k classStyles |}]> (layers s)
    else layers s.
Proof. unfold create_layer. by destruct (0 <? length b). Qed.





End landuse_facts.



(** ** Layer identity *)

Lemma insert_fresh_stamp_below (ls : gmap string Layer) n k l :
  stamp l = n → stamps_below n ls → stamps_below (S n) (<[k := l]> ls).
Proof.
  intros Hl Hbelow k1 l1. rewrite lookup_insert_Some.
  intros [[_ <-]|[_ H1%Hbelow]]; lia.
Qed.

Lemma insert_fresh_stamp_distinct (ls : gmap string Layer) n k l :
  stamp l = n → stamps_below n ls → distinct_stamps ls →
  distinct_stamps (<[k := l]> ls).
Proof.
  intros Hl Hbelow Hdistinct k1 k2 l1 l2. rewrite !lookup_insert_Some.
  intros [[<- <-]|[? H1]] [[<- <-]|[? H2]] Heq; try done.
  - apply Hbelow in H2. lia.
  - apply Hbelow in H1. lia.
  - by eapply Hdistinct.
Qed.

Lemma india_for_each_stamps bs : ∀ s,
  stamps_below (IndiaLandUseMap.next_stamp s) (IndiaLandUseMap.layers s) →
  distinct_stamps (IndiaLandUseMap.layers s) →
  distinct_stamps
    (IndiaLandUseMap.layers (Js.exec (Js.for_each IndiaLandUseMap.create_layer bs) s)).
Proof.
  induction bs as [|[k b] bs IH]; intros s Hbelow Hdistinct; [done|].
  rewrite for_each_exec_cons by apply india_create_layer_ok.
  assert (IndiaLandUseMap.next_stamp (Js.exec (IndiaLandUseMap.create_layer (k, b)) s)
          = if 0 <? length b then S (IndiaLandUseMap.next_stamp s)
            else IndiaLandUseMap.next_stamp s) as Hnext.
  { unfold IndiaLandUseMap.create_layer. destruct (0 <? length b); [|done]. eff.
    by destruct (IndiaLandUseMap.document s !! ("layer-" +:+ k)) as [[[] ? ?]|]. }
  apply IH; rewrite ?Hnext, india_create_layer_layers;
    destruct (0 <? length b); try done;
    [by apply insert_fresh_stamp_below | by eapply insert_fresh_stamp_distinct].
Qed.

Lemma fra_for_each_stamps bs : ∀ s,
  stamps_below (FRAWebGIS.next_stamp s) (FRAWebGIS.layers s) →
  distinct_stamps (FRAWebGIS.layers s) →
  distinct_stamps
    (FRAWebGIS.layers (Js.exec (Js.for_each FRAWebGIS.create_layer bs) s)).
Proof.
  induction bs as [|[k b] bs IH]; intros s Hbelow Hdistinct; [done|].
  rewrite for_each_exec_cons by apply fra_create_layer_ok.
  assert (FRAWebGIS.next_stamp (Js.exec (FRAWebGIS.create_layer (k, b)) s)
          = if 0 <? length b then S (FRAWebGIS.next_stamp s)
            else FRAWebGIS.next_stamp s) as Hnext.
  { unfold FRAWebGIS.create_layer. destruct (0 <? length b); [|done]. eff.
    by destruct (FRAWebGIS.document s !! ("layer-" +:+ FRAWebGIS.toLowerCase k))
      as [[[] ? ?]|]. }
  apply IH; rewrite ?Hnext, fra_create_layer_layers;
    destruct (0 <? length b); try done;
    [by apply insert_fresh_stamp_below | by eapply insert_fresh_stamp_distinct].
Qed.

(** Whatever the payload, the layers [processData] leaves registered are
    pairwise different objects. *)
Lemma india_processData_distinct_stamps data s :
  distinct_stamps
    (IndiaLandUseMap.layers (Js.exec (IndiaLandUseMap.processData data) s)).
Proof.
  unfold IndiaLandUseMap.processData.
  rewrite (exec_bind _ _ tt) by reflexivity.
  match goal with
  | |- context [Js.exec (Js.modify ?f) s] =>
      assert (IndiaLandUseMap.layers (Js.exec (Js.modify f) s) = ∅) as Hcleared
        by reflexivity;
      generalize dependent (Js.exec (Js.modify f) s)
  end.
  intros s1 Hcleared.
  assert (distinct_stamps (IndiaLandUseMap.layers s1)) as Hd
    by (rewrite Hcleared; intros ? ? ? ? ?; by rewrite lookup_empty).
  unfold Js.exec at 1, Js.bind at 1, Js.lift at 1.
  destruct (features_forEach (features data)) as [fs|e]; [|done].
  unfold Js.bind at 1, Js.lift at 1.
  destruct (group_loop (group_step class) [] fs) as [bs|e]; [|done].
  apply india_for_each_stamps; [|done].
  rewrite Hcleared. intros k l Hl. by rewrite lookup_empty in Hl.
Qed.

Lemma fra_processClaimsData_distinct_stamps data s :
  distinct_stamps
    (FRAWebGIS.layers (Js.exec (FRAWebGIS.processClaimsData data) s)).
Proof.
  unfold FRAWebGIS.processClaimsData.
  rewrite (exec_bind _ _ tt) by reflexivity.
  match goal with
  | |- context [Js.exec (Js.modify ?f) s] =>
      assert (FRAWebGIS.layers (Js.exec (Js.modify f) s) = ∅) as Hcleared
        by reflexivity;
      generalize dependent (Js.exec (Js.modify f) s)
  end.
  intros s1 Hcleared.
  assert (distinct_stamps (FRAWebGIS.layers s1)) as Hd
    by (rewrite Hcleared; intros ? ? ? ? ?; by rewrite lookup_empty).
  unfold Js.exec at 1, Js.bind at 1, Js.lift at 1.
  destruct (features_forEach (features data)) as [fs|e]; [|done].
  unfold Js.bind at 1, Js.lift at 1.
  destruct (group_loop (group_step fra_type) [] fs) as [bs|e]; [|done].
  apply fra_for_each_stamps; [|done].
  rewrite Hcleared. intros k l Hl. by rewrite lookup_empty in Hl.
Qed.

(** ** Visibility toggles *)





Lemma addLayer_other m l n : n ≠ stamp l → n ∈ Leaflet.addLayer m l ↔ n ∈ m.
Proof. unfold Leaflet.addLayer. set_solver. Qed.

Lemma removeLayer_other m l n : n ≠ stamp l → n ∈ Leaflet.removeLayer m l ↔ n ∈ m.
Proof. unfold Leaflet.removeLayer. set_solver. Qed.


















(** A toggle writes [this.map] only, and there only the stamp of the layer
    registered for the toggled category. *)
Lemma toggle_touches_one_stamp :
  (∀ k v s, let s' := Js.exec (FRAWebGIS.toggleLayer k v) s in
     FRAWebGIS.layers s' = FRAWebGIS.layers s
     ∧ FRAWebGIS.document s' = FRAWebGIS.document s
     ∧ ∀ n, (∀ l, FRAWebGIS.layers s !! k = Some l → n ≠ stamp l) →
            n ∈ FRAWebGIS.map s' ↔ n ∈ FRAWebGIS.map s)
  ∧ (∀ k v s, let s' := Js.exec (IndiaLandUseMap.toggleLayer k v) s in
     IndiaLandUseMap.layers s' = IndiaLandUseMap.layers s
     ∧ IndiaLandUseMap.document s' = IndiaLandUseMap.document s
     ∧ ∀ n, (∀ l, IndiaLandUseMap.layers s !! k = Some l → n ≠ stamp l) →
            n ∈ IndiaLandUseMap.map s' ↔ n ∈ IndiaLandUseMap.map s)
  ∧ (∀ k (v : bool) s,
     let s' := Js.exec (if v then LandUseMap.showLayer k else LandUseMap.hideLayer k) s in
     LandUseMap.layers s' = LandUseMap.layers s
     ∧ ∀ n, (∀ l, LandUseMap.layers s !! k = Some (Some l) → n ≠ stamp l) →
            n ∈ LandUseMap.map s' ↔ n ∈ LandUseMap.map s).
Proof.
  split_and!.
  - intros k v s. unfold FRAWebGIS.toggleLayer. eff.
    destruct (FRAWebGIS.layers s !! k) as [l|]; [|done].
    destruct v, (Leaflet.hasLayer (FRAWebGIS.map s) l); simpl;
      (split_and!; [done..|]); intros n Hn; try done;
      [apply addLayer_other | apply removeLayer_other]; by apply Hn.
  - intros k v s. unfold IndiaLandUseMap.toggleLayer. eff.
    destruct (IndiaLandUseMap.layers s !! k) as [l|]; [|done].
    destruct v; simpl; (split_and!; [done..|]); intros n Hn;
      [apply addLayer_other | apply removeLayer_other]; by apply Hn.
  - intros k v s. destruct v; unfold LandUseMap.showLayer, LandUseMap.hideLayer; eff.
    + destruct (LandUseMap.layers s !! k) as [[l|]|]; [|done..].
      destruct (Leaflet.hasLayer (LandUseMap.map s) l); simpl; (split; [done|]);
        intros n Hn; [done|]. apply addLayer_other. by apply Hn.
    + destruct (LandUseMap.layers s !! k) as [[l|]|]; [|done..].
      destruct (Leaflet.hasLayer (LandUseMap.map s) l); simpl; (split; [done|]);
        intros n Hn; [|done]. apply removeLayer_other. by apply Hn.
Qed.

(** C9. A visibility toggle leaves [this.layers] (the registered layers and
    their features) and the document (the displayed counts) as they were. The
    map holds every layer object other than the one registered for the
    toggled category after the call exactly when it held it before; with the
    layers of different categories being different objects, as every reload
    leaves them, that is the layer of every other category. *)
Theorem toggle_changes_only_attachment :
  (∀ k v s, let s' := Js.exec (FRAWebGIS.toggleLayer k v) s in
     FRAWebGIS.layers s' = FRAWebGIS.layers s
     ∧ FRAWebGIS.document s' = FRAWebGIS.document s
     ∧ (∀ n, (∀ l, FRAWebGIS.layers s !! k = Some l → n ≠ stamp l) →
             n ∈ FRAWebGIS.map s' ↔ n ∈ FRAWebGIS.map s)
     ∧ (∀ k' l', k' ≠ k → distinct_stamps (FRAWebGIS.layers s) →
                 FRAWebGIS.layers s !! k' = Some l' →
                 Leaflet.hasLayer (FRAWebGIS.map s') l'
                 = Leaflet.hasLayer (FRAWebGIS.map s) l'))
  ∧ (∀ k v s, let s' := Js.exec (IndiaLandUseMap.toggleLayer k v) s in
     IndiaLandUseMap.layers s' = IndiaLandUseMap.layers s
     ∧ IndiaLandUseMap.document s' = IndiaLandUseMap.document s
     ∧ (∀ n, (∀ l, IndiaLandUseMap.layers s !! k = Some l → n ≠ stamp l) →
             n ∈ IndiaLandUseMap.map s' ↔ n ∈ IndiaLandUseMap.map s)
     ∧ (∀ k' l', k' ≠ k → distinct_stamps (IndiaLandUseMap.layers s) →
                 IndiaLandUseMap.layers s !! k' = Some l' →
                 Leaflet.hasLayer (IndiaLandUseMap.map s') l'
                 = Leaflet.hasLayer (IndiaLandUseMap.map s) l'))
  ∧ (∀ k (v : bool) s,
     let s' := Js.exec (if v then LandUseMap.showLayer k else LandUseMap.hideLayer k) s in
     LandUseMap.layers s' = LandUseMap.layers s
     ∧ ∀ n, (∀ l, LandUseMap.layers s !! k = Some (Some l) → n ≠ stamp l) →
            n ∈ LandUseMap.map s' ↔ n ∈ LandUseMap.map s).
Proof.
  destruct toggle_touches_one_stamp as (Hfra & Hindia & Hlanduse).
  split_and!; [| |done].
  - intros k v s. destruct (Hfra k v s) as (Hlayers & Hdoc & Hmap).
    split_and!; [done..|].
    intros k' l' Hne Hdistinct Hl'. apply bool_decide_ext, Hmap.
    intros l Hl Heq. apply Hne. by eapply Hdistinct.
  - intros k v s. destruct (Hindia k v s) as (Hlayers & Hdoc & Hmap).
    split_and!; [done..|].
    intros k' l' Hne Hdistinct Hl'. apply bool_decide_ext, Hmap.
    intros l Hl Heq. apply Hne. by eapply Hdistinct.
Qed.

Lemma toggle_changes_only_attachment_witness :
  let data := {| error := Js.Undefined;
                 features := Features [claim_of_type "IFR" "C-1";
                                       claim_of_type "CFR" "C-2"] |} in
  let s := Js.exec (FRAWebGIS.processClaimsData data)
             (fra_constructed (fra_page "" "" "")) in
  let s' := Js.exec (FRAWebGIS.toggleLayer "IFR" false) s in
  FRAWebGIS.map s = {[0; 1]}
  ∧ FRAWebGIS.map s' = {[1]}
  ∧ FRAWebGIS.layers s' = FRAWebGIS.layers s
  ∧ ∀ l', FRAWebGIS.layers s !! "CFR" = Some l' →
          Leaflet.hasLayer (FRAWebGIS.map s') l' = Leaflet.hasLayer (FRAWebGIS.map s) l'.
Proof.
  intros data s s'. split; [by vm_compute|]. split; [by vm_compute|].
  destruct (proj1 toggle_changes_only_attachment "IFR" false s)
    as (Hlayers & _ & _ & Hother).
  split; [exact Hlayers|]. intros l'. apply Hother; [done|].
  apply fra_processClaimsData_distinct_stamps.
Defined.

(** ** Failed reloads *)

(** [FRAWebGIS.loadClaims] validates the response before it touches the
    layers: a rejected fetch, a status that is not a success, a body that is
    not JSON, a payload with an [error], and a payload whose [features] is
    missing or not an array all leave the fields as they were, apart from
    the reported error. *)
Lemma fra_failed_reload_keeps_state response s :
  match response with
  | Http true _ (JsonObject data) =>
      Js.truthy (error data) = true ∨ features data = Missing
      ∨ features data = NotAnArray
  | _ => True
  end →
  ∃ message,
    Js.exec (FRAWebGIS.loadClaims_response response) s
    = FRAWebGIS.set_shown_errors (λ l, l ++ [message]) s.
Proof.
  unfold FRAWebGIS.loadClaims_response, FRAWebGIS.showError.
  destruct response as [|[] status [| |data]]; intros Hfail; eff; eauto.
  destruct (Js.truthy (error data)) eqn:Herr; simpl; [eauto|].
  destruct Hfail as [?|[->| ->]]; [done|eauto..].
Qed.

(** [IndiaLandUseMap.loadData] keeps the state on a rejected fetch, a body
    that is not JSON, and a payload with an [error]. *)
Lemma india_failed_fetch_keeps_state response s :
  match response with
  | Http _ _ (JsonObject data) => Js.truthy (error data) = true
  | _ => True
  end →
  Js.exec (IndiaLandUseMap.loadData_response response) s
  = IndiaLandUseMap.set_shown_errors (λ l, l ++ ["Failed to load data"]) s.
Proof.
  unfold IndiaLandUseMap.loadData_response, IndiaLandUseMap.showError.
  destruct response as [|ok status [| |data]]; intros Hfail; eff; try done.
  by rewrite Hfail.
Qed.

(** It has no check of [features]: on a payload without an [error] whose
    [features] is missing or not an array, [processData] has detached and
    forgotten every layer before the loop over [features] throws. *)
Lemma india_reload_without_features response ok status data s :
  response = Http ok status (JsonObject data) →
  Js.truthy (error data) = false →
  features data = Missing ∨ features data = NotAnArray →
  let s' := Js.exec (IndiaLandUseMap.loadData_response response) s in
  IndiaLandUseMap.layers s' = ∅
  ∧ IndiaLandUseMap.map s'
    = detach_all (map_to_list (IndiaLandUseMap.layers s)).*2 (IndiaLandUseMap.map s)
  ∧ IndiaLandUseMap.document s' = IndiaLandUseMap.document s
  ∧ IndiaLandUseMap.shown_errors s'
    = IndiaLandUseMap.shown_errors s ++ ["Failed to load data"].
Proof.
  intros -> Herr Hfs. unfold IndiaLandUseMap.loadData_response,
    IndiaLandUseMap.processData, IndiaLandUseMap.showError. eff. rewrite Herr. simpl.
  by destruct Hfs as [-> | ->].
Qed.

(** C2 fails on [IndiaLandUseMap.loadData]: with the water layer loaded and
    attached, a reload answered by a payload that has neither [error] nor
    [features] leaves no registered layer and nothing attached, while the
    same response leaves [FRAWebGIS] untouched apart from the error shown. *)
Theorem india_reload_without_features_clears_layers :
  let payload := {| error := Js.Undefined; features := Missing |} in
  let s1 := Js.exec (IndiaLandUseMap.loadData (success [feature_of_class "water"]))
              (india_constructed india_page) in
  let s2 := Js.exec (IndiaLandUseMap.loadData (Http true 200 (JsonObject payload))) s1 in
  let t1 := Js.exec (FRAWebGIS.loadClaims (success [claim_of_type "IFR" "C-1"]))
              (fra_constructed (fra_page "" "" "")) in
  let t2 := Js.exec (FRAWebGIS.loadClaims (Http true 200 (JsonObject payload))) t1 in
  (category_members (IndiaLandUseMap.layers s1) !! "water" = Some [feature_of_class "water"]
   ∧ IndiaLandUseMap.map s1 = {[0]})
  ∧ (IndiaLandUseMap.layers s2 = ∅
     ∧ IndiaLandUseMap.map s2 = ∅
     ∧ IndiaLandUseMap.shown_errors s2 = ["Failed to load data"])
  ∧ (FRAWebGIS.layers t2 = FRAWebGIS.layers t1
     ∧ FRAWebGIS.map t2 = FRAWebGIS.map t1
     ∧ FRAWebGIS.map t1 = {[0]}).
Proof. intros. subst payload s1 s2 t1 t2. by vm_compute. Qed.

(** ** Claim details *)

Section claim_details_facts.
Import FRAWebGIS.

Lemma showClaimDetails_response_ok response s :
  (showClaimDetails_response response s).1 = Js.Ok tt.
Proof. unfold showClaimDetails_response. by apply try_catch_ok. Qed.

Lemma showClaimDetails_ok claimId response s :
  (showClaimDetails claimId response s).1 = Js.Ok tt.
Proof.
  unfold showClaimDetails. eapply bind_ok; [reflexivity|].
  apply showClaimDetails_response_ok.
Qed.

Lemma showClaimDetails_response_requests response s :
  requests (Js.exec (showClaimDetails_response response) s) = requests s.
Proof.
  unfold showClaimDetails_response, displayClaimDetails, showError.
  destruct response as [|ok status [| |c]]; eff; try done.
  by destruct (Js.truthy (details_error c)).
Qed.

Lemma showClaimDetails_requests claimId response s :
  requests (Js.exec (showClaimDetails claimId response) s)
  = requests s ++ [{| path := "/api/claim/" +:+ claimId; query := ∅ |}].
Proof.
  unfold showClaimDetails. rewrite (exec_bind _ _ tt) by reflexivity.
  by rewrite showClaimDetails_response_requests.
Qed.

End claim_details_facts.

(** C4 (as amended). Every call of [showClaimDetails] issues one fetch of
    [/api/claim/<id>], whatever came before: two sequential calls for one id
    issue two fetches. Nothing is cached. A call whose fetch succeeds shows
    the record that very fetch returned; a call whose fetch fails (rejected,
    not JSON, or a payload with an [error]) only reports the error, so a
    later call fetches again. *)
Theorem every_detail_request_fetches
    (claimId : string) (response1 response2 : Response FRAWebGIS.ClaimDetails)
    (s : FRAWebGIS.State) :
  let request := {| path := "/api/claim/" +:+ claimId; query := ∅ |} in
  let twice := Js.bind (FRAWebGIS.showClaimDetails claimId response1)
                 (λ _, FRAWebGIS.showClaimDetails claimId response2) in
  FRAWebGIS.requests (Js.exec twice s) = FRAWebGIS.requests s ++ [request; request]
  ∧ (∀ ok status record,
       response2 = Http ok status (JsonObject record) →
       Js.truthy (FRAWebGIS.details_error record) = false →
       FRAWebGIS.claim_details (Js.exec twice s) = Some record
       ∧ FRAWebGIS.claim_modal_shown (Js.exec twice s) = true)
  ∧ (match response1 with
     | Http _ _ (JsonObject record) => Js.truthy (FRAWebGIS.details_error record) = true
     | _ => True
     end →
     Js.exec (FRAWebGIS.showClaimDetails claimId response1) s
     = FRAWebGIS.set_shown_errors (λ l, l ++ ["Failed to load claim details"])
         (FRAWebGIS.set_requests (λ l, l ++ [request]) s)).
Proof.
  intros request twice. subst twice.
  rewrite (exec_bind _ _ tt) by apply showClaimDetails_ok.
  split_and!.
  - rewrite !showClaimDetails_requests. by rewrite <-app_assoc.
  - intros ok status record -> Herr.
    generalize (Js.exec (FRAWebGIS.showClaimDetails claimId response1) s).
    intros s1. unfold FRAWebGIS.showClaimDetails, FRAWebGIS.showClaimDetails_request,
      FRAWebGIS.showClaimDetails_response, FRAWebGIS.displayClaimDetails. eff.
    by rewrite Herr.
  - unfold FRAWebGIS.showClaimDetails, FRAWebGIS.showClaimDetails_request,
      FRAWebGIS.showClaimDetails_response, FRAWebGIS.showError.
    destruct response1 as [|ok status [| |record]]; intros Hfail; eff; try done.
    by rewrite Hfail.
Qed.

Lemma every_detail_request_fetches_witness :
  let record := {| FRAWebGIS.details_error := Js.Undefined;
                   FRAWebGIS.details_fields := [("claim_id", Js.Str "C-1")] |} in
  let s := Js.exec (Js.bind
                      (FRAWebGIS.showClaimDetails "C-1" Rejected)
                      (λ _, FRAWebGIS.showClaimDetails "C-1"
                              (Http true 200 (JsonObject record))))
             (fra_constructed (fra_page "" "" "")) in
  FRAWebGIS.claim_details s = Some record ∧ FRAWebGIS.claim_modal_shown s = true.
Proof.
  intros record s.
  apply (proj1 (proj2 (every_detail_request_fetches "C-1" Rejected
           (Http true 200 (JsonObject record)) (fra_constructed (fra_page "" "" ""))))
           true 200 record); reflexivity.
Defined.

(** C4 (as stated) fails: resolving the claim C-1 twice in a row, the first
    resolve succeeding, issues two fetches. *)
Lemma second_resolve_fetches_again :
  let record := {| FRAWebGIS.details_error := Js.Undefined;
                   FRAWebGIS.details_fields := [("claim_id", Js.Str "C-1")] |} in
  let response := Http true 200 (JsonObject record) in
  let s := Js.exec (Js.bind (FRAWebGIS.showClaimDetails "C-1" response)
                      (λ _, FRAWebGIS.showClaimDetails "C-1" response))
             (fra_constructed (fra_page "" "" "")) in
  FRAWebGIS.requests s
  = [{| path := "/api/claim/C-1"; query := ∅ |};
     {| path := "/api/claim/C-1"; query := ∅ |}]
  ∧ length (FRAWebGIS.requests s) ≠ 1.
Proof. intros record response s. split; [reflexivity|]. by vm_compute. Qed.

(** ** Filters *)

(** C5 (as amended). Applying filters removes exactly the fields whose value
    is the empty string: a field is in the snapshot, with its value, exactly
    when it was collected with a value other than the empty string; so
    [{state: "", district: "X"}] yields the single field district with X,
    and after [applyFilters] every field of [currentFilters] has a non-empty
    value. A value of white space only is not empty and stays. *)
Theorem empty_filters_are_removed :
  (∀ (filters : gmap string string) k v,
     FRAWebGIS.remove_empty_filters filters !! k = Some v
     ↔ filters !! k = Some v ∧ v ≠ "")
  ∧ FRAWebGIS.remove_empty_filters (<["state" := ""]> (<["district" := "X"]> ∅))
    = {["district" := "X"]}
  ∧ (∀ s k v,
       Js.succeeds FRAWebGIS.applyFilters s →
       FRAWebGIS.currentFilters (Js.exec FRAWebGIS.applyFilters s) !! k = Some v →
       v ≠ "").
Proof.
  assert (∀ (filters : gmap string string) k v,
            FRAWebGIS.remove_empty_filters filters !! k = Some v
            ↔ filters !! k = Some v ∧ v ≠ "") as Hlookup.
  { intros filters k v. unfold FRAWebGIS.remove_empty_filters.
    rewrite map_lookup_filter_Some. simpl.
    destruct (String.eqb_spec v ""); simpl; naive_solver. }
  split_and!; [done| |].
  - apply map_eq. intros k. apply option_eq. intros v.
    rewrite Hlookup. rewrite lookup_singleton_Some, !lookup_insert_Some, lookup_empty.
    naive_solver.
  - intros s k v [[] Hok]. unfold FRAWebGIS.applyFilters, FRAWebGIS.input_value in *.
    revert Hok. eff.
    repeat (match goal with
            | |- context [FRAWebGIS.document s !! ?id] =>
                destruct (FRAWebGIS.document s !! id); simpl; [|done]
            end).
    intros _. by intros [_ ?]%Hlookup.
Qed.

Lemma empty_filters_are_removed_witness :
  let s := Js.exec FRAWebGIS.applyFilters
             (fra_constructed (fra_page "" "X" "approved")) in
  FRAWebGIS.currentFilters s !! "district" = Some "X"
  ∧ FRAWebGIS.currentFilters s !! "state" = None
  ∧ "X" ≠ "".
Proof.
  intros s. split_and!; [by vm_compute..|].
  apply (proj2 (proj2 empty_filters_are_removed)
           (fra_constructed (fra_page "" "X" "approved")) "district" "X").
  - exists tt. by vm_compute.
  - by vm_compute.
Defined.

(** C5 (as stated) fails: a value of one space is blank, and the field
    keeps it. *)
Lemma blank_filter_value_is_kept :
  blank " " = true
  ∧ FRAWebGIS.remove_empty_filters {["state" := " "]} !! "state" = Some " "
  ∧ FRAWebGIS.currentFilters
      (Js.exec FRAWebGIS.applyFilters (fra_constructed (fra_page " " "X" "")))
      !! "state" = Some " "
  ∧ ¬ (∀ (filters : gmap string string) k v,
         filters !! k = Some v → blank v = true →
         FRAWebGIS.remove_empty_filters filters !! k = None).
Proof.
  split_and!; [by vm_compute..|]. intros Hclaim.
  specialize (Hclaim {["state" := " "]} "state" " " eq_refl eq_refl).
  vm_compute in Hclaim. discriminate Hclaim.
Qed.


(** * Further properties *)

(** ** Grouping: nothing lost, nothing doubled, and the inherited names *)

Section grouping_more.
Implicit Types (category : Feature → Js.value) (fs : list Feature)
  (acc : Js.object (list Feature)) (f : Feature) (k : string).

Lemma concat_set_push acc k b f :
  Js.get k acc = Some b →
  concat (Js.set k (b ++ [f]) acc).*2 ≡ₚ f :: concat acc.*2.
Proof.
  induction acc as [|[k0 b0] acc IH]; csimpl; [done|].
  destruct (String.eqb_spec k k0) as [->|Hne]; csimpl.
  - intros [= ->]. rewrite <-app_assoc. simpl. symmetry. apply Permutation_middle.
  - intros Hget. rewrite IH by done. symmetry. apply Permutation_middle.
Qed.

Lemma concat_set_new acc k :
  Js.get k acc = None → concat (Js.set k [] acc).*2 = concat acc.*2.
Proof.
  induction acc as [|[k0 b0] acc IH]; csimpl; [done|].
  destruct (String.eqb_spec k k0) as [->|Hne]; csimpl; [done|].
  intros Hget. by rewrite IH.
Qed.

Lemma group_step_conserves category acc f acc' :
  group_step category acc f = Js.Ok acc' →
  concat acc'.*2 ≡ₚ f :: concat acc.*2.
Proof.
  unfold group_step, Js.has_truthy.
  destruct (Js.get (Js.to_key (category f)) acc) as [b|] eqn:Hget; simpl.
  - rewrite Hget. intros [= <-]. by apply concat_set_push.
  - destruct (Js.inherited _); simpl.
    + by rewrite Hget.
    + rewrite get_set, decide_True by done. intros [= <-].
      etrans; [apply (concat_set_push _ _ [] f); by rewrite get_set, decide_True|].
      by rewrite concat_set_new.
Qed.

Lemma group_loop_conserves category fs : ∀ acc acc',
  group_loop (group_step category) acc fs = Js.Ok acc' →
  concat acc'.*2 ≡ₚ concat acc.*2 ++ fs.
Proof.
  induction fs as [|f fs IH]; intros acc acc'; simpl.
  - intros [= <-]. by rewrite app_nil_r.
  - destruct (group_step category acc f) as [acc1|e] eqn:Hstep; [|done].
    intros ->%IH. rewrite (group_step_conserves _ _ _ _ Hstep).
    simpl. apply Permutation_middle.
Qed.

Lemma group_step_no_inherited_own category acc f acc' :
  no_inherited_own acc →
  group_step category acc f = Js.Ok acc' → no_inherited_own acc'.
Proof.
  intros Hacc. unfold group_step, Js.has_truthy.
  destruct (Js.get (Js.to_key (category f)) acc) as [b|] eqn:Hget; simpl.
  - rewrite Hget. intros [= <-] k Hk. rewrite get_set.
    case_decide as Heq; [|by apply Hacc]. subst. rewrite Hacc in Hget; done.
  - destruct (Js.inherited (Js.to_key (category f))) eqn:Hinh; simpl.
    + by rewrite Hget.
    + rewrite get_set, decide_True by done. intros [= <-] k Hk.
      rewrite !get_set. case_decide as Heq; [congruence|by apply Hacc].
Qed.

Lemma group_step_inherited category acc f :
  no_inherited_own acc →
  Js.inherited (Js.to_key (category f)) = true →
  group_step category acc f
  = Js.Throw (Js.TypeError "featuresByClass[className].push is not a function").
Proof.
  intros Hacc Hinh. unfold group_step, Js.has_truthy.
  rewrite (Hacc _ Hinh), Hinh. simpl. by rewrite (Hacc _ Hinh).
Qed.

Lemma group_loop_inherited category fs : ∀ acc,
  no_inherited_own acc →
  Exists (λ f, Js.inherited (Js.to_key (category f)) = true) fs →
  group_loop (group_step category) acc fs
  = Js.Throw (Js.TypeError "featuresByClass[className].push is not a function").
Proof.
  induction fs as [|f fs IH]; intros acc Hacc Hex; [by apply Exists_nil in Hex|].
  simpl. destruct (Js.inherited (Js.to_key (category f))) eqn:Hinh.
  - by rewrite group_step_inherited.
  - apply Exists_cons in Hex as [Hf|Hfs]; [congruence|].
    destruct (group_step_spec category acc f Hinh) as (acc1 & Hstep & _).
    rewrite Hstep. apply IH; [|done]. by eapply group_step_no_inherited_own.
Qed.

Lemma group_known_loop_inherited fs : ∀ acc,
  no_inherited_own acc →
  Exists (λ f, Js.inherited (Js.to_key (class f)) = true) fs →
  group_loop group_known_step acc fs
  = Js.Throw (Js.TypeError "featuresByClass[className].push is not a function").
Proof.
  induction fs as [|f fs IH]; intros acc Hacc Hex; [by apply Exists_nil in Hex|].
  simpl. unfold group_known_step at 1, Js.has_truthy.
  destruct (Js.inherited (Js.to_key (class f))) eqn:Hinh.
  - by rewrite (Hacc _ Hinh).
  - apply Exists_cons in Hex as [Hf|Hfs]; [congruence|].
    destruct (Js.get (Js.to_key (class f)) acc) as [b|] eqn:Hget.
    + apply IH; [|done]. intros k Hk. rewrite get_set.
      case_decide; [congruence|by apply Hacc].
    + by apply IH.
Qed.

End grouping_more.

(** X1. The buckets of the grouping object of [processData] and of
    [processClaimsData], taken together, hold the features of the payload
    once each: their concatenation is a permutation of the input, so the
    sizes of the buckets add up to the number of features. *)
Theorem grouping_conserves_features (category : Feature → Js.value)
    (fs : list Feature) (buckets : Js.object (list Feature))
    (Hrun : group_loop (group_step category) [] fs = Js.Ok buckets) :
  concat buckets.*2 ≡ₚ fs
  ∧ sum_list (length <$> buckets.*2) = length fs.
Proof.
  pose proof (group_loop_conserves _ _ _ _ Hrun) as Hperm. simpl in Hperm.
  split; [done|]. rewrite <-Hperm. clear.
  induction buckets as [|[k b] bs IH]; csimpl; [done|].
  by rewrite length_app, IH.
Qed.

Lemma grouping_conserves_features_witness :
  let fs := [feature_of_class "urban"; feature_of_class "water";
             feature_without_category; feature_of_class "urban"] in
  concat [[feature_of_class "urban"; feature_of_class "urban"];
          [feature_of_class "water"]; [feature_without_category]] ≡ₚ fs.
Proof.
  intros fs.
  exact (proj1 (grouping_conserves_features class fs
    [("urban", [feature_of_class "urban"; feature_of_class "urban"]);
     ("water", [feature_of_class "water"]);
     ("undefined", [feature_without_category])] eq_refl)).
Defined.

(** X2. One feature whose category names a member of [Object.prototype]
    (constructor, toString, ...) makes the grouping loop throw a TypeError,
    whatever the other features are: the truth test finds the inherited
    member, no bucket is created, and [push] is not a function. This holds
    for the loops of all three scripts. *)
Theorem grouping_throws_on_inherited_name :
  (∀ (category : Feature → Js.value) fs,
     Exists (λ f, Js.inherited (Js.to_key (category f)) = true) fs →
     ∃ message,
       group_loop (group_step category) [] fs = Js.Throw (Js.TypeError message))
  ∧ (∀ fs,
     Exists (λ f, Js.inherited (Js.to_key (class f)) = true) fs →
     ∃ message,
       group_loop group_known_step LandUseMap.empty_buckets fs
       = Js.Throw (Js.TypeError message)).
Proof.
  split.
  - intros category fs Hex. eexists. apply group_loop_inherited; [|done].
    by intros k Hk.
  - intros fs Hex. eexists. apply group_known_loop_inherited; [|done].
    intros k Hk. unfold LandUseMap.empty_buckets. rewrite !get_cons.
    repeat (case_decide; [subst k; by vm_compute in Hk|]).
    done.
Qed.

Lemma grouping_throws_on_inherited_name_witness :
  ∃ message,
    group_loop (group_step class) []
      [feature_of_class "water"; feature_of_class "constructor";
       feature_of_class "urban"]
    = Js.Throw (Js.TypeError message).
Proof.
  apply (proj1 grouping_throws_on_inherited_name class).
  apply Exists_cons_tl, Exists_cons_hd. reflexivity.
Defined.

(** X3. A reload whose payload is well formed but holds one such feature
    fails half way: the layers of the previous data are detached and
    forgotten, none is registered, and the failure is reported. This is so
    for [IndiaLandUseMap.loadData] and, although it validates the payload,
    for [FRAWebGIS.loadClaims]. *)
Theorem reload_with_inherited_name_clears_layers :
  (∀ fs s,
     Exists (λ f, Js.inherited (Js.to_key (class f)) = true) fs →
     let s' := Js.exec (IndiaLandUseMap.loadData_response (success fs)) s in
     IndiaLandUseMap.layers s' = ∅
     ∧ IndiaLandUseMap.map s'
       = detach_all (map_to_list (IndiaLandUseMap.layers s)).*2 (IndiaLandUseMap.map s)
     ∧ IndiaLandUseMap.shown_errors s'
       = IndiaLandUseMap.shown_errors s ++ ["Failed to load data"])
  ∧ (∀ fs s,
     Exists (λ f, Js.inherited (Js.to_key (fra_type f)) = true) fs →
     let s' := Js.exec (FRAWebGIS.loadClaims_response (success fs)) s in
     FRAWebGIS.layers s' = ∅
     ∧ FRAWebGIS.map s'
       = detach_all (map_to_list (FRAWebGIS.layers s)).*2 (FRAWebGIS.map s)
     ∧ ∃ message,
         FRAWebGIS.shown_errors s'
         = FRAWebGIS.shown_errors s ++ ["Failed to load claims data: " +:+ message]).
Proof.
  split.
  - intros fs s Hex.
    unfold IndiaLandUseMap.loadData_response, IndiaLandUseMap.processData,
      IndiaLandUseMap.showError, success. eff.
    rewrite group_loop_inherited by done. done.
  - intros fs s Hex.
    unfold FRAWebGIS.loadClaims_response, FRAWebGIS.processClaimsData,
      FRAWebGIS.showError, success. eff.
    rewrite group_loop_inherited by done. simpl. eauto.
Qed.

Lemma reload_with_inherited_name_clears_layers_witness :
  let before := [feature_of_class "water"] in
  let after := [feature_of_class "water"; feature_of_class "toString"] in
  let s1 := Js.exec (IndiaLandUseMap.loadData_response (success before))
              (india_constructed india_page) in
  let s2 := Js.exec (IndiaLandUseMap.loadData_response (success after)) s1 in
  IndiaLandUseMap.map s1 = {[0]} ∧ IndiaLandUseMap.layers s2 = ∅.
Proof.
  intros before after s1 s2. split; [by vm_compute|].
  apply (proj1 reload_with_inherited_name_clears_layers after s1).
  apply Exists_cons_tl, Exists_cons_hd. reflexivity.
Defined.

(** ** The layer loop on the map, the registered layers and the stamps *)

Section registry_facts.
Implicit Types (r : Registry) (e : Entry) (es : list Entry) (n : nat) (k : string).

Lemma register_next_le r e : next r ≤ next (register r e).
Proof. unfold register. destruct (0 <? _); simpl; lia. Qed.

Lemma register_well_stamped r e : well_stamped r → well_stamped (register r e).
Proof.
  intros [Hbelow Hatt]. unfold register. destruct (0 <? _); [|done].
  split; simpl.
  - by apply insert_fresh_stamp_below.
  - intros n. destruct (entry_attach e); unfold Leaflet.addLayer; simpl.
    + rewrite elem_of_union, elem_of_singleton. intros [->|?%Hatt]; lia.
    + intros ?%Hatt. lia.
Qed.

Lemma register_attached_mono r e n : n ∈ attached r → n ∈ attached (register r e).
Proof.
  unfold register. destruct (0 <? _); [|done]. simpl.
  destruct (entry_attach e); [|done]. unfold Leaflet.addLayer. set_solver.
Qed.

Lemma register_attached_inv r e n :
  n ∈ attached (register r e) → n ∈ attached r ∨ n = next r.
Proof.
  unfold register. destruct (0 <? _); [|by left]. simpl.
  destruct (entry_attach e); [|by left]. unfold Leaflet.addLayer. simpl. set_solver.
Qed.

Lemma foldl_register_next_le es : ∀ r, next r ≤ next (foldl register r es).
Proof.
  induction es as [|e es IH]; intros r; simpl; [done|].
  etrans; [apply (register_next_le r e)|apply IH].
Qed.

Lemma foldl_register_well_stamped es : ∀ r,
  well_stamped r → well_stamped (foldl register r es).
Proof.
  induction es as [|e es IH]; intros r Hr; simpl; [done|].
  by apply IH, register_well_stamped.
Qed.

Lemma foldl_register_attached_mono es : ∀ r n,
  n ∈ attached r → n ∈ attached (foldl register r es).
Proof.
  induction es as [|e es IH]; intros r n Hn; simpl; [done|].
  by apply IH, register_attached_mono.
Qed.

Lemma foldl_register_attached_inv es : ∀ r n,
  n ∈ attached (foldl register r es) → n ∈ attached r ∨ next r ≤ n.
Proof.
  induction es as [|e es IH]; intros r n; simpl; [by left|].
  intros [Hn|Hn]%IH.
  - apply register_attached_inv in Hn as [Hn| ->]; [by left|right; lia].
  - right. pose proof (register_next_le r e). lia.
Qed.

Lemma foldl_register_other es : ∀ r k,
  k ∉ entry_key <$> es →
  registered (foldl register r es) !! k = registered r !! k.
Proof.
  induction es as [|e es IH]; intros r k Hk; simpl; [done|].
  apply not_elem_of_cons in Hk as [Hne Hk]. rewrite IH by done.
  unfold register. destruct (0 <? _); [|done]. simpl.
  by rewrite lookup_insert_ne.
Qed.

(** What the loop leaves registered under a name: the layer that was there,
    or the layer built for the entry of that name, which is attached exactly
    when the entry says so. *)
Lemma foldl_register_lookup es : ∀ r k l,
  NoDup (entry_key <$> es) → well_stamped r →
  registered (foldl register r es) !! k = Some l →
  registered r !! k = Some l
  ∨ ∃ e, e ∈ es ∧ entry_key e = k ∧ entry_members e ≠ []
         ∧ members l = entry_members e ∧ style l = entry_style e
         ∧ next r ≤ stamp l
         ∧ (stamp l ∈ attached (foldl register r es) ↔ entry_attach e = true).
Proof.
  induction es as [|e es IH]; intros r k l Hnd Hr; simpl; [by left|].
  apply NoDup_cons in Hnd as [He Hnd]. intros Hl.
  destruct (IH (register r e) k l Hnd (register_well_stamped r e Hr) Hl)
    as [Hold|(e' & He' & Hk & Hmem & Hm & Hs & Hge & Hatt)].
  - unfold register in Hold. destruct (0 <? length (entry_members e)) eqn:Hlen;
      [|by left]. simpl in Hold.
    apply lookup_insert_Some in Hold as [[<- <-]|[_ Hold]]; [|by left].
    right. exists e. split_and!; [by left|done| |done|done|simpl; lia|].
    { intros Hnil. by rewrite Hnil in Hlen. }
    simpl. split.
    + intros [Hn|Hn]%foldl_register_attached_inv.
      * unfold register in Hn. rewrite Hlen in Hn. simpl in Hn.
        destruct (entry_attach e); [done|]. apply Hr in Hn. lia.
      * unfold register in Hn. rewrite Hlen in Hn. simpl in Hn. lia.
    + intros Hatt. apply foldl_register_attached_mono.
      unfold register. rewrite Hlen, Hatt. simpl. unfold Leaflet.addLayer.
      simpl. set_solver.
  - right. exists e'. split_and!; [by right|done..| |done].
    pose proof (register_next_le r e). lia.
Qed.

Lemma detach_all_elem_of ls : ∀ (m : gset nat) n,
  n ∈ detach_all ls m ↔ n ∈ m ∧ n ∉ stamp <$> ls.
Proof.
  unfold detach_all. induction ls as [|l ls IH]; intros m n; simpl.
  - set_solver.
  - rewrite IH, not_elem_of_cons. unfold Leaflet.hasLayer, Leaflet.removeLayer.
    case_bool_decide; set_solver.
Qed.

End registry_facts.

Lemma group_step_NoDup category acc f acc' :
  group_step category acc f = Js.Ok acc' → NoDup acc.*1 → NoDup acc'.*1.
Proof.
  unfold group_step. destruct (negb _).
  - destruct (Js.get _ (Js.set _ _ _)); [|done].
    intros [= <-] Hnd. by do 2 apply set_NoDup.
  - destruct (Js.get _ acc); [|done]. intros [= <-] Hnd. by apply set_NoDup.
Qed.

Lemma group_loop_NoDup category fs : ∀ acc acc',
  group_loop (group_step category) acc fs = Js.Ok acc' →
  NoDup acc.*1 → NoDup acc'.*1.
Proof.
  induction fs as [|f fs IH]; intros acc acc'; simpl; [by intros [= <-]|].
  destruct (group_step category acc f) as [acc1|e] eqn:Hstep; [|done].
  intros Hrun Hnd. eapply IH; [done|]. by eapply group_step_NoDup.
Qed.

Section india_registry_facts.
Import IndiaLandUseMap.
Implicit Types (s : State) (bs : Js.object (list Feature)) (d : gmap string Element).

Lemma india_create_layer_registry k b s :
  india_registry (Js.exec (create_layer (k, b)) s)
  = register (india_registry s) (india_entry (document s) (k, b)).
Proof.
  unfold create_layer, register, india_entry, box_checked. simpl.
  destruct (0 <? length b); [|done]. eff.
  by destruct (document s !! ("layer-" +:+ k)) as [[[] ? ?]|].
Qed.

Lemma india_create_layer_box k b s id :
  box_checked (document (Js.exec (create_layer (k, b)) s)) id
  = box_checked (document s) id.
Proof.
  rewrite india_create_layer_document. unfold box_checked.
  destruct (0 <? length b); [|done].
  destruct (document s !! ("count-" +:+ k)) as [el|] eqn:Hel; [|done].
  destruct (decide (id = "count-" +:+ k)) as [->|Hne].
  - by rewrite lookup_insert_eq, Hel.
  - by rewrite lookup_insert_ne.
Qed.

Lemma india_for_each_registry bs : ∀ s d,
  (∀ id, box_checked (document s) id = box_checked d id) →
  india_registry (Js.exec (Js.for_each create_layer bs) s)
  = foldl register (india_registry s) (india_entry d <$> bs).
Proof.
  induction bs as [|[k b] bs IH]; intros s d Hd; [done|].
  rewrite for_each_exec_cons by apply india_create_layer_ok.
  rewrite (IH _ d) by (intros id; by rewrite india_create_layer_box).
  rewrite fmap_cons. cbn [foldl]. f_equal.
  rewrite india_create_layer_registry. unfold india_entry. simpl.
  by rewrite Hd.
Qed.

(** [processData] on the three fields: detach every registered layer,
    forget them all, then run the loop over the buckets (none when the
    payload makes the grouping throw). *)
Lemma india_processData_registry data s :
  ∃ bs, NoDup bs.*1
    ∧ (∀ fs, features data = Features fs → plain_categories class fs →
             ∀ k, Js.get k bs = classify class fs k)
    ∧ india_registry (Js.exec (processData data) s)
      = foldl register
          {| attached := detach_all (map_to_list (layers s)).*2 (map s);
             registered := ∅; next := next_stamp s |}
          (india_entry (document s) <$> bs).
Proof.
  unfold processData. rewrite (exec_bind _ _ tt) by reflexivity.
  set (s0 := Js.exec (Js.modify _) s).
  assert (india_registry s0
          = {| attached := detach_all (map_to_list (layers s)).*2 (map s);
               registered := ∅; next := next_stamp s |}) as Hs0 by reflexivity.
  assert (document s0 = document s) as Hd0 by reflexivity.
  clearbody s0. rewrite <-Hs0.
  unfold Js.exec at 1, Js.bind at 1, Js.lift at 1.
  destruct (features_forEach (features data)) as [fs|e] eqn:Hfs.
  - unfold Js.bind at 1, Js.lift at 1.
    destruct (group_loop (group_step class) [] fs) as [bs|e] eqn:Hbs.
    + exists bs. split_and!.
      * eapply group_loop_NoDup; [done|constructor].
      * intros fs' Hfs' Hplain. rewrite Hfs' in Hfs. injection Hfs as ->.
        destruct (group_loop_partition class fs Hplain) as (bs' & Hbs' & _ & Hget & _).
        rewrite Hbs in Hbs'. by injection Hbs' as ->.
      * apply india_for_each_registry. intros id. by rewrite Hd0.
    + exists []. split_and!; [constructor| |done].
      intros fs' Hfs' Hplain. rewrite Hfs' in Hfs. injection Hfs as ->.
      destruct (group_loop_partition class fs Hplain) as (bs' & Hbs' & _).
      congruence.
  - exists []. split_and!; [constructor| |done].
    intros fs' Hfs'. by rewrite Hfs' in Hfs.
Qed.

End india_registry_facts.

Section fra_registry_facts.
Import FRAWebGIS.
Implicit Types (s : State) (bs : Js.object (list Feature)) (d : gmap string Element).

Lemma fra_create_layer_registry k b s :
  fra_registry (Js.exec (create_layer (k, b)) s)
  = register (fra_registry s) (fra_entry (document s) (k, b)).
Proof.
  unfold create_layer, register, fra_entry, box_checked. simpl.
  destruct (0 <? length b); [|done]. eff.
  by destruct (document s !! ("layer-" +:+ toLowerCase k)) as [[[] ? ?]|].
Qed.

Lemma fra_for_each_registry bs : ∀ s d,
  document s = d →
  fra_registry (Js.exec (Js.for_each create_layer bs) s)
  = foldl register (fra_registry s) (fra_entry d <$> bs).
Proof.
  induction bs as [|[k b] bs IH]; intros s d Hd; [done|].
  rewrite for_each_exec_cons by apply fra_create_layer_ok.
  rewrite (IH _ d) by (by rewrite fra_create_layer_document).
  rewrite fmap_cons. cbn [foldl]. f_equal.
  by rewrite fra_create_layer_registry, Hd.
Qed.

Lemma fra_processClaimsData_registry data s :
  ∃ bs, NoDup bs.*1
    ∧ (∀ fs, features data = Features fs → plain_categories fra_type fs →
             ∀ k, Js.get k bs = classify fra_type fs k)
    ∧ fra_registry (Js.exec (processClaimsData data) s)
      = foldl register
          {| attached := detach_all (map_to_list (layers s)).*2 (map s);
             registered := ∅; next := next_stamp s |}
          (fra_entry (document s) <$> bs).
Proof.
  unfold processClaimsData. rewrite (exec_bind _ _ tt) by reflexivity.
  set (s0 := Js.exec (Js.modify _) s).
  assert (fra_registry s0
          = {| attached := detach_all (map_to_list (layers s)).*2 (map s);
               registered := ∅; next := next_stamp s |}) as Hs0 by reflexivity.
  assert (document s0 = document s) as Hd0 by reflexivity.
  clearbody s0. rewrite <-Hs0.
  unfold Js.exec at 1, Js.bind at 1, Js.lift at 1.
  destruct (features_forEach (features data)) as [fs|e] eqn:Hfs.
  - unfold Js.bind at 1, Js.lift at 1.
    destruct (group_loop (group_step fra_type) [] fs) as [bs|e] eqn:Hbs.
    + exists bs. split_and!.
      * eapply group_loop_NoDup; [done|constructor].
      * intros fs' Hfs' Hplain. rewrite Hfs' in Hfs. injection Hfs as ->.
        destruct (group_loop_partition fra_type fs Hplain)
          as (bs' & Hbs' & _ & Hget & _).
        rewrite Hbs in Hbs'. by injection Hbs' as ->.
      * by apply fra_for_each_registry.
    + exists []. split_and!; [constructor| |done].
      intros fs' Hfs' Hplain. rewrite Hfs' in Hfs. injection Hfs as ->.
      destruct (group_loop_partition fra_type fs Hplain) as (bs' & Hbs' & _).
      congruence.
  - exists []. split_and!; [constructor| |done].
    intros fs' Hfs'. by rewrite Hfs' in Hfs.
Qed.

End fra_registry_facts.

(** ** Invariants of the histories *)

Section invariant_facts.
Implicit Types (r : Registry) (e : Entry) (es : list Entry) (n : nat) (k : string).

Lemma register_attached_registered r e :
  registered r !! entry_key e = None →
  attached_are_registered r → attached_are_registered (register r e).
Proof.
  intros Hfree Hr. unfold register. destruct (0 <? _); [|done].
  intros n. simpl. intros Hn.
  assert (n = next r ∧ entry_attach e = true ∨ n ∈ attached r) as [[-> _]|Hold].
  { destruct (entry_attach e); [|by right].
    unfold Leaflet.addLayer in Hn. simpl in Hn. set_solver. }
  - eexists (entry_key e), _. by rewrite lookup_insert_eq.
  - destruct (Hr n Hold) as (k & l & Hl & Hs). exists k, l. split; [|done].
    rewrite lookup_insert_ne; [done|]. intros <-. congruence.
Qed.

Lemma foldl_register_attached_registered es : ∀ r,
  NoDup (entry_key <$> es) →
  (∀ e, e ∈ es → registered r !! entry_key e = None) →
  attached_are_registered r → attached_are_registered (foldl register r es).
Proof.
  induction es as [|e es IH]; intros r Hnd Hfree Hr; simpl; [done|].
  apply NoDup_cons in Hnd as [He Hnd].
  apply IH; [done| |apply register_attached_registered; [|done]].
  - intros e' He'. unfold register. destruct (0 <? _); simpl.
    + rewrite lookup_insert_ne; [apply Hfree; by right|].
      intros Heq. apply He. rewrite Heq. by apply list_elem_of_fmap_2.
    + apply Hfree. by right.
  - apply Hfree. by left.
Qed.

Lemma cleared_registry_sound (ls : gmap string Layer) (m : gset nat) n0 :
  attached_are_registered {| attached := m; registered := ls; next := n0 |} →
  detach_all (map_to_list ls).*2 m = ∅.
Proof.
  intros Hr. apply set_eq. intros n. rewrite detach_all_elem_of.
  split; [|set_solver]. intros [Hn Hout]. exfalso. apply Hout.
  destruct (Hr n Hn) as (k & l & Hl & <-). simpl in Hl.
  apply list_elem_of_fmap_2. apply list_elem_of_fmap. exists (k, l).
  split; [done|]. by apply elem_of_map_to_list.
Qed.

End invariant_facts.

Section india_consistency.
Import IndiaLandUseMap.
Implicit Types (s : State) (k : string).

Lemma india_for_each_box bs : ∀ s id,
  box_checked (document (Js.exec (Js.for_each create_layer bs) s)) id
  = box_checked (document s) id.
Proof.
  induction bs as [|[k b] bs IH]; intros s id; [done|].
  rewrite for_each_exec_cons by apply india_create_layer_ok.
  by rewrite IH, india_create_layer_box.
Qed.

Lemma india_processData_box data s id :
  box_checked (document (Js.exec (processData data) s)) id
  = box_checked (document s) id.
Proof.
  unfold processData. rewrite (exec_bind _ _ tt) by reflexivity.
  set (s0 := Js.exec (Js.modify _) s).
  assert (document s0 = document s) as Hd0 by reflexivity.
  clearbody s0. rewrite <-Hd0.
  unfold Js.exec at 1, Js.bind at 1, Js.lift at 1.
  destruct (features_forEach (features data)) as [fs|e]; [|done].
  unfold Js.bind at 1, Js.lift at 1.
  destruct (group_loop (group_step class) [] fs) as [bs|e]; [|done].
  apply india_for_each_box.
Qed.

Lemma india_entry_keys d (bs : Js.object (list Feature)) :
  entry_key <$> (india_entry d <$> bs) = bs.*1.
Proof. rewrite <-list_fmap_compose. by apply list_fmap_ext. Qed.

Lemma india_consistent_processData data s :
  india_consistent s → india_consistent (Js.exec (processData data) s).
Proof.
  intros (Hws & Hreg & Hdist & Hbox).
  destruct (india_processData_registry data s) as (bs & Hnd & _ & Hrun).
  rewrite (cleared_registry_sound _ _ (next_stamp s)) in Hrun by exact Hreg.
  assert (well_stamped {| attached := ∅; registered := ∅; next := next_stamp s |})
    as Hws0.
  { split; [intros k l Hl; simpl in Hl; by rewrite lookup_empty in Hl|].
    intros n Hn. simpl in Hn. set_solver. }
  assert (attached_are_registered
            {| attached := ∅; registered := ∅; next := next_stamp s |}) as Hreg0.
  { intros n Hn. simpl in Hn. set_solver. }
  set (r0 := {| attached := ∅; registered := ∅; next := next_stamp s |}) in *.
  unfold india_consistent. rewrite Hrun. split_and!.
  - by apply foldl_register_well_stamped.
  - apply foldl_register_attached_registered; [by rewrite india_entry_keys| |done].
    intros e _. apply lookup_empty.
  - apply india_processData_distinct_stamps.
  - intros k l Hl. rewrite india_processData_box.
    assert (map (Js.exec (processData data) s)
            = attached (india_registry (Js.exec (processData data) s))) as ->
      by reflexivity.
    assert (registered (india_registry (Js.exec (processData data) s)) !! k = Some l)
      as Hl' by exact Hl.
    rewrite Hrun in Hl' |- *.
    assert (NoDup (entry_key <$> (india_entry (document s) <$> bs))) as Hkeys
      by (by rewrite india_entry_keys).
    destruct (foldl_register_lookup _ r0 k l Hkeys Hws0 Hl')
      as [Hl0|(e & He & Hk & _ & _ & _ & _ & Hatt)];
      [simpl in Hl0; by rewrite lookup_empty in Hl0|].
    apply list_elem_of_fmap in He as ([k' b] & -> & _). simpl in Hk. subst k'.
    exact Hatt.
Qed.

Lemma india_consistent_frame s s' :
  india_registry s' = india_registry s →
  (∀ id, box_checked (document s') id = box_checked (document s) id) →
  india_consistent s → india_consistent s'.
Proof.
  intros Hr Hd (Hws & Hreg & Hdist & Hbox). unfold india_consistent.
  rewrite Hr.
  assert (layers s' = layers s) as -> by exact (f_equal registered Hr).
  assert (map s' = map s) as -> by exact (f_equal attached Hr).
  split_and!; [done..|]. intros k l Hl. rewrite Hd. by apply Hbox.
Qed.

Lemma india_updateFeatureCount_box n s id :
  box_checked (document (Js.exec (updateFeatureCount n) s)) id
  = box_checked (document s) id.
Proof.
  rewrite india_updateFeatureCount_document. unfold box_checked.
  destruct (document s !! "feature-count") as [el|] eqn:Hel; [|done].
  destruct (decide (id = "feature-count")) as [->|Hne].
  - by rewrite lookup_insert_eq, Hel.
  - by rewrite lookup_insert_ne.
Qed.

Lemma india_consistent_loadData_response response s :
  india_consistent s → india_consistent (Js.exec (loadData_response response) s).
Proof.
  intros Hs. unfold loadData_response, read_json, showError.
  destruct response as [|ok status [| |data]]; eff;
    try (by eapply india_consistent_frame; [| |exact Hs]).
  destruct (Js.truthy (error data)); simpl;
    [by eapply india_consistent_frame; [| |exact Hs]|].
  pose proof (india_consistent_processData data s Hs) as Hp.
  unfold Js.exec in Hp. destruct (processData data s) as [[[]|e] s1]; simpl in *.
  - unfold features_length. destruct (features data); simpl;
      try (by eapply india_consistent_frame; [| |exact Hp]).
    eapply india_consistent_frame; [| |exact Hp]; [done|].
    intros id. apply (india_updateFeatureCount_box (length fs) s1).
  - by eapply india_consistent_frame; [| |exact Hp].
Qed.

Lemma india_consistent_on_change k v s :
  india_consistent s → india_consistent (Js.exec (india_on_change k v) s).
Proof.
  intros (Hws & Hreg & Hdist & Hbox). unfold india_on_change, toggleLayer. eff.
  destruct (document s !! ("layer-" +:+ k)) as [box|] eqn:Hel; [|done]. simpl.
  assert (∀ k', k' ≠ k →
            box_checked (<["layer-" +:+ k := set_checked v box]> (document s))
              ("layer-" +:+ k')
            = box_checked (document s) ("layer-" +:+ k')) as Hother.
  { intros k' Hne. unfold box_checked. rewrite lookup_insert_ne; [done|].
    intros ?%prefixed_inj. congruence. }
  assert (box_checked (<["layer-" +:+ k := set_checked v box]> (document s))
            ("layer-" +:+ k) = v) as Hthis.
  { unfold box_checked. by rewrite lookup_insert_eq. }
  destruct (layers s !! k) as [l|] eqn:Hl; simpl.
  - destruct Hws as [Hbelow Hatt].
    destruct v; simpl; (split_and!; [split; [done|] | |done|]); simpl.
    + intros n. simpl. unfold Leaflet.addLayer. rewrite elem_of_union, elem_of_singleton.
      intros [->|Hn]; [by eapply Hbelow|by apply Hatt].
    + intros n. simpl. unfold Leaflet.addLayer. rewrite elem_of_union, elem_of_singleton.
      intros [->|Hn]; [by exists k, l|by apply Hreg].
    + intros k' l' Hl'. destruct (decide (k' = k)) as [->|Hne].
      * rewrite Hthis. rewrite Hl in Hl'. injection Hl' as <-.
        unfold Leaflet.addLayer. set_solver.
      * rewrite Hother by done. rewrite <-Hbox by done.
        unfold Leaflet.addLayer. rewrite elem_of_union, elem_of_singleton.
        split; [intros [Heq|?]; [|done]|by right].
        exfalso. apply Hne. by eapply Hdist.
    + intros n. simpl. unfold Leaflet.removeLayer. rewrite elem_of_difference.
      intros [Hn _]. by apply Hatt.
    + intros n. simpl. unfold Leaflet.removeLayer. rewrite elem_of_difference.
      intros [Hn _]. by apply Hreg.
    + intros k' l' Hl'. destruct (decide (k' = k)) as [->|Hne].
      * rewrite Hthis. rewrite Hl in Hl'. injection Hl' as <-.
        unfold Leaflet.removeLayer. set_solver.
      * rewrite Hother by done. rewrite <-Hbox by done.
        unfold Leaflet.removeLayer. rewrite elem_of_difference, elem_of_singleton.
        split; [by intros [? _]|intros Hn; split; [done|]].
        intros Heq. apply Hne. by eapply Hdist.
  - split_and!; [done..|]. intros k' l' Hl'. simpl in Hl' |- *.
    destruct (decide (k' = k)) as [->|Hne]; [congruence|].
    rewrite Hother by done. by apply Hbox.
Qed.

Lemma india_consistent_run history : ∀ s,
  india_consistent s → india_consistent (india_run history s).
Proof.
  unfold india_run. induction history as [|ev history IH]; intros s Hs; [done|].
  simpl. apply IH. destruct ev as [snapshot|response|k v]; simpl.
  - by eapply india_consistent_frame; [| |exact Hs].
  - by apply india_consistent_loadData_response.
  - by apply india_consistent_on_change.
Qed.

Lemma india_consistent_constructed page : india_consistent (india_constructed page).
Proof.
  split_and!.
  - split; [intros k l Hl; simpl in Hl; by rewrite lookup_empty in Hl|].
    intros n Hn. simpl in Hn. set_solver.
  - intros n Hn. simpl in Hn. set_solver.
  - intros k k' l l' Hl. simpl in Hl. by rewrite lookup_empty in Hl.
  - intros k l Hl. simpl in Hl. by rewrite lookup_empty in Hl.
Qed.

End india_consistency.

Section fra_consistency.
Import FRAWebGIS.
Implicit Types (s : State) (k : string).

Lemma fra_processClaimsData_document data s :
  document (Js.exec (processClaimsData data) s) = document s.
Proof.
  unfold processClaimsData. rewrite (exec_bind _ _ tt) by reflexivity.
  set (s0 := Js.exec (Js.modify _) s).
  assert (document s0 = document s) as Hd0 by reflexivity.
  clearbody s0. rewrite <-Hd0.
  unfold Js.exec at 1, Js.bind at 1, Js.lift at 1.
  destruct (features_forEach (features data)) as [fs|e]; [|done].
  unfold Js.bind at 1, Js.lift at 1.
  destruct (group_loop (group_step fra_type) [] fs) as [bs|e]; [|done].
  apply fra_for_each_document.
Qed.

Lemma fra_entry_keys d (bs : Js.object (list Feature)) :
  entry_key <$> (fra_entry d <$> bs) = bs.*1.
Proof. rewrite <-list_fmap_compose. by apply list_fmap_ext. Qed.

Lemma fra_consistent_processClaimsData data s :
  fra_consistent s → fra_consistent (Js.exec (processClaimsData data) s).
Proof.
  intros (Hws & Hreg & Hdist & Hbox).
  destruct (fra_processClaimsData_registry data s) as (bs & Hnd & _ & Hrun).
  rewrite (cleared_registry_sound _ _ (next_stamp s)) in Hrun by exact Hreg.
  assert (well_stamped {| attached := ∅; registered := ∅; next := next_stamp s |})
    as Hws0.
  { split; [intros k l Hl; simpl in Hl; by rewrite lookup_empty in Hl|].
    intros n Hn. simpl in Hn. set_solver. }
  assert (attached_are_registered
            {| attached := ∅; registered := ∅; next := next_stamp s |}) as Hreg0.
  { intros n Hn. simpl in Hn. set_solver. }
  set (r0 := {| attached := ∅; registered := ∅; next := next_stamp s |}) in *.
  unfold fra_consistent. rewrite Hrun. split_and!.
  - by apply foldl_register_well_stamped.
  - apply foldl_register_attached_registered; [by rewrite fra_entry_keys| |done].
    intros e _. apply lookup_empty.
  - apply fra_processClaimsData_distinct_stamps.
  - intros k l _ Hl. rewrite fra_processClaimsData_document.
    assert (map (Js.exec (processClaimsData data) s)
            = attached (fra_registry (Js.exec (processClaimsData data) s))) as ->
      by reflexivity.
    assert (registered (fra_registry (Js.exec (processClaimsData data) s)) !! k
            = Some l) as Hl' by exact Hl.
    rewrite Hrun in Hl' |- *.
    assert (NoDup (entry_key <$> (fra_entry (document s) <$> bs))) as Hkeys
      by (by rewrite fra_entry_keys).
    destruct (foldl_register_lookup _ r0 k l Hkeys Hws0 Hl')
      as [Hl0|(e & He & Hk & _ & _ & _ & _ & Hatt)];
      [simpl in Hl0; by rewrite lookup_empty in Hl0|].
    apply list_elem_of_fmap in He as ([k' b] & -> & _). simpl in Hk. subst k'.
    exact Hatt.
Qed.

Lemma fra_consistent_frame s s' :
  fra_registry s' = fra_registry s →
  (∀ id, box_checked (document s') id = box_checked (document s) id) →
  fra_consistent s → fra_consistent s'.
Proof.
  intros Hr Hd (Hws & Hreg & Hdist & Hbox). unfold fra_consistent.
  rewrite Hr.
  assert (layers s' = layers s) as -> by exact (f_equal registered Hr).
  assert (map s' = map s) as -> by exact (f_equal attached Hr).
  split_and!; [done..|]. intros k l Hk Hl. rewrite Hd. by apply Hbox.
Qed.

Lemma fra_updateFeatureCount_box n s id :
  box_checked (document (Js.exec (updateFeatureCount n) s)) id
  = box_checked (document s) id.
Proof.
  rewrite fra_updateFeatureCount_document. unfold box_checked.
  destruct (document s !! "feature-count") as [el|] eqn:Hel; [|done].
  destruct (decide (id = "feature-count")) as [->|Hne].
  - by rewrite lookup_insert_eq, Hel.
  - by rewrite lookup_insert_ne.
Qed.

Lemma fra_consistent_loadClaims_response response s :
  fra_consistent s → fra_consistent (Js.exec (loadClaims_response response) s).
Proof.
  intros Hs. unfold loadClaims_response, showError.
  destruct response as [|[] status [| |data]]; eff;
    try (by eapply fra_consistent_frame; [| |exact Hs]).
  destruct (Js.truthy (error data)); simpl;
    [by eapply fra_consistent_frame; [| |exact Hs]|].
  destruct (features data) as [| |fs] eqn:Hfs; simpl;
    try (by eapply fra_consistent_frame; [| |exact Hs]).
  pose proof (fra_consistent_processClaimsData data s Hs) as Hp.
  unfold Js.exec in Hp. eff.
  destruct (processClaimsData data s) as [[[]|e] s1]; simpl in *.
  - eapply fra_consistent_frame; [| |exact Hp]; [done|].
    intros id. apply (fra_updateFeatureCount_box (length fs) s1).
  - by eapply fra_consistent_frame; [| |exact Hp].
Qed.

Lemma fra_box_ids_differ k k' :
  k ∈ ["IFR"; "CFR"; "CR"] → k' ∈ ["IFR"; "CFR"; "CR"] → k' ≠ k →
  "layer-" +:+ toLowerCase k ≠ "layer-" +:+ toLowerCase k'.
Proof.
  intros Hk Hk' Hne.
  repeat (apply elem_of_cons in Hk as [->|Hk]);
    repeat (apply elem_of_cons in Hk' as [->|Hk']);
    try done; try (by apply elem_of_nil in Hk); by apply elem_of_nil in Hk'.
Qed.

Lemma fra_consistent_on_change k v s :
  fra_consistent s → fra_consistent (Js.exec (fra_on_change k v) s).
Proof.
  intros (Hws & Hreg & Hdist & Hbox). unfold fra_on_change.
  rewrite (exec_bind _ _ s) by reflexivity.
  change (Js.exec Js.get_state s) with s.
  case_bool_decide as Hk; [|done].
  destruct (document s !! ("layer-" +:+ toLowerCase k)) as [box|] eqn:Hel; [|done].
  rewrite (exec_bind _ _ tt) by reflexivity.
  set (s1 := Js.exec (Js.modify _) s).
  assert (fra_registry s1 = fra_registry s) as Hr1 by reflexivity.
  assert (document s1
          = <["layer-" +:+ toLowerCase k := set_checked v box]> (document s))
    as Hd1 by reflexivity.
  assert (layers s1 = layers s) as Hl1 by reflexivity.
  assert (map s1 = map s) as Hm1 by reflexivity.
  clearbody s1.
  assert (∀ k' l', k' ∈ ["IFR"; "CFR"; "CR"] → k' ≠ k →
            layers s1 !! k' = Some l' →
            stamp l' ∈ map s1
            ↔ box_checked (document s1) ("layer-" +:+ toLowerCase k') = true)
    as Hbox1.
  { intros k' l' Hk' Hne Hl'. rewrite Hd1, Hm1. rewrite Hl1 in Hl'.
    unfold box_checked. rewrite lookup_insert_ne by (by apply fra_box_ids_differ).
    by apply Hbox. }
  assert (box_checked (document s1) ("layer-" +:+ toLowerCase k) = v) as Hthis.
  { rewrite Hd1. unfold box_checked. by rewrite lookup_insert_eq. }
  rewrite <-Hr1 in Hws, Hreg. rewrite <-Hl1 in Hdist.
  clear Hbox Hr1 Hd1 Hl1 Hm1 Hel. destruct Hws as [Hbelow Hatt].
  unfold toggleLayer. eff.
  destruct (layers s1 !! k) as [l|] eqn:Hl; simpl.
  - assert (∀ k' l', k' ≠ k → layers s1 !! k' = Some l' → stamp l' ≠ stamp l)
      as Hstamp.
    { intros k' l' Hne Hl' Heq. apply Hne. by eapply Hdist. }
    destruct v, (Leaflet.hasLayer (map s1) l) eqn:Hhas; simpl;
      (split_and!; [split; [done|] | |done|]); simpl.
    all: try (unfold attached_are_registered; simpl;
              match goal with
              | |- ∀ n : nat, n ∈ _ → _ =>
                  intros n; unfold Leaflet.addLayer, Leaflet.removeLayer;
                  rewrite ?elem_of_union, ?elem_of_difference, ?elem_of_singleton
              end).
    all: try apply bool_decide_eq_true_1 in Hhas.
    all: try apply bool_decide_eq_false_1 in Hhas.
    + by apply Hatt.
    + by apply Hreg.
    + intros k' l' Hk' Hl'. destruct (decide (k' = k)) as [->|Hne].
      * rewrite Hthis. rewrite Hl in Hl'. by injection Hl' as <-.
      * by apply Hbox1.
    + intros [->|Hn]; [by eapply Hbelow|by apply Hatt].
    + intros [->|Hn]; [by exists k, l|by apply Hreg].
    + intros k' l' Hk' Hl'. destruct (decide (k' = k)) as [->|Hne].
      * rewrite Hthis. rewrite Hl in Hl'. injection Hl' as <-.
        unfold Leaflet.addLayer. set_solver.
      * rewrite <-Hbox1 by done.
        unfold Leaflet.addLayer. rewrite elem_of_union, elem_of_singleton.
        split; [intros [Heq|?]; [|done]|by right].
        exfalso. by eapply Hstamp.
    + intros [Hn _]. by apply Hatt.
    + intros [Hn _]. by apply Hreg.
    + intros k' l' Hk' Hl'. destruct (decide (k' = k)) as [->|Hne].
      * rewrite Hthis. rewrite Hl in Hl'. injection Hl' as <-.
        unfold Leaflet.removeLayer. set_solver.
      * rewrite <-Hbox1 by done.
        unfold Leaflet.removeLayer. rewrite elem_of_difference, elem_of_singleton.
        split; [by intros [? _]|intros Hn; split; [done|]].
        by eapply Hstamp.
    + by apply Hatt.
    + by apply Hreg.
    + intros k' l' Hk' Hl'. destruct (decide (k' = k)) as [->|Hne].
      * rewrite Hthis. rewrite Hl in Hl'. by injection Hl' as <-.
      * by apply Hbox1.
  - split_and!; [done..|]. intros k' l' Hk' Hl'.
    destruct (decide (k' = k)) as [->|Hne]; [congruence|].
    by apply Hbox1.
Qed.

Lemma fra_consistent_run history : ∀ s,
  fra_consistent s → fra_consistent (fra_run history s).
Proof.
  unfold fra_run. induction history as [|ev history IH]; intros s Hs; [done|].
  simpl. apply IH. destruct ev as [snapshot|response|k v]; simpl.
  - by eapply fra_consistent_frame; [| |exact Hs].
  - by apply fra_consistent_loadClaims_response.
  - by apply fra_consistent_on_change.
Qed.

Lemma fra_consistent_constructed page : fra_consistent (fra_constructed page).
Proof.
  split_and!.
  - split; [intros k l Hl; simpl in Hl; by rewrite lookup_empty in Hl|].
    intros n Hn. simpl in Hn. set_solver.
  - intros n Hn. simpl in Hn. set_solver.
  - intros k k' l l' Hl. simpl in Hl. by rewrite lookup_empty in Hl.
  - intros k l _ Hl. simpl in Hl. by rewrite lookup_empty in Hl.
Qed.

End fra_consistency.

(** ** The invariants and the counts, stated on the scripts *)

(** X4. In every state the India script or the FRA script reaches from its
    construction (reloads started, responses arriving in any order and of
    any kind, layer check boxes set), every layer on the map is a layer
    registered in [this.layers], and the layers registered for different
    categories are different layers: no layer of replaced data stays on the
    map. *)
Theorem map_holds_registered_layers_only
    (page : gmap string Element) (history : list Event) :
  (let s := india_run history (india_constructed page) in
   attached_are_registered (india_registry s)
   ∧ distinct_stamps (IndiaLandUseMap.layers s))
  ∧ (let s := fra_run history (fra_constructed page) in
     attached_are_registered (fra_registry s)
     ∧ distinct_stamps (FRAWebGIS.layers s)).
Proof.
  split.
  - destruct (india_consistent_run history _ (india_consistent_constructed page))
      as (_ & ? & ? & _). done.
  - destruct (fra_consistent_run history _ (fra_consistent_constructed page))
      as (_ & ? & ? & _). done.
Qed.



Section count_facts.





End count_facts.



(** ** The filter forms *)

Lemma remove_empty_lookup (filters : gmap string string) k :
  FRAWebGIS.remove_empty_filters filters !! k
  = match filters !! k with
    | Some v => if Js.truthy (Js.Str v) then Some v else None
    | None => None
    end.
Proof.
  unfold FRAWebGIS.remove_empty_filters. rewrite map_lookup_filter.
  destruct (filters !! k) as [v|]; simpl; [|done].
  case_guard as Hv; destruct (String.eqb v ""); simpl in *; done.
Qed.

Lemma inputs_present_lookup fields d name id :
  inputs_present fields d → (name, id) ∈ fields → is_Some (d !! id).
Proof.
  unfold inputs_present. rewrite Forall_forall. intros Hall Hin.
  apply Hall. apply list_elem_of_fmap. by exists (name, id).
Qed.

Ltac present H name id :=
  let el := fresh "el" in
  let Hel := fresh "Hel" in
  destruct (inputs_present_lookup _ _ name id H) as [el Hel];
    [cbv [FRAWebGISForm.filter_fields IndiaLandUseMapForm.filter_fields];
     set_solver|];
  rewrite ?Hel.

Lemma fra_applyFilters_run s :
  inputs_present FRAWebGISForm.filter_fields (FRAWebGIS.document s) →
  ∃ snapshot,
    (∀ name, snapshot !! name
             = snapshot_entry FRAWebGISForm.filter_fields (FRAWebGIS.document s) name)
    ∧ FRAWebGIS.applyFilters s
      = (Js.Ok tt,
         FRAWebGIS.set_requests
           (λ l, l ++ [{| path := "/api/claims"; query := snapshot |}])
           (FRAWebGIS.set_currentFilters snapshot s)).
Proof.
  intros Hall. unfold FRAWebGIS.applyFilters, FRAWebGIS.input_value,
    FRAWebGIS.loadClaims_request. eff.
  present Hall "state" "state-filter". present Hall "district" "district-filter".
  present Hall "village" "village-filter". present Hall "fra_type" "fra-type-filter".
  present Hall "status" "status-filter".
  present Hall "tribal_community" "tribal-filter".
  present Hall "claim_area_min" "area-min".
  present Hall "claim_area_max" "area-max". simpl.
  eexists. split; [|reflexivity].
  intros name. rewrite remove_empty_lookup.
  unfold snapshot_entry, FRAWebGISForm.filter_fields. rewrite !get_cons.
  rewrite !lookup_insert, lookup_empty. simpl.
  repeat match goal with
         | |- context [decide (name = ?k)] =>
             destruct (decide (name = k)) as [->|?];
               [repeat case_decide; try congruence;
                by rewrite ?Hel, ?Hel0, ?Hel1, ?Hel2, ?Hel3, ?Hel4, ?Hel5, ?Hel6
               |rewrite (decide_False (P := k = name)) by congruence]
         end.
  done.
Qed.

Lemma india_applyFilters_run s :
  inputs_present IndiaLandUseMapForm.filter_fields (IndiaLandUseMap.document s) →
  ∃ snapshot,
    (∀ name, snapshot !! name
             = snapshot_entry IndiaLandUseMapForm.filter_fields
                 (IndiaLandUseMap.document s) name)
    ∧ IndiaLandUseMapForm.applyFilters s
      = (Js.Ok tt,
         IndiaLandUseMap.set_requests
           (λ l, l ++ [{| path := "/api/data"; query := snapshot |}])
           (IndiaLandUseMap.set_currentFilters snapshot s)).
Proof.
  intros Hall. unfold IndiaLandUseMapForm.applyFilters,
    IndiaLandUseMapForm.input_value, IndiaLandUseMap.loadData_request. eff.
  present Hall "state" "state-filter". present Hall "district" "district-filter".
  present Hall "village" "village-filter".
  present Hall "tribal_group" "tribal-filter".
  present Hall "class" "class-filter".
  present Hall "fra_type" "fra-type-filter".
  present Hall "claim_status" "status-filter". simpl.
  eexists. split; [|reflexivity].
  intros name. rewrite remove_empty_lookup.
  unfold snapshot_entry, IndiaLandUseMapForm.filter_fields. rewrite !get_cons.
  rewrite !lookup_insert, lookup_empty. simpl.
  repeat match goal with
         | |- context [decide (name = ?k)] =>
             destruct (decide (name = k)) as [->|?];
               [repeat case_decide; try congruence;
                by rewrite ?Hel, ?Hel0, ?Hel1, ?Hel2, ?Hel3, ?Hel4, ?Hel5
               |rewrite (decide_False (P := k = name)) by congruence]
         end.
  done.
Qed.

Lemma snapshot_entry_non_empty fields d name v :
  snapshot_entry fields d name = Some v → v ≠ "".
Proof.
  unfold snapshot_entry. destruct (Js.get name fields) as [id|]; [|done].
  destruct (d !! id) as [el|]; [|done]. simpl.
  destruct (String.eqb_spec (value el) ""); simpl; [done|]. by intros [= <-].
Qed.

(** X7. With its inputs on the page, [applyFilters] stores as
    [currentFilters] exactly the non-empty values of the form, each under the
    query name of its input (the tribal input goes under [tribal_community]
    in the FRA script and under [tribal_group] in the India script, the
    status input under [status] and [claim_status]); the reload it starts
    carries that snapshot as its query, and so does an export started next. *)
Theorem applyFilters_stores_the_form :
  (∀ s, inputs_present FRAWebGISForm.filter_fields (FRAWebGIS.document s) →
     let s' := Js.exec FRAWebGIS.applyFilters s in
     (FRAWebGIS.applyFilters s).1 = Js.Ok tt
     ∧ (∀ name, FRAWebGIS.currentFilters s' !! name
                = snapshot_entry FRAWebGISForm.filter_fields
                    (FRAWebGIS.document s) name)
     ∧ FRAWebGIS.requests s'
       = FRAWebGIS.requests s
         ++ [{| path := "/api/claims"; query := FRAWebGIS.currentFilters s' |}]
     ∧ FRAWebGIS.requests (Js.exec FRAWebGISForm.exportData_request s')
       = FRAWebGIS.requests s'
         ++ [{| path := "/api/export"; query := FRAWebGIS.currentFilters s' |}])
  ∧ (∀ s, inputs_present IndiaLandUseMapForm.filter_fields
            (IndiaLandUseMap.document s) →
     let s' := Js.exec IndiaLandUseMapForm.applyFilters s in
     (IndiaLandUseMapForm.applyFilters s).1 = Js.Ok tt
     ∧ (∀ name, IndiaLandUseMap.currentFilters s' !! name
                = snapshot_entry IndiaLandUseMapForm.filter_fields
                    (IndiaLandUseMap.document s) name)
     ∧ IndiaLandUseMap.requests s'
       = IndiaLandUseMap.requests s
         ++ [{| path := "/api/data"; query := IndiaLandUseMap.currentFilters s' |}]
     ∧ IndiaLandUseMap.requests (Js.exec IndiaLandUseMapForm.exportData_request s')
       = IndiaLandUseMap.requests s'
         ++ [{| path := "/api/export";
                query := IndiaLandUseMap.currentFilters s' |}]).
Proof.
  split.
  - intros s Hall. destruct (fra_applyFilters_run s Hall) as (snapshot & Hsnap & Hrun).
    cbv zeta. assert (Js.exec FRAWebGIS.applyFilters s = _) as ->
      by (unfold Js.exec; by rewrite Hrun).
    rewrite Hrun. by split_and!.
  - intros s Hall.
    destruct (india_applyFilters_run s Hall) as (snapshot & Hsnap & Hrun).
    cbv zeta. assert (Js.exec IndiaLandUseMapForm.applyFilters s = _) as ->
      by (unfold Js.exec; by rewrite Hrun).
    rewrite Hrun. by split_and!.
Qed.

Lemma applyFilters_stores_the_form_witness :
  let s := india_constructed (india_form_page "Telangana" "Gond" "") in
  let s' := Js.exec IndiaLandUseMapForm.applyFilters s in
  IndiaLandUseMap.currentFilters s' !! "tribal_group" = Some "Gond"
  ∧ IndiaLandUseMap.currentFilters s' !! "claim_status" = None.
Proof.
  intros s s'.
  assert (inputs_present IndiaLandUseMapForm.filter_fields (IndiaLandUseMap.document s))
    as Hall.
  { unfold inputs_present. simpl.
    repeat (apply Forall_cons; split; [vm_compute; eexists; reflexivity|]).
    constructor. }
  destruct (proj2 applyFilters_stores_the_form s Hall) as (_ & Hsnap & _).
  split; (etrans; [apply Hsnap|by vm_compute]).
Defined.

(** Runs through the nested look-ups of a form method: each look-up is
    destructed in turn; a missing element ends the run by [tac]. *)
Ltac walk_inputs tac :=
  repeat match goal with
         | |- context [match ?d !! ?id with Some _ => _ | None => _ end] =>
             let Hel := fresh "Hel" in
             destruct (d !! id) eqn:Hel; simpl; [|tac]
         end.

Ltac settle_inputs :=
  repeat match goal with
         | H : <[_ := _]> _ !! _ = Some _ |- _ =>
             rewrite lookup_insert_ne in H by done
         end.

Lemma fra_applyFilters_missing s :
  ¬ inputs_present FRAWebGISForm.filter_fields (FRAWebGIS.document s) →
  ∃ message, FRAWebGIS.applyFilters s = (Js.Throw (Js.TypeError message), s).
Proof.
  intros Hmissing. unfold FRAWebGIS.applyFilters, FRAWebGIS.input_value. eff.
  walk_inputs ltac:(by eexists).
  exfalso. apply Hmissing. unfold inputs_present. simpl.
  rewrite !Forall_cons. split_and!; first [by eauto | constructor].
Qed.

Lemma india_applyFilters_missing s :
  ¬ inputs_present IndiaLandUseMapForm.filter_fields (IndiaLandUseMap.document s) →
  ∃ message,
    IndiaLandUseMapForm.applyFilters s = (Js.Throw (Js.TypeError message), s).
Proof.
  intros Hmissing. unfold IndiaLandUseMapForm.applyFilters,
    IndiaLandUseMapForm.input_value. eff.
  walk_inputs ltac:(by eexists).
  exfalso. apply Hmissing. unfold inputs_present. simpl.
  rewrite !Forall_cons. split_and!; first [by eauto | constructor].
Qed.

Lemma fra_clearFilters_missing s :
  ¬ inputs_present FRAWebGISForm.filter_fields (FRAWebGIS.document s) →
  ∃ message s',
    FRAWebGISForm.clearFilters s = (Js.Throw (Js.TypeError message), s')
    ∧ FRAWebGIS.currentFilters s' = FRAWebGIS.currentFilters s
    ∧ FRAWebGIS.requests s' = FRAWebGIS.requests s.
Proof.
  intros Hmissing. unfold FRAWebGISForm.clearFilters, FRAWebGISForm.set_input_value.
  eff. walk_inputs ltac:(by eexists _, _).
  settle_inputs.
  exfalso. apply Hmissing. unfold inputs_present. simpl.
  rewrite !Forall_cons. split_and!; first [by eauto | constructor].
Qed.

Lemma india_clearFilters_missing s :
  ¬ inputs_present IndiaLandUseMapForm.filter_fields (IndiaLandUseMap.document s) →
  ∃ message s',
    IndiaLandUseMapForm.clearFilters s = (Js.Throw (Js.TypeError message), s')
    ∧ IndiaLandUseMap.currentFilters s' = IndiaLandUseMap.currentFilters s
    ∧ IndiaLandUseMap.requests s' = IndiaLandUseMap.requests s.
Proof.
  intros Hmissing. unfold IndiaLandUseMapForm.clearFilters,
    IndiaLandUseMapForm.set_input_value.
  eff. walk_inputs ltac:(by eexists _, _).
  settle_inputs.
  exfalso. apply Hmissing. unfold inputs_present. simpl.
  rewrite !Forall_cons. split_and!; first [by eauto | constructor].
Qed.

(** X8. When one of the inputs of the filter form is not on the page,
    [applyFilters] throws on reading it and has changed nothing, and
    [clearFilters] throws on writing it before it gets to forget the filters:
    [currentFilters] is what it was and no reload is started. *)
Theorem filter_form_needs_every_input :
  (∀ s, ¬ inputs_present FRAWebGISForm.filter_fields (FRAWebGIS.document s) →
     (∃ message, FRAWebGIS.applyFilters s = (Js.Throw (Js.TypeError message), s))
     ∧ ∃ message s',
         FRAWebGISForm.clearFilters s = (Js.Throw (Js.TypeError message), s')
         ∧ FRAWebGIS.currentFilters s' = FRAWebGIS.currentFilters s
         ∧ FRAWebGIS.requests s' = FRAWebGIS.requests s)
  ∧ (∀ s, ¬ inputs_present IndiaLandUseMapForm.filter_fields
              (IndiaLandUseMap.document s) →
     (∃ message,
        IndiaLandUseMapForm.applyFilters s = (Js.Throw (Js.TypeError message), s))
     ∧ ∃ message s',
         IndiaLandUseMapForm.clearFilters s = (Js.Throw (Js.TypeError message), s')
         ∧ IndiaLandUseMap.currentFilters s' = IndiaLandUseMap.currentFilters s
         ∧ IndiaLandUseMap.requests s' = IndiaLandUseMap.requests s).
Proof.
  split; intros s Hmissing; split;
    auto using fra_applyFilters_missing, india_applyFilters_missing,
      fra_clearFilters_missing, india_clearFilters_missing.
Qed.

Lemma filter_form_needs_every_input_witness :
  ∃ message,
    IndiaLandUseMapForm.applyFilters (india_constructed india_page)
    = (Js.Throw (Js.TypeError message), india_constructed india_page).
Proof.
  apply (proj2 filter_form_needs_every_input (india_constructed india_page)).
  unfold inputs_present. simpl. rewrite Forall_cons. intros [[el Hel] _].
  by vm_compute in Hel.
Defined.

Lemma snapshot_entry_cleared fields d name :
  (∀ n id, (n, id) ∈ fields → value <$> d !! id = Some "") →
  NoDup fields.*1 →
  snapshot_entry fields d name = None.
Proof.
  intros Hcleared Hnd. unfold snapshot_entry.
  destruct (Js.get name fields) as [id|] eqn:Hget; [|done].
  apply get_Some_elem_of in Hget; [|done].
  specialize (Hcleared _ _ Hget). destruct (d !! id) as [el|]; [|done].
  simpl in Hcleared. injection Hcleared as ->. done.
Qed.

Lemma inputs_present_id fields d id :
  inputs_present fields d → id ∈ fields.*2 → is_Some (d !! id).
Proof. unfold inputs_present. rewrite Forall_forall. auto. Qed.

(** A look-up that the form is known to answer cannot come back empty. *)
Ltac input_is_present Hall :=
  exfalso;
  match goal with
  | H : _ !! ?id = None |- _ =>
      rewrite ?lookup_insert_ne in H by done;
      destruct (inputs_present_id _ _ id Hall
                  ltac:(cbv [FRAWebGISForm.filter_fields
                             IndiaLandUseMapForm.filter_fields]; simpl;
                        set_solver))
        as [? ?]; congruence
  end.

Lemma fra_clearFilters_run s :
  inputs_present FRAWebGISForm.filter_fields (FRAWebGIS.document s) →
  ∃ d,
    (∀ n id, (n, id) ∈ FRAWebGISForm.filter_fields → value <$> d !! id = Some "")
    ∧ (∀ id, id ∉ FRAWebGISForm.filter_fields.*2 → d !! id = FRAWebGIS.document s !! id)
    ∧ FRAWebGISForm.clearFilters s
      = (Js.Ok tt,
         FRAWebGIS.set_requests
           (λ l, l ++ [{| path := "/api/claims"; query := ∅ |}])
           (FRAWebGIS.set_currentFilters ∅ (FRAWebGIS.set_document (λ _, d) s))).
Proof.
  intros Hall. unfold FRAWebGISForm.clearFilters, FRAWebGISForm.set_input_value,
    FRAWebGIS.loadClaims_request. eff.
  walk_inputs ltac:(input_is_present Hall).
  eexists. split_and!; [| |reflexivity].
  - intros n id Hin. cbv [FRAWebGISForm.filter_fields] in Hin. simpl.
    repeat (apply elem_of_cons in Hin as [[= -> ->]|Hin];
            [rewrite ?lookup_insert_ne by done; by rewrite lookup_insert_eq|]).
    by apply elem_of_nil in Hin.
  - intros id Hid. cbv [FRAWebGISForm.filter_fields] in Hid. simpl in Hid.
    rewrite !not_elem_of_cons in Hid. simpl.
    rewrite !lookup_insert_ne by naive_solver. done.
Qed.

Lemma india_clearFilters_run s :
  inputs_present IndiaLandUseMapForm.filter_fields (IndiaLandUseMap.document s) →
  ∃ d,
    (∀ n id, (n, id) ∈ IndiaLandUseMapForm.filter_fields →
       value <$> d !! id = Some "")
    ∧ (∀ id, id ∉ IndiaLandUseMapForm.filter_fields.*2 →
         d !! id = IndiaLandUseMap.document s !! id)
    ∧ IndiaLandUseMapForm.clearFilters s
      = (Js.Ok tt,
         IndiaLandUseMap.set_requests
           (λ l, l ++ [{| path := "/api/data"; query := ∅ |}])
           (IndiaLandUseMap.set_currentFilters ∅
              (IndiaLandUseMap.set_document (λ _, d) s))).
Proof.
  intros Hall. unfold IndiaLandUseMapForm.clearFilters,
    IndiaLandUseMapForm.set_input_value, IndiaLandUseMap.loadData_request. eff.
  walk_inputs ltac:(input_is_present Hall).
  eexists. split_and!; [| |reflexivity].
  - intros n id Hin. cbv [IndiaLandUseMapForm.filter_fields] in Hin. simpl.
    repeat (apply elem_of_cons in Hin as [[= -> ->]|Hin];
            [rewrite ?lookup_insert_ne by done; by rewrite lookup_insert_eq|]).
    by apply elem_of_nil in Hin.
  - intros id Hid. cbv [IndiaLandUseMapForm.filter_fields] in Hid. simpl in Hid.
    rewrite !not_elem_of_cons in Hid. simpl.
    rewrite !lookup_insert_ne by naive_solver. done.
Qed.

Lemma cleared_inputs_present fields d :
  (∀ n id, (n, id) ∈ fields → value <$> d !! id = Some "") →
  inputs_present fields d.
Proof.
  intros Hcleared. unfold inputs_present. rewrite Forall_forall.
  intros id [[n id'] [-> Hin]]%list_elem_of_fmap. simpl.
  specialize (Hcleared _ _ Hin). by destruct (d !! id').
Qed.

Lemma snapshot_of_cleared_form fields d (snapshot : gmap string string) :
  (∀ n id, (n, id) ∈ fields → value <$> d !! id = Some "") →
  NoDup fields.*1 →
  (∀ name, snapshot !! name = snapshot_entry fields d name) →
  snapshot = ∅.
Proof.
  intros Hcleared Hnd Hsnap. apply map_empty. intros name.
  rewrite Hsnap. by apply snapshot_entry_cleared.
Qed.

(** X9. With its inputs on the page, [clearFilters] empties every input of
    the form and nothing else on the page, forgets the filters and starts a
    reload without a query; the map and the layers stay as they are, and an
    [applyFilters] that follows finds nothing to filter by. *)
Theorem clearFilters_resets_the_form :
  (∀ s, inputs_present FRAWebGISForm.filter_fields (FRAWebGIS.document s) →
     ∃ s', FRAWebGISForm.clearFilters s = (Js.Ok tt, s')
       ∧ FRAWebGIS.currentFilters s' = ∅
       ∧ FRAWebGIS.requests s'
         = FRAWebGIS.requests s ++ [{| path := "/api/claims"; query := ∅ |}]
       ∧ (∀ name id, (name, id) ∈ FRAWebGISForm.filter_fields →
            value <$> FRAWebGIS.document s' !! id = Some "")
       ∧ (∀ id, id ∉ FRAWebGISForm.filter_fields.*2 →
            FRAWebGIS.document s' !! id = FRAWebGIS.document s !! id)
       ∧ FRAWebGIS.map s' = FRAWebGIS.map s
       ∧ FRAWebGIS.layers s' = FRAWebGIS.layers s
       ∧ (FRAWebGIS.applyFilters s').1 = Js.Ok tt
       ∧ FRAWebGIS.currentFilters (Js.exec FRAWebGIS.applyFilters s') = ∅)
  ∧ (∀ s, inputs_present IndiaLandUseMapForm.filter_fields
            (IndiaLandUseMap.document s) →
     ∃ s', IndiaLandUseMapForm.clearFilters s = (Js.Ok tt, s')
       ∧ IndiaLandUseMap.currentFilters s' = ∅
       ∧ IndiaLandUseMap.requests s'
         = IndiaLandUseMap.requests s ++ [{| path := "/api/data"; query := ∅ |}]
       ∧ (∀ name id, (name, id) ∈ IndiaLandUseMapForm.filter_fields →
            value <$> IndiaLandUseMap.document s' !! id = Some "")
       ∧ (∀ id, id ∉ IndiaLandUseMapForm.filter_fields.*2 →
            IndiaLandUseMap.document s' !! id = IndiaLandUseMap.document s !! id)
       ∧ IndiaLandUseMap.map s' = IndiaLandUseMap.map s
       ∧ IndiaLandUseMap.layers s' = IndiaLandUseMap.layers s
       ∧ (IndiaLandUseMapForm.applyFilters s').1 = Js.Ok tt
       ∧ IndiaLandUseMap.currentFilters
           (Js.exec IndiaLandUseMapForm.applyFilters s') = ∅).
Proof.
  split.
  - intros s Hall. destruct (fra_clearFilters_run s Hall) as (d & Hd & Hother & Hrun).
    eexists. split; [exact Hrun|]. split_and!; try done.
    all: destruct (fra_applyFilters_run
                     (FRAWebGIS.set_requests
                        (λ l, l ++ [{| path := "/api/claims"; query := ∅ |}])
                        (FRAWebGIS.set_currentFilters ∅
                           (FRAWebGIS.set_document (λ _, d) s))))
           as (snapshot & Hsnap & Hrun'); [by apply cleared_inputs_present|].
    + by rewrite Hrun'.
    + unfold Js.exec. rewrite Hrun'. simpl.
      apply (snapshot_of_cleared_form FRAWebGISForm.filter_fields d); [done| |done].
      by apply (bool_decide_unpack _); vm_compute.
  - intros s Hall.
    destruct (india_clearFilters_run s Hall) as (d & Hd & Hother & Hrun).
    eexists. split; [exact Hrun|]. split_and!; try done.
    all: destruct (india_applyFilters_run
                     (IndiaLandUseMap.set_requests
                        (λ l, l ++ [{| path := "/api/data"; query := ∅ |}])
                        (IndiaLandUseMap.set_currentFilters ∅
                           (IndiaLandUseMap.set_document (λ _, d) s))))
           as (snapshot & Hsnap & Hrun'); [by apply cleared_inputs_present|].
    + by rewrite Hrun'.
    + unfold Js.exec. rewrite Hrun'. simpl.
      apply (snapshot_of_cleared_form IndiaLandUseMapForm.filter_fields d);
        [done| |done].
      by apply (bool_decide_unpack _); vm_compute.
Qed.

Lemma clearFilters_resets_the_form_witness :
  let s := fra_constructed (fra_page "Odisha" "Koraput" "Approved") in
  ∃ s', FRAWebGISForm.clearFilters s = (Js.Ok tt, s')
    ∧ FRAWebGIS.currentFilters s' = ∅
    ∧ value <$> FRAWebGIS.document s' !! "state-filter" = Some "".
Proof.
  intros s.
  assert (inputs_present FRAWebGISForm.filter_fields (FRAWebGIS.document s)) as Hall.
  { unfold inputs_present. simpl.
    repeat (apply Forall_cons; split; [vm_compute; eexists; reflexivity|]).
    constructor. }
  destruct (proj1 clearFilters_resets_the_form s Hall)
    as (s' & Hrun & Hfilters & _ & Hvalues & _).
  exists s'. split_and!; [done..|].
  apply (Hvalues "state"). cbv [FRAWebGISForm.filter_fields]. set_solver.
Defined.

(** ** LandUseMap: showing and hiding all layers, building the layers *)

Section landuse_all_layers.
Import LandUseMap.
Implicit Types (s : State) (k : string) (m : gset nat)
  (ls : list (option Layer)).

Lemma foldl_addLayer_elem_of ls : ∀ m n,
  n ∈ foldl (λ m layer, match layer with
                        | Some l => Leaflet.addLayer m l
                        | None => m
                        end) m ls
  ↔ n ∈ m ∨ ∃ l, Some l ∈ ls ∧ stamp l = n.
Proof.
  induction ls as [|[l0|] ls IH]; intros m n; simpl.
  - split; [by left|]. intros [?|(l & Hl & _)]; [done|]. by apply elem_of_nil in Hl.
  - rewrite IH. unfold Leaflet.addLayer. rewrite elem_of_union, elem_of_singleton.
    split.
    + intros [[->|?]|(l & Hl & <-)]; [right; exists l0; split; [by left|done]
                                     |by left|].
      right. exists l. split; [by right|done].
    + intros [?|(l & Hl & <-)]; [by left; right|].
      apply elem_of_cons in Hl as [[= ->]|Hl]; [by left; left|].
      right. by exists l.
  - rewrite IH. split.
    + intros [?|(l & Hl & <-)]; [by left|]. right. exists l. split; [by right|done].
    + intros [?|(l & Hl & <-)]; [by left|].
      apply elem_of_cons in Hl as [[=]|Hl]. right. by exists l.
Qed.

Lemma foldl_removeLayer_elem_of ls : ∀ m n,
  n ∈ foldl (λ m layer, match layer with
                        | Some l => Leaflet.removeLayer m l
                        | None => m
                        end) m ls
  ↔ n ∈ m ∧ ∀ l, Some l ∈ ls → stamp l ≠ n.
Proof.
  induction ls as [|[l0|] ls IH]; intros m n; simpl.
  - split; [|by intros [? _]]. intros ?. split; [done|].
    intros l Hl. by apply elem_of_nil in Hl.
  - rewrite IH. unfold Leaflet.removeLayer.
    rewrite elem_of_difference, not_elem_of_singleton. split.
    + intros [[Hn Hne] Hls]. split; [done|]. intros l Hl.
      apply elem_of_cons in Hl as [[= ->]|Hl]; [done|]. by apply Hls.
    + intros [Hn Hls]. split_and!; [done| |].
      * intros ->. by apply (Hls l0); [left|].
      * intros l Hl. apply Hls. by right.
  - rewrite IH. split.
    + intros [Hn Hls]. split; [done|]. intros l Hl.
      apply elem_of_cons in Hl as [[=]|Hl]. by apply Hls.
    + intros [Hn Hls]. split; [done|]. intros l Hl. apply Hls. by right.
Qed.

Lemma layer_values_elem_of (ls : gmap string (option Layer)) l :
  Some l ∈ (map_to_list ls).*2 ↔ ∃ k, ls !! k = Some (Some l).
Proof.
  rewrite list_elem_of_fmap. split.
  - intros [[k v] [Hv Hin]]. simpl in Hv. subst v.
    exists k. by apply elem_of_map_to_list.
  - intros [k Hk]. exists (k, Some l). split; [done|]. by apply elem_of_map_to_list.
Qed.

Lemma landuse_showAllLayers_map s n :
  n ∈ map (Js.exec showAllLayers s)
  ↔ n ∈ map s ∨ ∃ k l, layers s !! k = Some (Some l) ∧ stamp l = n.
Proof.
  unfold showAllLayers. eff. rewrite foldl_addLayer_elem_of.
  setoid_rewrite layer_values_elem_of. naive_solver.
Qed.

Lemma landuse_hideAllLayers_map s n :
  n ∈ map (Js.exec hideAllLayers s)
  ↔ n ∈ map s ∧ ∀ k l, layers s !! k = Some (Some l) → stamp l ≠ n.
Proof.
  unfold hideAllLayers. eff. rewrite foldl_removeLayer_elem_of.
  setoid_rewrite layer_values_elem_of. naive_solver.
Qed.

End landuse_all_layers.

(** X10. [showAllLayers] puts on the map exactly the layers registered at
    that moment, on top of what the map shows already, and [hideAllLayers]
    takes exactly those off; a class whose entry is still [null] adds
    nothing, and neither method touches the registry. So hiding all layers
    after showing them leaves none of the registered layers on the map. *)
Theorem all_layers_shown_and_hidden (s : LandUseMap.State) :
  (∀ n, n ∈ LandUseMap.map (Js.exec LandUseMap.showAllLayers s)
        ↔ n ∈ LandUseMap.map s
          ∨ ∃ k l, LandUseMap.layers s !! k = Some (Some l) ∧ stamp l = n)
  ∧ (∀ n, n ∈ LandUseMap.map (Js.exec LandUseMap.hideAllLayers s)
          ↔ n ∈ LandUseMap.map s
            ∧ ∀ k l, LandUseMap.layers s !! k = Some (Some l) → stamp l ≠ n)
  ∧ LandUseMap.layers (Js.exec LandUseMap.showAllLayers s) = LandUseMap.layers s
  ∧ LandUseMap.layers (Js.exec LandUseMap.hideAllLayers s) = LandUseMap.layers s
  ∧ (LandUseMap.showAllLayers s).1 = Js.Ok tt
  ∧ (LandUseMap.hideAllLayers s).1 = Js.Ok tt
  ∧ (∀ k l, LandUseMap.layers s !! k = Some (Some l) →
       Leaflet.hasLayer
         (LandUseMap.map (Js.exec LandUseMap.hideAllLayers
                            (Js.exec LandUseMap.showAllLayers s))) l = false).
Proof.
  split_and!; [apply landuse_showAllLayers_map|apply landuse_hideAllLayers_map
              |done..|].
  intros k l Hl. unfold Leaflet.hasLayer. apply bool_decide_eq_false.
  rewrite landuse_hideAllLayers_map. intros [_ Hnone]. by apply (Hnone k l).
Qed.

Lemma all_layers_shown_and_hidden_witness :
  let l := {| stamp := 0; members := [feature_of_class "forest"];
              style := Js.get "forest" LandUseMap.classStyles |} in
  let s := {| LandUseMap.map := ∅;
              LandUseMap.layers := <["forest" := Some l]> LandUseMap.initial_layers;
              LandUseMap.next_stamp := 1 |} in
  Leaflet.hasLayer (LandUseMap.map (Js.exec LandUseMap.showAllLayers s)) l = true
  ∧ Leaflet.hasLayer
      (LandUseMap.map (Js.exec LandUseMap.hideAllLayers
                         (Js.exec LandUseMap.showAllLayers s))) l = false.
Proof.
  intros l s.
  destruct (all_layers_shown_and_hidden s) as (Hshown & _ & _ & _ & _ & _ & Hhidden).
  split.
  - apply bool_decide_eq_true. apply Hshown. right. exists "forest", l.
    split; [by vm_compute|done].
  - apply (Hhidden "forest"). by vm_compute.
Defined.


Section landuse_building.
Import LandUseMap.
Implicit Types (s : State) (k : string) (bs : Js.object (list Feature)).

Lemma landuse_create_layer_next_stamp k b s :
  next_stamp (Js.exec (create_layer (k, b)) s)
  = if 0 <? length b then S (next_stamp s) else next_stamp s.
Proof. unfold create_layer. by destruct (0 <? length b). Qed.

Lemma landuse_create_layer_map entry s :
  map (Js.exec (create_layer entry) s) = map s.
Proof. destruct entry as [k b]. unfold create_layer. by destruct (0 <? length b). Qed.

Lemma landuse_for_each_map bs : ∀ s,
  map (Js.exec (Js.for_each create_layer bs) s) = map s.
Proof.
  induction bs as [|entry bs IH]; intros s; [done|].
  rewrite for_each_exec_cons by apply landuse_create_layer_ok.
  by rewrite IH, landuse_create_layer_map.
Qed.

(** What the second loop of [processData] leaves under a class: a new layer
    of the bucket when the bucket is not empty, the entry it found
    otherwise. *)
Lemma landuse_for_each_lookup bs : ∀ s k,
  NoDup bs.*1 →
  let s' := Js.exec (Js.for_each create_layer bs) s in
  next_stamp s ≤ next_stamp s'
  ∧ match Js.get k bs with
    | Some ((_ :: _) as b) =>
        ∃ n, next_stamp s ≤ n < next_stamp s'
             ∧ layers s' !! k
               = Some (Some {| stamp := n; members := b;
                               style := Js.get k classStyles |})
    | _ => layers s' !! k = layers s !! k
    end.
Proof.
  induction bs as [|[k0 b0] bs IH]; intros s k Hnd; [done|].
  csimpl in Hnd. apply NoDup_cons in Hnd as [Hk0 Hnd].
  cbv zeta. rewrite for_each_exec_cons by apply landuse_create_layer_ok.
  destruct (IH (Js.exec (create_layer (k0, b0)) s) k Hnd) as [Hle Hk].
  rewrite landuse_create_layer_next_stamp in Hle, Hk.
  rewrite landuse_create_layer_layers in Hk.
  rewrite get_cons. split; [destruct (0 <? length b0); lia|].
  case_decide as Heq.
  - subst k0. apply get_None_keys in Hk0. rewrite Hk0 in Hk.
    destruct b0 as [|f b0]; [done|]. cbn [length Nat.ltb Nat.leb] in Hk, Hle.
    rewrite lookup_insert_eq in Hk. exists (next_stamp s). split; [lia|done].
  - destruct (Js.get k bs) as [[|f b]|].
    + rewrite Hk. destruct (0 <? length b0); [by rewrite lookup_insert_ne|done].
    + destruct Hk as (n & Hn & Hl). exists n. split; [|done].
      destruct (0 <? length b0); lia.
    + rewrite Hk. destruct (0 <? length b0); [by rewrite lookup_insert_ne|done].
Qed.

Lemma landuse_processData_run fs e s :
  plain_categories class fs →
  let bs := [("water", features_of_category class "water" fs);
             ("forest", features_of_category class "forest" fs);
             ("agriculture", features_of_category class "agriculture" fs)] in
  (processData {| error := e; features := Features fs |} s).1 = Js.Ok tt
  ∧ Js.exec (processData {| error := e; features := Features fs |}) s
    = Js.exec showAllLayers (Js.exec (Js.for_each create_layer bs) s).
Proof.
  intros Hplain bs.
  assert (processData {| error := e; features := Features fs |} s
          = Js.bind (Js.for_each create_layer bs) (λ _, showAllLayers) s) as Hrun.
  { unfold processData, empty_buckets. simpl.
    unfold Js.bind at 1, Js.lift at 1. unfold Js.bind at 1, Js.lift at 1.
    by rewrite (group_known_loop_spec fs [] [] [] Hplain). }
  split.
  - rewrite Hrun.
    eapply bind_ok; [apply for_each_ok, landuse_create_layer_ok|done].
  - unfold Js.exec at 1. rewrite Hrun.
    change ((Js.bind ?m ?f s).2) with (Js.exec (Js.bind m f) s).
    by rewrite (exec_bind _ _ tt) by (apply for_each_ok, landuse_create_layer_ok).
Qed.

End landuse_building.

(** X11. On a collection in which no class names a member of
    [Object.prototype], [LandUseMap.processData] registers a new layer for
    each of water, forest and agriculture that has features, holding exactly
    the features of that class in input order and styled from the table; a
    class without features keeps the entry it had, and so does every other
    name. It then shows every registered layer and takes nothing off the
    map, so a layer it replaced stays on the map. *)
Theorem landuse_processData_builds_and_shows (fs : list Feature) (e : Js.value)
    (s : LandUseMap.State) (Hclass : plain_categories class fs) :
  let data := {| error := e; features := Features fs |} in
  let s' := Js.exec (LandUseMap.processData data) s in
  (LandUseMap.processData data s).1 = Js.Ok tt
  ∧ (∀ k, k ∈ ["water"; "forest"; "agriculture"] →
       features_of_category class k fs ≠ [] →
       ∃ l, LandUseMap.layers s' !! k = Some (Some l)
            ∧ members l = features_of_category class k fs
            ∧ style l = Js.get k LandUseMap.classStyles
            ∧ LandUseMap.next_stamp s ≤ stamp l < LandUseMap.next_stamp s')
  ∧ (∀ k, k ∉ ["water"; "forest"; "agriculture"]
          ∨ features_of_category class k fs = [] →
       LandUseMap.layers s' !! k = LandUseMap.layers s !! k)
  ∧ (∀ n, n ∈ LandUseMap.map s'
          ↔ n ∈ LandUseMap.map s
            ∨ ∃ k l, LandUseMap.layers s' !! k = Some (Some l) ∧ stamp l = n).
Proof.
  intros data s'. destruct (landuse_processData_run fs e s Hclass) as [Hok Hrun].
  subst s' data. rewrite Hrun. clear Hrun.
  set (bs := [("water", features_of_category class "water" fs);
              ("forest", features_of_category class "forest" fs);
              ("agriculture", features_of_category class "agriculture" fs)]).
  assert (NoDup bs.*1) as Hnd by (by apply (bool_decide_unpack _); vm_compute).
  split_and!; [done| | |].
  - intros k Hk Hne.
    change (LandUseMap.layers (Js.exec LandUseMap.showAllLayers ?t))
      with (LandUseMap.layers t).
    change (LandUseMap.next_stamp (Js.exec LandUseMap.showAllLayers ?t))
      with (LandUseMap.next_stamp t).
    destruct (landuse_for_each_lookup bs s k Hnd) as [_ Hlookup].
    assert (Js.get k bs = Some (features_of_category class k fs)) as Hget.
    { subst bs. rewrite !get_cons.
      repeat (apply elem_of_cons in Hk as [->|Hk]; [by repeat case_decide|]).
      by apply elem_of_nil in Hk. }
    rewrite Hget in Hlookup.
    destruct (features_of_category class k fs) as [|f b]; [done|].
    destruct Hlookup as (n & Hn & Hl). by eexists.
  - intros k Hk.
    change (LandUseMap.layers (Js.exec LandUseMap.showAllLayers ?t))
      with (LandUseMap.layers t).
    destruct (landuse_for_each_lookup bs s k Hnd) as [_ Hlookup].
    destruct Hk as [Hk|Hk].
    + assert (Js.get k bs = None) as Hget by (by apply get_None_keys).
      by rewrite Hget in Hlookup.
    + destruct (Js.get k bs) as [b|] eqn:Hget; [|done].
      assert (b = features_of_category class k fs) as ->.
      { subst bs. rewrite !get_cons in Hget.
        repeat (case_decide; [subst k; by injection Hget|]). done. }
      by rewrite Hk in Hlookup.
  - intros n. rewrite landuse_showAllLayers_map, landuse_for_each_map.
    change (LandUseMap.layers (Js.exec LandUseMap.showAllLayers ?t))
      with (LandUseMap.layers t). done.
Qed.

Lemma landuse_processData_builds_and_shows_witness :
  let fs := [feature_of_class "forest"; feature_of_class "urban";
             feature_of_class "forest"] in
  let data := {| error := Js.Undefined; features := Features fs |} in
  let s' := Js.exec (LandUseMap.processData data) landuse_constructed in
  (∃ l, LandUseMap.layers s' !! "forest" = Some (Some l)
        ∧ members l = [feature_of_class "forest"; feature_of_class "forest"])
  ∧ LandUseMap.layers s' !! "water" = Some None.
Proof.
  intros fs data s'.
  assert (plain_categories class fs) as Hplain by repeat constructor.
  destruct (landuse_processData_builds_and_shows fs Js.Undefined
              landuse_constructed Hplain) as (_ & Hnew & Hold & _).
  split.
  - destruct (Hnew "forest") as (l & Hl & Hmembers & _); [set_solver|done|].
    exists l. split; [exact Hl|]. by rewrite Hmembers.
  - etrans; [apply Hold; by right|by vm_compute].
Defined.

(** ** LandUseMap: loading the data *)

Section landuse_loading.
Import LandUseMapPage.

Lemma landuse_processData_throw data w e w' :
  LandUseMap.processData data w = (Js.Throw e, w') → w' = w.
Proof.
  unfold LandUseMap.processData.
  unfold Js.bind at 1, Js.lift at 1.
  destruct (features_forEach (features data)) as [fs|e0]; [|by intros [= _ <-]].
  unfold Js.bind at 1, Js.lift at 1.
  destruct (group_loop group_known_step LandUseMap.empty_buckets fs) as [bs|e0];
    [|by intros [= _ <-]].
  intros Hrun.
  assert ((Js.bind (Js.for_each LandUseMap.create_layer bs)
             (λ _, LandUseMap.showAllLayers) w).1 = Js.Ok tt) as Hok.
  { eapply bind_ok; [apply for_each_ok, landuse_create_layer_ok|done]. }
  by rewrite Hrun in Hok.
Qed.

Lemma landuse_processData_ok_features data w w' :
  LandUseMap.processData data w = (Js.Ok tt, w') →
  ∃ fs, features data = Features fs.
Proof.
  unfold LandUseMap.processData. unfold Js.bind at 1, Js.lift at 1.
  destruct (features data) as [| |fs]; simpl; [done..|]. by exists fs.
Qed.

Lemma landuse_loadData_cases statusResponse response s line :
  status s = Some line →
  let s' := Js.exec (loadData statusResponse response) s in
  (loadData statusResponse response s).1 = Js.Ok tt
  ∧ ((∃ n, status s' = Some {| text := Loaded n; className := "status success" |}
           ∧ console s' = console s)
     ∨ (∃ e, status s' = Some {| text := Failure (Js.message e);
                                 className := "status error" |}
             ∧ console s' = console s ++ [e]
             ∧ widget s' = widget s)).
Proof.
  intros Hline. unfold loadData, fetch_json, write_status, on_widget. eff.
  rewrite Hline. simpl.
  destruct statusResponse as [|ok1 st1 [| |[[]]]]; simpl;
    try (split; [done|right; eexists; split_and!; [|reflexivity|]; done]).
  destruct response as [|ok2 st2 [| |data]]; simpl;
    try (split; [done|right; eexists; split_and!; [|reflexivity|]; done]).
  destruct (Js.truthy (error data)); simpl;
    try (split; [done|right; eexists; split_and!; [|reflexivity|]; done]).
  destruct (LandUseMap.processData data (widget s)) as [[[]|e] w'] eqn:Hrun; simpl.
  - destruct (landuse_processData_ok_features _ _ _ Hrun) as [fs ->]. simpl.
    split; [done|left; by eexists].
  - apply landuse_processData_throw in Hrun as ->.
    split; [done|right]. exists e. split_and!; [done..|]. by destruct s.
Qed.

End landuse_loading.

(** X12. When [/status] reports data, and [/data] answers with a collection
    without [error] in which no class names a member of [Object.prototype],
    [loadData] fetches the two addresses in that order, hands the collection
    to [processData], and reports the length of the whole collection in the
    status line: features of classes that get no layer are counted too. The
    HTTP status of the two answers is not looked at. *)
Theorem landuse_loadData_reports_all_features
    (s : LandUseMapPage.State) (line : LandUseMapPage.StatusLine)
    (ok1 ok2 : bool) (code1 code2 : nat) (e : Js.value) (fs : list Feature)
    (Hstatus : LandUseMapPage.status s = Some line)
    (Herror : Js.truthy e = false)
    (Hclass : plain_categories class fs) :
  let data := {| error := e; features := Features fs |} in
  let run :=
    LandUseMapPage.loadData
      (Http ok1 code1 (JsonObject {| LandUseMapPage.data_available := true |}))
      (Http ok2 code2 (JsonObject data)) in
  (run s).1 = Js.Ok tt
  ∧ LandUseMapPage.widget (Js.exec run s)
    = Js.exec (LandUseMap.processData data) (LandUseMapPage.widget s)
  ∧ LandUseMapPage.status (Js.exec run s)
    = Some {| LandUseMapPage.text := LandUseMapPage.Loaded (length fs);
              LandUseMapPage.className := "status success" |}
  ∧ LandUseMapPage.requests (Js.exec run s)
    = LandUseMapPage.requests s ++ ["/status"; "/data"]
  ∧ LandUseMapPage.console (Js.exec run s) = LandUseMapPage.console s.
Proof.
  intros data run. subst run.
  destruct (landuse_processData_run fs e (LandUseMapPage.widget s) Hclass)
    as [Hok _]. fold data in Hok.
  unfold LandUseMapPage.loadData, LandUseMapPage.fetch_json,
    LandUseMapPage.write_status, LandUseMapPage.on_widget. eff.
  rewrite Hstatus. simpl. rewrite Herror. simpl.
  unfold Js.exec in *.
  destruct (LandUseMap.processData data (LandUseMapPage.widget s))
    as [[[]|e'] w'] eqn:Hrun; simpl in *; [|done].
  by rewrite <-app_assoc.
Qed.

Lemma landuse_loadData_reports_all_features_witness :
  let fs := [feature_of_class "forest"; feature_of_class "urban"] in
  let data := {| error := Js.Undefined; features := Features fs |} in
  let s := Js.exec (LandUseMapPage.loadData
                      (Http true 200 (JsonObject
                         {| LandUseMapPage.data_available := true |}))
                      (Http true 200 (JsonObject data)))
             landuse_page_constructed in
  LandUseMapPage.status s
  = Some {| LandUseMapPage.text := LandUseMapPage.Loaded 2;
            LandUseMapPage.className := "status success" |}
  ∧ LandUseMapPage.requests s = ["/status"; "/data"].
Proof.
  intros fs data s.
  destruct (landuse_loadData_reports_all_features landuse_page_constructed
              _ true true 200 200 Js.Undefined fs eq_refl eq_refl
              ltac:(repeat constructor)) as (_ & _ & Hline & Hrequests & _).
  split; [exact Hline|exact Hrequests].
Defined.

(** X13. [loadData] looks up the status element before its [try]: without
    one it throws at once and fetches nothing. With one it never throws:
    whatever the two fetches answer, it ends either with the status line on
    success, or with the error logged, its message in the status line, and
    the map and the layers exactly as they were. When [/status] reports no
    data, [/data] is not fetched. *)
Theorem landuse_loadData_fails_safely
    (statusResponse : Response LandUseMapPage.StatusJson)
    (response : Response GeoJson) (s : LandUseMapPage.State) :
  (LandUseMapPage.status s = None →
     ∃ message,
       LandUseMapPage.loadData statusResponse response s
       = (Js.Throw (Js.TypeError message), s))
  ∧ (is_Some (LandUseMapPage.status s) →
     let s' := Js.exec (LandUseMapPage.loadData statusResponse response) s in
     (LandUseMapPage.loadData statusResponse response s).1 = Js.Ok tt
     ∧ ((∃ n, LandUseMapPage.status s'
              = Some {| LandUseMapPage.text := LandUseMapPage.Loaded n;
                        LandUseMapPage.className := "status success" |}
              ∧ LandUseMapPage.console s' = LandUseMapPage.console s)
        ∨ (∃ e, LandUseMapPage.status s'
                = Some {| LandUseMapPage.text :=
                            LandUseMapPage.Failure (Js.message e);
                          LandUseMapPage.className := "status error" |}
                ∧ LandUseMapPage.console s' = LandUseMapPage.console s ++ [e]
                ∧ LandUseMapPage.widget s' = LandUseMapPage.widget s)))
  ∧ (is_Some (LandUseMapPage.status s) →
     ∀ ok code,
       statusResponse
       = Http ok code (JsonObject {| LandUseMapPage.data_available := false |}) →
       LandUseMapPage.requests
         (Js.exec (LandUseMapPage.loadData statusResponse response) s)
       = LandUseMapPage.requests s ++ ["/status"]).
Proof.
  split_and!.
  - intros Hnone. unfold LandUseMapPage.loadData. eff. rewrite Hnone. by eexists.
  - intros [line Hline]. by apply (landuse_loadData_cases _ _ _ line).
  - intros [line Hline] ok code ->.
    unfold LandUseMapPage.loadData, LandUseMapPage.fetch_json,
      LandUseMapPage.write_status. eff. by rewrite Hline.
Qed.

Lemma landuse_loadData_fails_safely_witness :
  let response :=
    Http true 200 (JsonObject {| error := Js.Undefined; features := Missing |}) in
  let s' := Js.exec (LandUseMapPage.loadData
                       (Http true 200 (JsonObject
                          {| LandUseMapPage.data_available := true |}))
                       response) landuse_page_constructed in
  LandUseMapPage.widget s' = landuse_constructed
  ∧ LandUseMapPage.className <$> LandUseMapPage.status s' = Some "status error".
Proof.
  intros response s'.
  destruct (landuse_loadData_fails_safely
              (Http true 200 (JsonObject
                 {| LandUseMapPage.data_available := true |}))
              response landuse_page_constructed) as (_ & Hcases & _).
  destruct (Hcases ltac:(by eexists)) as [_ [(n & Hline & _)|(e & Hline & _ & Hw)]].
  - exfalso. revert Hline. by vm_compute.
  - split; [exact Hw|]. subst s'. by rewrite Hline.
Defined.

(** ** LandUseMap: the toggles in a session *)

Section landuse_session_facts.
Import LandUseMapPage.

Lemma landuse_showAllLayers_layers w :
  LandUseMap.layers (Js.exec LandUseMap.showAllLayers w) = LandUseMap.layers w.
Proof. done. Qed.

Lemma landuse_state_eq (w w' : LandUseMap.State) :
  LandUseMap.map w' = LandUseMap.map w →
  LandUseMap.layers w' = LandUseMap.layers w →
  LandUseMap.next_stamp w' = LandUseMap.next_stamp w →
  w' = w.
Proof. destruct w, w'. simpl. by intros -> -> ->. Qed.

Lemma landuse_widget_toggle_none w :
  no_layer_yet w →
  (∀ checked : bool,
     (if checked then LandUseMap.showAllLayers else LandUseMap.hideAllLayers) w
     = (Js.Ok tt, w))
  ∧ (∀ k (checked : bool),
       (if checked then LandUseMap.showLayer k else LandUseMap.hideLayer k) w
       = (Js.Ok tt, w)).
Proof.
  intros Hnone. split.
  - intros checked.
    assert (∀ m : Js.Eff LandUseMap.State unit,
              (m w).1 = Js.Ok tt → Js.exec m w = w → m w = (Js.Ok tt, w)) as Hpair.
    { intros m. unfold Js.exec. destruct (m w) as [r w']. simpl. congruence. }
    destruct checked; apply Hpair; try done; apply landuse_state_eq; try done;
      apply leibniz_equiv, set_equiv; intros n.
    + rewrite landuse_showAllLayers_map. split; [|by left].
      intros [?|(k & l & Hl & _)]; [done|]. by destruct (Hnone k l).
    + rewrite landuse_hideAllLayers_map. split; [by intros [? _]|].
      intros ?. split; [done|]. intros k l Hl. by destruct (Hnone k l).
  - intros k checked. unfold LandUseMap.showLayer, LandUseMap.hideLayer.
    destruct checked; eff;
      (destruct (LandUseMap.layers w !! k) as [[l|]|] eqn:Hl;
         [by destruct (Hnone k l)|done..]).
Qed.

Lemma landuse_on_toggle_none t s :
  no_layer_yet (widget s) → landuse_on_toggle t s = (Js.Ok tt, s).
Proof.
  intros Hnone. destruct (landuse_widget_toggle_none _ Hnone) as [Hall Hone].
  destruct t as [checked|k checked]; simpl;
    unfold on_layer_toggle, on_class_toggle, on_widget;
    rewrite ?Hall, ?Hone; by destruct s.
Qed.

Lemma landuse_toggles_none ts : ∀ s,
  no_layer_yet (widget s) → landuse_toggles ts s = s.
Proof.
  unfold landuse_toggles. induction ts as [|t ts IH]; intros s Hnone; [done|].
  simpl. unfold Js.exec at 2. rewrite landuse_on_toggle_none by done. by apply IH.
Qed.

Lemma on_widget_exec {A} (m : Js.Eff LandUseMap.State A) s :
  widget (Js.exec (on_widget m) s) = Js.exec m (widget s).
Proof. unfold Js.exec, on_widget. by destruct (m (widget s)). Qed.

Lemma landuse_on_toggle_widget t s :
  LandUseMap.layers (widget (Js.exec (landuse_on_toggle t) s))
  = LandUseMap.layers (widget s)
  ∧ (shows_registered_only (widget s) →
     shows_registered_only (widget (Js.exec (landuse_on_toggle t) s))).
Proof.
  destruct t as [[]|k []]; cbn [landuse_on_toggle];
    unfold on_layer_toggle, on_class_toggle; rewrite on_widget_exec; cbv iota.
  - split; [done|]. intros Hinv n. rewrite landuse_showAllLayers_map.
    intros [?|?]; [by apply Hinv|done].
  - split; [done|]. intros Hinv n. rewrite landuse_hideAllLayers_map.
    intros [? _]. by apply Hinv.
  - unfold LandUseMap.showLayer. eff.
    destruct (LandUseMap.layers (widget s) !! k) as [[l|]|] eqn:Hl; simpl;
      [|done..].
    destruct (Leaflet.hasLayer _ l); simpl; [done|]. split; [done|].
    intros Hinv n. unfold Leaflet.addLayer. simpl.
    rewrite elem_of_union, elem_of_singleton. intros [->|?]; [|by apply Hinv].
    by exists k, l.
  - unfold LandUseMap.hideLayer. eff.
    destruct (LandUseMap.layers (widget s) !! k) as [[l|]|] eqn:Hl; simpl;
      [|done..].
    destruct (Leaflet.hasLayer _ l); simpl; [|done]. split; [done|].
    intros Hinv n. unfold Leaflet.removeLayer. simpl.
    rewrite elem_of_difference. intros [? _]. by apply Hinv.
Qed.

Lemma landuse_toggles_registered ts : ∀ s,
  shows_registered_only (widget s) →
  shows_registered_only (widget (landuse_toggles ts s)).
Proof.
  unfold landuse_toggles. induction ts as [|t ts IH]; intros s Hinv; [done|].
  simpl. apply IH. by apply landuse_on_toggle_widget.
Qed.

Lemma landuse_processData_eq data w :
  LandUseMap.processData data w
  = match features_forEach (features data) with
    | Js.Ok fs =>
        match group_loop group_known_step LandUseMap.empty_buckets fs with
        | Js.Ok bs =>
            Js.bind (Js.for_each LandUseMap.create_layer bs)
              (λ _, LandUseMap.showAllLayers) w
        | Js.Throw e => (Js.Throw e, w)
        end
    | Js.Throw e => (Js.Throw e, w)
    end.
Proof.
  unfold LandUseMap.processData, Js.bind, Js.lift.
  destruct (features_forEach (features data)) as [fs|e0]; [|done].
  by destruct (group_loop group_known_step LandUseMap.empty_buckets fs).
Qed.

Lemma landuse_processData_ok_run data w :
  (LandUseMap.processData data w).1 = Js.Ok tt →
  ∃ bs, LandUseMap.processData data w
        = Js.bind (Js.for_each LandUseMap.create_layer bs)
            (λ _, LandUseMap.showAllLayers) w.
Proof.
  rewrite landuse_processData_eq.
  destruct (features_forEach (features data)) as [fs|e0]; [|done].
  destruct (group_loop group_known_step LandUseMap.empty_buckets fs) as [bs|e0];
    [|done].
  intros _. by exists bs.
Qed.

Lemma landuse_processData_ok_map data w n :
  (LandUseMap.processData data w).1 = Js.Ok tt →
  n ∈ LandUseMap.map (Js.exec (LandUseMap.processData data) w)
  ↔ n ∈ LandUseMap.map w
    ∨ ∃ k l, LandUseMap.layers (Js.exec (LandUseMap.processData data) w) !! k
             = Some (Some l) ∧ stamp l = n.
Proof.
  intros [bs Hrun]%landuse_processData_ok_run. unfold Js.exec at 1 2.
  rewrite Hrun.
  change ((Js.bind ?m ?f w).2) with (Js.exec (Js.bind m f) w).
  rewrite (exec_bind _ _ tt) by (apply for_each_ok, landuse_create_layer_ok).
  by rewrite landuse_showAllLayers_map, landuse_for_each_map.
Qed.

Lemma landuse_loadData_widget statusResponse response s :
  widget (Js.exec (loadData statusResponse response) s) = widget s
  ∨ ∃ data, (LandUseMap.processData data (widget s)).1 = Js.Ok tt
            ∧ widget (Js.exec (loadData statusResponse response) s)
              = Js.exec (LandUseMap.processData data) (widget s).
Proof.
  unfold loadData, fetch_json, write_status, on_widget. eff.
  destruct (status s) as [line|]; simpl; [|by left].
  destruct statusResponse as [|ok1 st1 [| |[[]]]]; simpl; try by left.
  destruct response as [|ok2 st2 [| |data]]; simpl; try by left.
  destruct (Js.truthy (error data)); simpl; try by left.
  destruct (LandUseMap.processData data (widget s)) as [[[]|e] w'] eqn:Hrun; simpl.
  - right. exists data. rewrite Hrun. split; [done|].
    destruct (landuse_processData_ok_features _ _ _ Hrun) as [fs ->]. done.
  - left. by apply landuse_processData_throw in Hrun.
Qed.

End landuse_session_facts.

(** X14. While no class has a layer (as long as the data has not arrived),
    the main toggle and the class toggles do nothing at all, whichever way
    they are switched. *)
Theorem toggles_before_data_do_nothing (s : LandUseMapPage.State) (t : Toggle)
    (Hnone : no_layer_yet (LandUseMapPage.widget s)) :
  landuse_on_toggle t s = (Js.Ok tt, s).
Proof. by apply landuse_on_toggle_none. Qed.

Lemma toggles_before_data_do_nothing_witness :
  landuse_on_toggle (AllLayers true) landuse_page_constructed
  = (Js.Ok tt, landuse_page_constructed).
Proof.
  apply toggles_before_data_do_nothing.
  intros k l. unfold landuse_page_constructed, landuse_constructed,
    LandUseMap.initial_layers. simpl.
  destruct (decide (k = "water")) as [->|?]; [by rewrite lookup_insert_eq|].
  rewrite lookup_insert_ne by done.
  destruct (decide (k = "forest")) as [->|?]; [by rewrite lookup_insert_eq|].
  rewrite lookup_insert_ne by done.
  destruct (decide (k = "agriculture")) as [->|?]; [by rewrite lookup_insert_eq|].
  by rewrite lookup_insert_ne, lookup_empty.
Defined.

(** X15. In a session of the first script (toggles, the one load the
    constructor starts, more toggles) every layer on the map is the layer
    registered for one of the classes, whatever the server answers: what the
    map shows can always be taken off again with a toggle. *)
Theorem landuse_map_shows_registered_layers (before after : list Toggle)
    (statusResponse : Response LandUseMapPage.StatusJson)
    (response : Response GeoJson) :
  shows_registered_only
    (LandUseMapPage.widget (landuse_session before statusResponse response after)).
Proof.
  unfold landuse_session. apply landuse_toggles_registered.
  assert (no_layer_yet landuse_constructed) as Hnone.
  { intros k l. unfold landuse_constructed, LandUseMap.initial_layers. simpl.
    destruct (decide (k = "water")) as [->|?]; [by rewrite lookup_insert_eq|].
    rewrite lookup_insert_ne by done.
    destruct (decide (k = "forest")) as [->|?]; [by rewrite lookup_insert_eq|].
    rewrite lookup_insert_ne by done.
    destruct (decide (k = "agriculture")) as [->|?]; [by rewrite lookup_insert_eq|].
    by rewrite lookup_insert_ne, lookup_empty. }
  rewrite landuse_toggles_none by done.
  destruct (landuse_loadData_widget statusResponse response landuse_page_constructed)
    as [->|(data & Hok & ->)].
  - intros n Hn. by apply elem_of_empty in Hn.
  - intros n [Hn|?]%landuse_processData_ok_map; [|done..].
    by apply elem_of_empty in Hn.
Qed.

(** ** The filter drop-downs *)

Section filter_options_facts.
Import FilterOptions.
Implicit Types (nodes reversed : list Node) (options : list string).

Lemma children_app nodes nodes' :
  children (nodes ++ nodes') = children nodes ++ children nodes'.
Proof. apply filter_app. Qed.

Lemma children_rev nodes : children (rev nodes) = rev (children nodes).
Proof.
  induction nodes as [|n nodes IH]; [done|]. simpl.
  rewrite children_app, IH. unfold children. rewrite !filter_cons, filter_nil.
  destruct n; simpl; [by rewrite app_nil_r|done].
Qed.

Lemma children_option_nodes options :
  children (option_nodes options) = option_nodes options.
Proof.
  induction options as [|o options IH]; [done|].
  unfold children, option_nodes in *. csimpl. rewrite filter_cons_True by done.
  by rewrite IH.
Qed.

Lemma append_options_app nodes options :
  append_options nodes options = nodes ++ option_nodes options.
Proof.
  revert nodes. induction options as [|o options IH]; intros nodes.
  - by rewrite app_nil_r.
  - simpl. unfold append_options in *. simpl. rewrite IH.
    by rewrite <-app_assoc.
Qed.

(** The loop keeps the last element of the reversed children. *)
Lemma remove_last_children_children reversed :
  children (remove_last_children reversed)
  = drop (length (children reversed) - 1) (children reversed).
Proof.
  induction reversed as [|n rest IH]; [done|].
  cbn [remove_last_children].
  destruct (1 <? length (children (n :: rest))) eqn:Hmore.
  - apply Nat.ltb_lt in Hmore. rewrite IH. unfold children in *.
    rewrite filter_cons in *. case_decide; [|done].
    simpl in *. destruct (length (filter _ rest)) as [|m] eqn:Hlen; [lia|].
    simpl. by rewrite Nat.sub_0_r.
  - apply Nat.ltb_ge in Hmore.
    destruct (children (n :: rest)) as [|c [|c' cs]]; simpl in *; [done..|lia].
Qed.

Lemma rev_drop_last {A} (l : list A) :
  rev (drop (length l - 1) l) = take 1 (rev l).
Proof.
  induction l as [|a l _] using rev_ind; [done|].
  rewrite length_app, rev_app_distr. simpl.
  replace (length l + 1 - 1) with (length l + 0) by lia.
  by rewrite drop_app_add.
Qed.

Lemma clear_options_children nodes :
  children (clear_options nodes) = take 1 (children nodes).
Proof.
  unfold clear_options.
  rewrite children_rev, remove_last_children_children, rev_drop_last.
  by rewrite <-children_rev, rev_involutive.
Qed.

Lemma populateSelect_children selectId nodes options s :
  selects s !! selectId = Some nodes →
  ∃ nodes',
    populateSelect selectId (Items options) s
    = (Js.Ok tt, set_selects (<[selectId := nodes']>) s)
    ∧ children nodes' = take 1 (children nodes) ++ option_nodes options.
Proof.
  intros Hnodes. unfold populateSelect. eff. rewrite Hnodes. simpl.
  eexists. split; [done|].
  by rewrite append_options_app, children_app, clear_options_children,
    children_option_nodes.
Qed.

End filter_options_facts.

(** X16. [populateSelect] keeps the first option of the select (the
    placeholder) and drops every later one, then appends one option per
    string, in order, with the string as value and as text; text nodes
    between the options do not change that. Without the select, or without
    options, it does nothing. *)
Theorem populateSelect_keeps_first_option (s : FilterOptions.State)
    (selectId : string) :
  (∀ nodes options,
     FilterOptions.selects s !! selectId = Some nodes →
     ∃ nodes',
       FilterOptions.populateSelect selectId (FilterOptions.Items options) s
       = (Js.Ok tt, FilterOptions.set_selects (<[selectId := nodes']>) s)
       ∧ FilterOptions.children nodes'
         = take 1 (FilterOptions.children nodes)
           ++ FilterOptions.option_nodes options)
  ∧ (∀ options,
       FilterOptions.selects s !! selectId = None →
       FilterOptions.populateSelect selectId options s = (Js.Ok tt, s))
  ∧ FilterOptions.populateSelect selectId FilterOptions.Absent s = (Js.Ok tt, s).
Proof.
  split_and!.
  - intros nodes options. apply populateSelect_children.
  - intros options Hnone. unfold FilterOptions.populateSelect. eff.
    by rewrite Hnone.
  - unfold FilterOptions.populateSelect. eff.
    by destruct (FilterOptions.selects s !! selectId).
Qed.

Lemma populateSelect_keeps_first_option_witness :
  ∃ nodes',
    FilterOptions.populateSelect "state-filter"
      (FilterOptions.Items ["Odisha"; "Telangana"]) fra_selects
    = (Js.Ok tt,
       FilterOptions.set_selects (<["state-filter" := nodes']>) fra_selects)
    ∧ FilterOptions.children nodes'
      = [FilterOptions.OptionNode "" "All States";
         FilterOptions.OptionNode "Odisha" "Odisha";
         FilterOptions.OptionNode "Telangana" "Telangana"].
Proof.
  destruct (proj1 (populateSelect_keeps_first_option fra_selects "state-filter")
              (select_with_placeholder "All States") ["Odisha"; "Telangana"])
    as (nodes' & Hrun & Hchildren); [by vm_compute|].
  exists nodes'. split; [exact Hrun|]. by rewrite Hchildren.
Defined.

Section filter_options_loading.
Import FilterOptions.
Implicit Types (s : State) (o : FilterOptionsJson)
  (fields : list (string * (FilterOptionsJson → OptionList))).

Lemma populateSelect_usable selectId (options : OptionList) s :
  options ≠ NotAnArray →
  let s' := Js.exec (populateSelect selectId options) s in
  (populateSelect selectId options s).1 = Js.Ok tt
  ∧ console s' = console s
  ∧ (∀ id, id ≠ selectId → selects s' !! id = selects s !! id)
  ∧ match selects s !! selectId with
    | Some nodes =>
        ∃ nodes', selects s' !! selectId = Some nodes'
                  ∧ filled_from nodes options nodes'
    | None => selects s' !! selectId = None
    end.
Proof.
  intros Husable. unfold populateSelect. eff.
  destruct (selects s !! selectId) as [nodes|] eqn:Hnodes; simpl.
  - destruct options as [| |l]; simpl; [|done|].
    + split_and!; [done..|]. rewrite Hnodes. by exists nodes.
    + split_and!; [done..| |].
      * intros id Hid. by rewrite lookup_insert_ne.
      * rewrite lookup_insert_eq. eexists. split; [done|]. simpl.
        by rewrite append_options_app, children_app, clear_options_children,
          children_option_nodes.
  - by rewrite Hnodes.
Qed.

Lemma populate_each_usable o fields : ∀ s,
  NoDup fields.*1 →
  lists_usable fields o →
  let run := Js.for_each (λ entry, populateSelect entry.1 (entry.2 o)) fields in
  (run s).1 = Js.Ok tt
  ∧ console (Js.exec run s) = console s
  ∧ (∀ id, id ∉ fields.*1 → selects (Js.exec run s) !! id = selects s !! id)
  ∧ (∀ id, selects s !! id = None → selects (Js.exec run s) !! id = None)
  ∧ (∀ id field nodes,
       (id, field) ∈ fields → selects s !! id = Some nodes →
       ∃ nodes', selects (Js.exec run s) !! id = Some nodes'
                 ∧ filled_from nodes (field o) nodes').
Proof.
  induction fields as [|[id0 f0] fields IH]; intros s Hnd Husable; cbv zeta.
  - split_and!; [done..|]. intros id field nodes Hin. by apply elem_of_nil in Hin.
  - csimpl in Hnd. apply NoDup_cons in Hnd as [Hid0 Hnd].
    apply Forall_cons in Husable as [Hf0 Husable]. simpl in Hf0.
    destruct (populateSelect_usable id0 (f0 o) s Hf0)
      as (Hok & Hconsole & Hother & Hself).
    rewrite for_each_exec_cons by done. cbn [fst snd].
    set (s1 := Js.exec (populateSelect id0 (f0 o)) s) in *.
    destruct (IH s1 Hnd Husable) as (Hok' & Hconsole' & Hother' & Hnone' & Hfilled').
    split_and!.
    + eapply bind_ok; [exact Hok|exact Hok'].
    + by rewrite Hconsole'.
    + intros id [Hne Hid]%not_elem_of_cons. by rewrite Hother', Hother.
    + intros id Hnone. apply Hnone'.
      destruct (decide (id = id0)) as [->|Hne]; [by rewrite Hnone in Hself|].
      by rewrite Hother.
    + intros id field nodes [[= -> ->]|Hin]%elem_of_cons Hnodes.
      * rewrite Hnodes in Hself. destruct Hself as (nodes' & Hnodes' & Hfilled).
        exists nodes'. split; [|done]. by rewrite Hother'.
      * assert (id ≠ id0) as Hne.
        { intros ->. apply Hid0. apply list_elem_of_fmap. by exists (id0, field). }
        apply Hfilled'; [done|]. by rewrite Hother.
Qed.

Lemma bind_ret_unit {S} (m : Js.Eff S unit) (x : S) :
  Js.bind m (λ _, Js.ret tt) x = m x.
Proof. unfold Js.bind, Js.ret. by destruct (m x) as [[[]|e] x']. Qed.

Lemma fra_populate_chain o s :
  (populateSelect "state-filter" (states o) ;;;
   populateSelect "district-filter" (districts o) ;;;
   populateSelect "village-filter" (villages o) ;;;
   populateSelect "tribal-filter" (tribal_communities o)) s
  = Js.for_each (λ entry, populateSelect entry.1 (entry.2 o)) fra_option_fields s.
Proof.
  simpl. unfold Js.bind, Js.ret.
  repeat (destruct (populateSelect _ _ _) as [[[]|?] ?]; try done).
Qed.

Lemma india_populate_chain o s :
  (populateSelect "state-filter" (states o) ;;;
   populateSelect "district-filter" (districts o) ;;;
   populateSelect "village-filter" (villages o) ;;;
   populateSelect "tribal-filter" (tribal_communities o) ;;;
   populateSelect "class-filter" (classes o) ;;;
   populateSelect "fra-type-filter" (fra_types o) ;;;
   populateSelect "status-filter" (claim_statuses o)) s
  = Js.for_each (λ entry, populateSelect entry.1 (entry.2 o)) india_option_fields s.
Proof.
  simpl. unfold Js.bind, Js.ret.
  repeat (destruct (populateSelect _ _ _) as [[[]|?] ?]; try done).
Qed.

Lemma loadFilterOptions_usable fields o (chain : Js.Eff State unit) ok code s :
  (∀ s, chain s = Js.for_each (λ entry, populateSelect entry.1 (entry.2 o)) fields s) →
  NoDup fields.*1 →
  lists_usable fields o →
  let run := Js.try_catch
               (options <- read_options (Http ok code (JsonObject o)) ;; chain)
               console_error in
  (run s).1 = Js.Ok tt
  ∧ console (Js.exec run s) = console s
  ∧ (∀ id, id ∉ fields.*1 → selects (Js.exec run s) !! id = selects s !! id)
  ∧ (∀ id, selects s !! id = None → selects (Js.exec run s) !! id = None)
  ∧ (∀ id field nodes,
       (id, field) ∈ fields → selects s !! id = Some nodes →
       ∃ nodes', selects (Js.exec run s) !! id = Some nodes'
                 ∧ filled_from nodes (field o) nodes').
Proof.
  intros Hchain Hnd Husable run.
  destruct (populate_each_usable o fields s Hnd Husable)
    as (Hok & Hrest).
  assert (run s = Js.for_each (λ entry, populateSelect entry.1 (entry.2 o)) fields s)
    as Hrun.
  { subst run. unfold Js.try_catch, read_options. unfold Js.bind at 1, Js.ret at 1.
    rewrite Hchain.
    by destruct (Js.for_each _ fields s) as [[[]|e] s']. }
  unfold Js.exec in *. rewrite Hrun. by split.
Qed.

End filter_options_loading.

(** X17. Filling a select twice with the same options gives the same options
    as filling it once when the select has a first option to keep. A select
    without any option keeps, the second time, the first option it was given
    the first time: that option is then there twice. *)
Theorem populateSelect_twice (s : FilterOptions.State) (selectId : string)
    (nodes : list FilterOptions.Node) (options : list string)
    (Hselect : FilterOptions.selects s !! selectId = Some nodes) :
  let fill := FilterOptions.populateSelect selectId (FilterOptions.Items options) in
  ∃ once twice,
    FilterOptions.selects (Js.exec fill s) !! selectId = Some once
    ∧ FilterOptions.selects (Js.exec fill (Js.exec fill s)) !! selectId = Some twice
    ∧ (FilterOptions.children nodes ≠ [] →
       FilterOptions.children twice = FilterOptions.children once)
    ∧ (FilterOptions.children nodes = [] →
       FilterOptions.children once = FilterOptions.option_nodes options
       ∧ FilterOptions.children twice
         = take 1 (FilterOptions.option_nodes options)
           ++ FilterOptions.option_nodes options).
Proof.
  intros fill. subst fill.
  destruct (populateSelect_children selectId nodes options s Hselect)
    as (once & Hrun & Honce).
  unfold Js.exec at 1 3. rewrite Hrun. simpl.
  set (s1 := FilterOptions.set_selects (<[selectId := once]>) s).
  assert (FilterOptions.selects s1 !! selectId = Some once) as Hselect1
    by (subst s1; simpl; by rewrite lookup_insert_eq).
  destruct (populateSelect_children selectId once options s1 Hselect1)
    as (twice & Hrun' & Htwice).
  unfold Js.exec. rewrite Hrun'. simpl. rewrite !lookup_insert_eq.
  exists once, twice. split_and!; [done..| |].
  - intros Hsome. rewrite Htwice, Honce.
    by destruct (FilterOptions.children nodes) as [|c cs].
  - intros Hnone. rewrite Htwice, Honce, Hnone. done.
Qed.

Lemma populateSelect_twice_witness :
  let s := {| FilterOptions.selects := {["state-filter" := []]};
              FilterOptions.console := [] |} in
  let fill := FilterOptions.populateSelect "state-filter"
                (FilterOptions.Items ["Odisha"; "Telangana"]) in
  ∃ twice,
    FilterOptions.selects (Js.exec fill (Js.exec fill s)) !! "state-filter"
    = Some twice
    ∧ FilterOptions.children twice
      = [FilterOptions.OptionNode "Odisha" "Odisha";
         FilterOptions.OptionNode "Odisha" "Odisha";
         FilterOptions.OptionNode "Telangana" "Telangana"].
Proof.
  intros s fill.
  destruct (populateSelect_twice s "state-filter" [] ["Odisha"; "Telangana"])
    as (once & twice & _ & Htwice & _ & Hdup); [by vm_compute|].
  exists twice. split; [exact Htwice|]. by destruct (Hdup eq_refl) as [_ ->].
Defined.

(** X18. When the answer of [/api/filter-options] is an object in which each
    list read is an array or missing, [loadFilterOptions] logs nothing and
    fills each of its selects that is on the page from its own property:
    the four of the FRA script, the seven of the India script. A select is
    left as it was when its property is missing, and so is every select the
    script does not fill. *)
Theorem loadFilterOptions_fills_the_selects (ok : bool) (code : nat)
    (o : FilterOptions.FilterOptionsJson) (s : FilterOptions.State) :
  (lists_usable fra_option_fields o →
   let s' := Js.exec (FilterOptions.fra_loadFilterOptions
                        (Http ok code (JsonObject o))) s in
   FilterOptions.console s' = FilterOptions.console s
   ∧ (∀ id, id ∉ fra_option_fields.*1 →
        FilterOptions.selects s' !! id = FilterOptions.selects s !! id)
   ∧ (∀ id field nodes,
        (id, field) ∈ fra_option_fields →
        FilterOptions.selects s !! id = Some nodes →
        ∃ nodes', FilterOptions.selects s' !! id = Some nodes'
                  ∧ filled_from nodes (field o) nodes'))
  ∧ (lists_usable india_option_fields o →
     let s' := Js.exec (FilterOptions.india_loadFilterOptions
                          (Http ok code (JsonObject o))) s in
     FilterOptions.console s' = FilterOptions.console s
     ∧ (∀ id, id ∉ india_option_fields.*1 →
          FilterOptions.selects s' !! id = FilterOptions.selects s !! id)
     ∧ (∀ id field nodes,
          (id, field) ∈ india_option_fields →
          FilterOptions.selects s !! id = Some nodes →
          ∃ nodes', FilterOptions.selects s' !! id = Some nodes'
                    ∧ filled_from nodes (field o) nodes')).
Proof.
  split; intros Husable.
  - destruct (loadFilterOptions_usable fra_option_fields o _ ok code s
                (fra_populate_chain o)) as (_ & ? & ? & _ & ?); [|done|done].
    by apply (bool_decide_unpack _); vm_compute.
  - destruct (loadFilterOptions_usable india_option_fields o _ ok code s
                (india_populate_chain o)) as (_ & ? & ? & _ & ?); [|done|done].
    by apply (bool_decide_unpack _); vm_compute.
Qed.

Lemma loadFilterOptions_fills_the_selects_witness :
  let o := {| FilterOptions.states := FilterOptions.Items ["Odisha"];
              FilterOptions.districts := FilterOptions.Absent;
              FilterOptions.villages := FilterOptions.Items [];
              FilterOptions.tribal_communities := FilterOptions.Items ["Gond"];
              FilterOptions.classes := FilterOptions.NotAnArray;
              FilterOptions.fra_types := FilterOptions.Absent;
              FilterOptions.claim_statuses := FilterOptions.Absent |} in
  let s' := Js.exec (FilterOptions.fra_loadFilterOptions
                       (Http true 200 (JsonObject o))) fra_selects in
  FilterOptions.console s' = []
  ∧ FilterOptions.selects s' !! "district-filter"
    = Some (select_with_placeholder "All Districts").
Proof.
  intros o s'.
  assert (lists_usable fra_option_fields o) as Husable
    by (repeat constructor; done).
  destruct (proj1 (loadFilterOptions_fills_the_selects true 200 o fra_selects)
              Husable) as (Hconsole & _ & Hfilled).
  split; [exact Hconsole|].
  destruct (Hfilled "district-filter" FilterOptions.districts
              (select_with_placeholder "All Districts"))
    as (nodes' & Hnodes' & Hsame); [set_solver|by vm_compute|].
  simpl in Hsame. by rewrite Hsame in Hnodes'.
Defined.

Section filter_options_failures.
Import FilterOptions.

Lemma loadFilterOptions_ok response s :
  (fra_loadFilterOptions response s).1 = Js.Ok tt
  ∧ (india_loadFilterOptions response s).1 = Js.Ok tt.
Proof. split; by apply try_catch_ok. Qed.

Lemma populateSelect_state_step (options : OptionList) s :
  options ≠ NotAnArray →
  ∃ s1, populateSelect "state-filter" options s = (Js.Ok tt, s1)
        ∧ console s1 = console s
        ∧ ∀ id, id ≠ "state-filter" → selects s1 !! id = selects s !! id.
Proof.
  intros Husable.
  destruct (populateSelect_usable "state-filter" options s Husable)
    as (Hok & Hconsole & Hother & _).
  unfold Js.exec in *.
  destruct (populateSelect "state-filter" options s) as [r s1]. simpl in *.
  subst r. by exists s1.
Qed.

Lemma populateSelect_not_an_array selectId nodes s :
  selects s !! selectId = Some nodes →
  populateSelect selectId NotAnArray s
  = (Js.Throw (Js.TypeError "options.forEach is not a function"),
     set_selects (<[selectId := clear_options nodes]>) s).
Proof. intros Hnodes. unfold populateSelect. eff. by rewrite Hnodes. Qed.

End filter_options_failures.

(** X19. [loadFilterOptions] never throws: what goes wrong is logged. When
    the fetch fails, or the answer is not JSON or is [null], no select is
    touched. When [states] is usable and [districts] is a truthy value that
    is not an array, the district select (if the page has it) is emptied
    down to its first option before [forEach] fails there, and the selects
    that come after it are not filled, whatever their lists are. *)
Theorem loadFilterOptions_logs_and_stops
    (response : Response FilterOptions.FilterOptionsJson)
    (s : FilterOptions.State) :
  ((FilterOptions.fra_loadFilterOptions response s).1 = Js.Ok tt
   ∧ (FilterOptions.india_loadFilterOptions response s).1 = Js.Ok tt)
  ∧ ((∀ ok code o, response ≠ Http ok code (JsonObject o)) →
     ∃ e,
       FilterOptions.fra_loadFilterOptions response s
       = (Js.Ok tt, FilterOptions.set_console (λ l, l ++ [e]) s)
       ∧ FilterOptions.india_loadFilterOptions response s
         = (Js.Ok tt, FilterOptions.set_console (λ l, l ++ [e]) s))
  ∧ (∀ ok code o nodes,
       response = Http ok code (JsonObject o) →
       FilterOptions.states o ≠ FilterOptions.NotAnArray →
       FilterOptions.districts o = FilterOptions.NotAnArray →
       FilterOptions.selects s !! "district-filter" = Some nodes →
       ∀ s', s' = Js.exec (FilterOptions.fra_loadFilterOptions response) s
             ∨ s' = Js.exec (FilterOptions.india_loadFilterOptions response) s →
         FilterOptions.console s'
         = FilterOptions.console s
           ++ [Js.TypeError "options.forEach is not a function"]
         ∧ FilterOptions.selects s' !! "district-filter"
           = Some (FilterOptions.clear_options nodes)
         ∧ FilterOptions.children (FilterOptions.clear_options nodes)
           = take 1 (FilterOptions.children nodes)
         ∧ ∀ id, id ∈ ["village-filter"; "tribal-filter"; "class-filter";
                       "fra-type-filter"; "status-filter"] →
             FilterOptions.selects s' !! id = FilterOptions.selects s !! id).
Proof.
  split; [|split].
  - apply loadFilterOptions_ok.
  - intros Hbad. unfold FilterOptions.fra_loadFilterOptions,
      FilterOptions.india_loadFilterOptions, FilterOptions.read_options,
      FilterOptions.console_error.
    destruct response as [|ok code [| |o]]; [by eexists..|].
    by destruct (Hbad ok code o).
  - intros ok code o nodes -> Hstates Hdistricts Hnodes s' Hs'.
    destruct (populateSelect_state_step (FilterOptions.states o) s Hstates)
      as (s1 & Hrun1 & Hconsole1 & Hother1).
    assert (FilterOptions.selects s1 !! "district-filter" = Some nodes) as Hnodes1
      by (by rewrite Hother1).
    pose proof (populateSelect_not_an_array "district-filter" nodes s1 Hnodes1)
      as Hrun2.
    assert (s' = FilterOptions.set_console
                   (λ l, l ++ [Js.TypeError "options.forEach is not a function"])
                   (FilterOptions.set_selects
                      (<["district-filter" := FilterOptions.clear_options nodes]>)
                      s1)) as ->.
    { destruct Hs' as [->| ->];
        unfold FilterOptions.fra_loadFilterOptions,
          FilterOptions.india_loadFilterOptions, FilterOptions.read_options,
          FilterOptions.console_error, Js.exec, Js.try_catch;
        unfold Js.bind at 1, Js.ret at 1; unfold Js.bind at 1;
        rewrite Hrun1; unfold Js.bind at 1; rewrite Hdistricts, Hrun2; done. }
    simpl. rewrite Hconsole1, lookup_insert_eq.
    split_and!; [done..|apply clear_options_children|].
    intros id Hid. rewrite lookup_insert_ne, Hother1; [done| |];
      intros ?; subst id; set_solver.
Qed.

Lemma loadFilterOptions_logs_and_stops_witness :
  let o := {| FilterOptions.states := FilterOptions.Items ["Odisha"];
              FilterOptions.districts := FilterOptions.NotAnArray;
              FilterOptions.villages := FilterOptions.Items ["Pottangi"];
              FilterOptions.tribal_communities := FilterOptions.Items ["Gond"];
              FilterOptions.classes := FilterOptions.Absent;
              FilterOptions.fra_types := FilterOptions.Absent;
              FilterOptions.claim_statuses := FilterOptions.Absent |} in
  let s' := Js.exec (FilterOptions.fra_loadFilterOptions
                       (Http true 200 (JsonObject o))) fra_selects in
  FilterOptions.selects s' !! "village-filter"
  = Some (select_with_placeholder "All Villages").
Proof.
  intros o s'.
  destruct (loadFilterOptions_logs_and_stops (Http true 200 (JsonObject o))
              fra_selects) as (_ & _ & Hstops).
  destruct (Hstops true 200 o (select_with_placeholder "All Districts")
              eq_refl ltac:(done) eq_refl ltac:(by vm_compute) s'
              ltac:(by left)) as (_ & _ & _ & Hlater).
  etrans; [apply Hlater; set_solver|by vm_compute].
Defined.

(** ** FRAWebGIS: the chart of claims by state *)

Section state_chart_facts.
Import FRAWebGISCharts.
Implicit Types (entry : string * nat) (entries sorted : list (string * nat)).

Lemma insert_by_count_perm entry sorted :
  insert_by_count entry sorted ≡ₚ entry :: sorted.
Proof.
  induction sorted as [|next rest IH]; simpl; [done|].
  destruct (next.2 <=? entry.2); [done|]. rewrite IH. apply Permutation_swap.
Qed.

Lemma sort_by_count_perm entries : sort_by_count entries ≡ₚ entries.
Proof.
  induction entries as [|entry entries IH]; simpl; [done|].
  by rewrite insert_by_count_perm, IH.
Qed.

Lemma insert_by_count_sorted entry sorted :
  StronglySorted (λ e e', e'.2 ≤ e.2) sorted →
  StronglySorted (λ e e', e'.2 ≤ e.2) (insert_by_count entry sorted).
Proof.
  induction 1 as [|next rest Hrest IH Hnext]; simpl.
  - repeat constructor.
  - destruct (next.2 <=? entry.2) eqn:Hle.
    + apply Nat.leb_le in Hle. constructor; [by constructor|].
      constructor; [done|]. eapply Forall_impl; [exact Hnext|].
      intros e He. simpl in *. lia.
    + apply Nat.leb_gt in Hle. constructor; [done|].
      rewrite insert_by_count_perm. constructor; [lia|done].
Qed.

Lemma sort_by_count_sorted entries :
  StronglySorted (λ e e', e'.2 ≤ e.2) (sort_by_count entries).
Proof.
  induction entries as [|entry entries IH]; simpl; [constructor|].
  by apply insert_by_count_sorted.
Qed.

(** Stability: the entries of one count keep their order. *)
Lemma insert_by_count_stable n entry sorted :
  filter (λ e, e.2 = n) (insert_by_count entry sorted)
  = filter (λ e, e.2 = n) (entry :: sorted).
Proof.
  induction sorted as [|next rest IH]; simpl; [done|].
  destruct (next.2 <=? entry.2) eqn:Hle; [done|]. apply Nat.leb_gt in Hle.
  rewrite (filter_cons _ next), IH, !filter_cons.
  repeat case_decide; try done; lia.
Qed.

Lemma sort_by_count_stable n entries :
  filter (λ e, e.2 = n) (sort_by_count entries) = filter (λ e, e.2 = n) entries.
Proof.
  induction entries as [|entry entries IH]; simpl; [done|].
  by rewrite insert_by_count_stable, !filter_cons, IH.
Qed.

End state_chart_facts.

(** X20. With its canvas on the page, [createStateChart] charts the ten
    states with the most claims, or all of them when there are fewer: the
    bars are entries of the data, largest count first, states of the same
    count in the order of the data, and no state left out has more claims
    than a state shown. Without the canvas it throws. *)
Theorem state_chart_shows_top_ten (data : Js.object nat) :
  (∃ shown,
     FRAWebGISCharts.createStateChart true data
     = Js.Ok {| FRAWebGISCharts.chart_type := "bar";
                FRAWebGISCharts.labels := shown.*1;
                FRAWebGISCharts.dataset := shown.*2 |}
     ∧ length shown = length data `min` 10
     ∧ StronglySorted (λ e e', e'.2 ≤ e.2) shown
     ∧ (∃ rest, shown ++ rest ≡ₚ data
                ∧ ∀ e e', e ∈ shown → e' ∈ rest → e'.2 ≤ e.2)
     ∧ (∀ n, filter (λ e, e.2 = n) shown
             `prefix_of` filter (λ e, e.2 = n) data))
  ∧ (∃ message, FRAWebGISCharts.createStateChart false data
                = Js.Throw (Js.TypeError message)).
Proof.
  split; [|by eexists].
  exists (take 10 (FRAWebGISCharts.sort_by_count data)).
  pose proof (sort_by_count_perm data) as Hperm.
  pose proof (sort_by_count_sorted data) as Hsorted.
  rewrite <-(take_drop 10 (FRAWebGISCharts.sort_by_count data)) in Hperm, Hsorted.
  split_and!.
  - done.
  - rewrite length_take, (Permutation_length (sort_by_count_perm data)). lia.
  - by apply StronglySorted_app_1_l in Hsorted.
  - exists (drop 10 (FRAWebGISCharts.sort_by_count data)). split; [done|].
    intros e e' He He'.
    by apply (StronglySorted_app_1_elem_of _ _ _ e e' Hsorted).
  - intros n. unfold Js.object in *. rewrite <-(sort_by_count_stable n data).
    rewrite <-(take_drop 10 (FRAWebGISCharts.sort_by_count data)) at 2.
    rewrite filter_app. by apply prefix_app_r.
Qed.

Lemma state_chart_shows_top_ten_witness :
  let data := [("Odisha", 5); ("Telangana", 9); ("Kerala", 5)] in
  ∃ shown,
    FRAWebGISCharts.createStateChart true data
    = Js.Ok {| FRAWebGISCharts.chart_type := "bar";
               FRAWebGISCharts.labels := shown.*1;
               FRAWebGISCharts.dataset := shown.*2 |}
    ∧ length shown = 3
    ∧ filter (λ e, e.2 = 5) shown
      `prefix_of` [("Odisha", 5); ("Kerala", 5)].
Proof.
  intros data.
  destruct (proj1 (state_chart_shows_top_ten data))
    as (shown & Hrun & Hlength & _ & _ & Hstable).
  exists shown. split_and!; [exact Hrun|exact Hlength|exact (Hstable 5)].
Defined.

